(** * langchain-go: the composition primitives and the agent loop

    A shallow embedding of the Go packages [core], [runnable] and [agents]
    of langchain-go, and the properties of their [Invoke] / [Next] methods.

    Conventions of the embedding.
    - A Go function returning [(T, error)] is a pair [T * option error]
      ([None] is the nil error).  A run-time panic raised by the code under
      study (a failed single-valued type assertion, a nil dereference, a
      write to a nil map) is the third outcome [Panic].
    - Code that calls user-supplied functions threads a world [W] through
      them, so that "was it called" is observable.
    - Go's [any] is an inductive type with the nil interface value and the
      dynamic types the packages put in it.
    - Where Go leaves an order unspecified (map iteration, goroutine
      completion) the order is an explicit argument. *)

From Stdlib Require Import ZArith Lia Ascii String DecimalString Permutation Sorted.
From stdpp Require Import base option list strings gmap fin_maps.

Local Open Scope string_scope.
Local Open Scope list_scope.
Local Open Scope Z_scope.

(* ===================================================================== *)
(** * The Go run time: errors, outcomes, formatting verbs                  *)
(* ===================================================================== *)

Module Go.

(** An [error] value, as far as the packages look at it: its [Error()] text
    and, for the errors built by [fmt.Errorf] with [%w], the error it wraps. *)
Inductive error : Type :=
| errorString (s : string)
| wrapError (msg : string) (err : error).

Definition Error (e : error) : string :=
  match e with
  | errorString s => s
  | wrapError msg _ => msg
  end.

Definition Unwrap (e : error) : option error :=
  match e with
  | errorString _ => None
  | wrapError _ err => Some err
  end.

(** What a call made by the modelled code can do: return its results, or
    panic ([msg] says which panic, in the words of the run time where they
    are short). *)
Inductive outcome (T : Type) : Type :=
| Return (v : T) (err : option error)
| Panic (msg : string).
Arguments Return {T} v err.
Arguments Panic {T} msg.

(** ** [%d] *)
Definition fmt_d (z : Z) : string := NilZero.string_of_int (Z.to_int z).

(** ** [%q] on a string: [strconv.Quote] *)

Definition lowerhex (n : N) : ascii :=
  match String.get (N.to_nat n) "0123456789abcdef" with
  | Some c => c
  | None => "0"%char
  end.

Definition hex_digits (width : nat) (n : N) : string :=
  string_of_list_ascii
    (List.map (fun k => lowerhex (N.land (N.shiftr n (4 * N.of_nat k)) 15))
              (rev (seq 0 width))).

Definition RuneError : N := 0xFFFD.

(** [utf8.first] together with [utf8.acceptRanges]: for a lead byte, the
    length of the encoding and the range allowed for the second byte. *)
Definition utf8_first (b0 : N) : option (nat * N * N) :=
  (if (0xC2 <=? b0) && (b0 <=? 0xDF) then Some (2%nat, 0x80, 0xBF)
   else if b0 =? 0xE0 then Some (3%nat, 0xA0, 0xBF)
   else if (0xE1 <=? b0) && (b0 <=? 0xEC) then Some (3%nat, 0x80, 0xBF)
   else if b0 =? 0xED then Some (3%nat, 0x80, 0x9F)
   else if (0xEE <=? b0) && (b0 <=? 0xEF) then Some (3%nat, 0x80, 0xBF)
   else if b0 =? 0xF0 then Some (4%nat, 0x90, 0xBF)
   else if (0xF1 <=? b0) && (b0 <=? 0xF3) then Some (4%nat, 0x80, 0xBF)
   else if b0 =? 0xF4 then Some (4%nat, 0x80, 0x8F)
   else None)%N.

Definition continuation (b : N) : bool := ((0x80 <=? b) && (b <=? 0xBF))%N.

(** [utf8.DecodeRuneInString]: the rune at the head of [s] and its width. *)
Definition DecodeRuneInString (s : string) : N * nat :=
  match s with
  | EmptyString => (RuneError, 0%nat)
  | String c0 s1 =>
    let b0 := N_of_ascii c0 in
    if (b0 <? 0x80)%N then (b0, 1%nat) else
    match utf8_first b0 with
    | None => (RuneError, 1%nat)
    | Some (sz, lo, hi) =>
      match s1 with
      | EmptyString => (RuneError, 1%nat)
      | String c1 s2 =>
        let b1 := N_of_ascii c1 in
        if ((b1 <? lo) || (hi <? b1))%N then (RuneError, 1%nat)
        else if (sz <=? 2)%nat
        then (N.lor (N.shiftl (N.land b0 0x1F) 6) (N.land b1 0x3F), 2%nat)
        else
        match s2 with
        | EmptyString => (RuneError, 1%nat)
        | String c2 s3 =>
          let b2 := N_of_ascii c2 in
          if negb (continuation b2) then (RuneError, 1%nat)
          else if (sz <=? 3)%nat
          then (N.lor (N.shiftl (N.land b0 0x0F) 12)
                  (N.lor (N.shiftl (N.land b1 0x3F) 6) (N.land b2 0x3F)), 3%nat)
          else
          match s3 with
          | EmptyString => (RuneError, 1%nat)
          | String c3 _ =>
            let b3 := N_of_ascii c3 in
            if negb (continuation b3) then (RuneError, 1%nat)
            else (N.lor (N.shiftl (N.land b0 0x07) 18)
                    (N.lor (N.shiftl (N.land b1 0x3F) 12)
                       (N.lor (N.shiftl (N.land b2 0x3F) 6) (N.land b3 0x3F))),
                  4%nat)
          end
        end
      end
    end
  end.

Fixpoint string_take (n : nat) (s : string) : string :=
  match n, s with
  | S k, String c r => String c (string_take k r)
  | _, _ => EmptyString
  end.

Section Quote.

(** [strconv.IsPrint] above U+00FF is a table of the Unicode standard; it
    is the one part of the verb taken as given. *)
Variable unicode_print : N -> bool.

Definition IsPrint (r : N) : bool :=
  (if r <=? 0xFF
   then ((0x20 <=? r) && (r <=? 0x7E)) || ((0xA1 <=? r) && (negb (r =? 0xAD)))
   else unicode_print r)%N.

(** [strconv.appendEscapedRune] for the double quote, neither ASCII-only
    nor graphic-only; [raw] is the encoding of [r] as it was read. *)
Definition appendEscapedRune (r : N) (raw : string) : string :=
  (if (r =? 34) || (r =? 92) then String "092"%char raw
   else if IsPrint r then raw
   else if r =? 7 then "\a"
   else if r =? 8 then "\b"
   else if r =? 12 then "\f"
   else if r =? 10 then "\n"
   else if r =? 13 then "\r"
   else if r =? 9 then "\t"
   else if r =? 11 then "\v"
   else if (r <? 32) || (r =? 0x7F) then "\x" +:+ hex_digits 2 r
   else if r <? 0x10000 then "\u" +:+ hex_digits 4 r
   else "\U" +:+ hex_digits 8 r)%N.

(** The loop of [strconv.appendQuotedWith]; [skip] counts the bytes of
    the current rune still to be stepped over. *)
Fixpoint quote_body (skip : nat) (s : string) : string :=
  match s with
  | EmptyString => EmptyString
  | String c rest =>
    match skip with
    | S k => quote_body k rest
    | O =>
      let b := N_of_ascii c in
      let '(r, width) :=
        if (b <? 0x80)%N then (b, 1%nat) else DecodeRuneInString s in
      if (width =? 1)%nat && (r =? RuneError)%N
      then "\x" +:+ hex_digits 2 b +:+ quote_body 0 rest
      else appendEscapedRune r (string_take width s)
             +:+ quote_body (width - 1) rest
    end
  end.

Definition fmt_q (s : string) : string :=
  String "034"%char (quote_body 0 s +:+ String "034"%char EmptyString).

End Quote.

(** ** [strings.Join] and [strings.Contains] *)

Fixpoint Join (elems : list string) (sep : string) : string :=
  match elems with
  | [] => EmptyString
  | [e] => e
  | e :: rest => e +:+ sep +:+ Join rest sep
  end.

Fixpoint HasPrefix (s prefix : string) : bool :=
  match prefix, s with
  | EmptyString, _ => true
  | String p prefix', String c s' => bool_decide (p = c) && HasPrefix s' prefix'
  | String _ _, EmptyString => false
  end.

Fixpoint Contains (s substr : string) : bool :=
  HasPrefix s substr ||
  match s with
  | EmptyString => false
  | String _ s' => Contains s' substr
  end.

End Go.

(* ===================================================================== *)
(** * core/messages.go: messages                                           *)
(* ===================================================================== *)

Module messages.

(** [core.Message] is an interface; a message is what its getters return. *)
Record Message : Type := {
  GetType : string;
  GetContent : string;
  GetName : string;
}.

#[global] Instance Message_eq_dec : EqDecision Message.
Proof. solve_decision. Defined.

(** [AgentActionData]. *)
Record AgentActionData : Type := {
  ad_Tool : string;
  ad_ToolInput : string;
  ad_Log : string;
}.

End messages.

(* ===================================================================== *)
(** * agents/types.go: actions and steps                                   *)
(* ===================================================================== *)

Module agents_types.

Record AgentAction : Type := {
  Tool : string;
  ToolInput : string;
  Log : string;
  MessageLog : list messages.Message;
}.

Record AgentStep : Type := {
  Action : AgentAction;
  Observation : string;
}.

#[global] Instance AgentAction_eq_dec : EqDecision AgentAction.
Proof. solve_decision. Defined.
#[global] Instance AgentStep_eq_dec : EqDecision AgentStep.
Proof. solve_decision. Defined.

End agents_types.

(* ===================================================================== *)
(** * Go values: [any], a universe of types, type assertions               *)
(* ===================================================================== *)

Module Value.
Import Go agents_types.

(** The address of a map in the store. *)
Definition loc : Type := positive.

(** A value of type [map[string]any]: nil or the address of a map. *)
Definition mapref : Type := option loc.

(** An interface value [any]: nil, or a value with its dynamic type.  A map
    in an [any] is the reference Go keeps there. *)
Inductive any : Type :=
| ANil
| AInt (n : Z)
| AString (s : string)
| ABool (b : bool)
| AMap (m : mapref)
| ASteps (l : list AgentStep).

#[global] Instance any_eq_dec : EqDecision any.
Proof. solve_decision. Defined.

(** A [map[string]any] that the code builds or receives and hands on
    without sharing it: nil, or the entries of the map. *)
Definition gomap : Type := option (gmap string any).

(** The types that instantiate the type parameters of the generic code:
    five concrete types and the interface type [any]. *)
Inductive gotype : Type := TInt | TString | TBool | TMapStringAny | TSteps | TAny.

#[global] Instance gotype_eq_dec : EqDecision gotype.
Proof. solve_decision. Defined.

Definition den (t : gotype) : Type :=
  match t with
  | TInt => Z
  | TString => string
  | TBool => bool
  | TMapStringAny => mapref
  | TSteps => list AgentStep
  | TAny => any
  end.

(** [var zero T]. *)
Definition zero (t : gotype) : den t :=
  match t with
  | TInt => 0
  | TString => EmptyString
  | TBool => false
  | TMapStringAny => None
  | TSteps => []
  | TAny => ANil
  end.

(** The conversion of a [T] to [any]: a value of a concrete type is boxed
    with its type; a value of an interface type is itself. *)
Definition toAny (t : gotype) : den t -> any :=
  match t with
  | TInt => AInt
  | TString => AString
  | TBool => ABool
  | TMapStringAny => AMap
  | TSteps => ASteps
  | TAny => fun a => a
  end.

(** The type assertion [v, ok := x.(T)].  For a concrete [T] it holds when
    the dynamic type of [x] is [T]; for the interface type [any] it holds
    when [x] is not nil. *)
Definition fromAny (t : gotype) (x : any) : option (den t) :=
  match t, x with
  | TInt, AInt n => Some n
  | TString, AString s => Some s
  | TBool, ABool b => Some b
  | TMapStringAny, AMap m => Some m
  | TSteps, ASteps l => Some l
  | TAny, ANil => None
  | TAny, a => Some a
  | _, _ => None
  end.

(** [%T] of an interface value. *)
Definition fmt_T (x : any) : string :=
  match x with
  | ANil => "<nil>"
  | AInt _ => "int"
  | AString _ => "string"
  | ABool _ => "bool"
  | AMap _ => "map[string]interface {}"
  | ASteps _ => "[]agents.AgentStep"
  end.

(** The name of a type, as the run time prints it. *)
Definition type_name (t : gotype) : string :=
  match t with
  | TInt => "int"
  | TString => "string"
  | TBool => "bool"
  | TMapStringAny => "map[string]interface {}"
  | TSteps => "[]agents.AgentStep"
  | TAny => "interface {}"
  end.

(** The text of the panic of a failed assertion [x.(A)] on [x] of type
    [any]: for a nil [x], [interface is nil] when [A] is an interface type
    and [interface {} is nil] when it is not; else the dynamic type of
    [x]. *)
Definition assertion_panic (A : gotype) (x : any) : string :=
  match x with
  | ANil =>
    match A with
    | TAny => "interface conversion: interface is nil, not " +:+ type_name A
    | _ => "interface conversion: interface {} is nil, not " +:+ type_name A
    end
  | _ => "interface conversion: interface {} is " +:+ fmt_T x +:+ ", not " +:+ type_name A
  end.

End Value.

(* ===================================================================== *)
(** * Package core: the Runnable contract, the stream iterator             *)
(* ===================================================================== *)

Module core.
Import Go Value.

(** [Runnable[I, O]]: the two methods the composition primitives call.
    [Invoke] may act on the world [W] besides returning. *)
Record Runnable (W : Type) (I O : gotype) : Type := {
  GetName : string;
  Invoke : den I -> W -> (den O * option error) * W;
}.
Arguments GetName {W I O} _.
Arguments Invoke {W I O} _ _ _.

Section Stream.

Variable T : Type.
(** The zero value of [T] ([var zero T]). *)
Variable zero : T.

(** [StreamChunk[T]]. *)
Record StreamChunk : Type := {
  Value : T;
  Err : option error;
}.

(** The receiving end of the channel, seen from the consumer: the chunks
    the producer sends, in order, before it closes the channel.  A
    receive on the closed, drained channel yields the zero chunk and
    [ok = false], and leaves the channel as it is. *)
Definition chan : Type := list StreamChunk.

Definition recv (ch : chan) : StreamChunk * bool * chan :=
  match ch with
  | [] => ({| Value := zero; Err := None |}, false, [])
  | chunk :: rest => (chunk, true, rest)
  end.

(** [StreamIterator[T]]: the channel and the [closed] flag (the mutex only
    guards the flag; [done] is written once by [Close] and never read). *)
Record StreamIterator : Type := {
  ch : chan;
  closed : bool;
}.

Definition NewStreamIterator (c : chan) : StreamIterator :=
  {| ch := c; closed := false |}.

(** [Next]: the triple [(T, bool, error)] and the iterator afterwards. *)
Definition Next (s : StreamIterator) : (T * bool * option error) * StreamIterator :=
  if closed s then ((zero, false, None), s)
  else
    let '(chunk, ok, rest) := recv (ch s) in
    let s' := {| ch := rest; closed := closed s |} in
    if negb ok then ((zero, false, None), s')
    else match Err chunk with
         | Some e => ((zero, false, Some e), s')
         | None => ((Value chunk, true, None), s')
         end.

(** [Close]: sets the flag; the drain goroutine empties the channel. *)
Definition Close (s : StreamIterator) : StreamIterator :=
  if closed s then s else {| ch := []; closed := true |}.

(** The results of [n] successive calls of [Next]. *)
Fixpoint Next_n (n : nat) (s : StreamIterator) : list (T * bool * option error) :=
  match n with
  | O => []
  | S k => let '(r, s') := Next s in r :: Next_n k s'
  end.

Definition value_chunk (v : T) : StreamChunk := {| Value := v; Err := None |}.

End Stream.

Arguments Value {T} _.
Arguments Err {T} _.
Arguments NewStreamIterator {T} c.
Arguments Next {T} zero s.
Arguments Close {T} s.
Arguments Next_n {T} zero n s.
Arguments value_chunk {T} v.
Arguments ch {T} _.
Arguments closed {T} _.

(** ** config.go and the callback interface of messages.go *)

(** [AgentFinishData]. *)
Record AgentFinishData : Type := {
  fd_Output : gomap;
  fd_Log : string;
}.

(** A call of one of the hooks of [CallbackHandler] with its arguments (the
    hooks the agent loop calls). *)
Inductive CallbackEvent : Type :=
| OnChainStart (inputs : gomap) (runID parentRunID : string) (extras : gomap)
| OnChainEnd (outputs : gomap) (runID : string)
| OnChainError (err : error) (runID : string)
| OnToolStart (toolName input runID parentRunID : string)
| OnToolEnd (output runID : string)
| OnToolError (err : error) (runID : string)
| OnAgentAction (action : messages.AgentActionData) (runID : string)
| OnAgentFinish (finish : AgentFinishData) (runID : string).

Section Config.

Context {W : Type}.

(** A handler: its hooks return nothing and act on the world. *)
Definition CallbackHandler : Type := CallbackEvent -> W -> W.

Record RunnableConfig : Type := {
  Tags : list string;
  Metadata : gomap;
  Callbacks : list CallbackHandler;
  RunName : string;
  MaxConcurrency : Z;
  RecursionLimit : Z;
  Configurable : gomap;
  RunID : string;
  Stop : list string;
}.

(** [DefaultConfig]; [uuid] is the string [uuid.New().String()] gives. *)
Definition DefaultConfig (uuid : string) : RunnableConfig :=
  {| Tags := []; Metadata := Some ∅; Callbacks := []; RunName := EmptyString;
     MaxConcurrency := 0; RecursionLimit := 25; Configurable := None;
     RunID := uuid; Stop := [] |}.

Definition Option : Type := RunnableConfig -> RunnableConfig.

Definition ApplyOptions (uuid : string) (opts : list Option) : RunnableConfig :=
  foldl (fun cfg opt => opt cfg) (DefaultConfig uuid) opts.

Definition WithCallbacks (handlers : list CallbackHandler) : Option :=
  fun c =>
    {| Tags := Tags c; Metadata := Metadata c;
       Callbacks := Callbacks c ++ handlers; RunName := RunName c;
       MaxConcurrency := MaxConcurrency c; RecursionLimit := RecursionLimit c;
       Configurable := Configurable c; RunID := RunID c; Stop := Stop c |}.

Definition WithRunID (id : string) : Option :=
  fun c =>
    {| Tags := Tags c; Metadata := Metadata c;
       Callbacks := Callbacks c; RunName := RunName c;
       MaxConcurrency := MaxConcurrency c; RecursionLimit := RecursionLimit c;
       Configurable := Configurable c; RunID := id; Stop := Stop c |}.

End Config.
Arguments CallbackHandler W : clear implicits.
Arguments RunnableConfig W : clear implicits.
Arguments Option W : clear implicits.

End core.

(* ===================================================================== *)
(** * Package runnable                                                     *)
(* ===================================================================== *)

Module runnable.
Import Go Value.

(** ** sequence.go *)
Module Sequence.
Section WithWorld.

Context {W : Type}.

(** [step]: a runnable with its types erased. *)
Record step : Type := {
  name : string;
  invoke : any -> W -> outcome any * W;
}.

Record Sequence (I O : gotype) : Type := {
  steps : list step;
  seq_name : string;       (* the field [name] of [Sequence] *)
}.
Arguments steps {I O} _.
Arguments seq_name {I O} _.

Definition GetName {I O} (s : Sequence I O) : string :=
  if decide (seq_name s = EmptyString) then "RunnableSequence" else seq_name s.

Definition WithName {I O} (s : Sequence I O) (nm : string) : Sequence I O :=
  {| steps := steps s; seq_name := nm |}.

(** [fmt.Errorf("step %d (%s): %w", i, st.name, err)] *)
Definition step_error (i : nat) (nm : string) (err : error) : error :=
  wrapError ("step " +:+ fmt_d (Z.of_nat i) +:+ " (" +:+ nm +:+ "): " +:+ Error err) err.

(** [fmt.Errorf("final step output type mismatch: got %T, want %T", current, zero)] *)
Definition mismatch_error (O : gotype) (current : any) : error :=
  errorString ("final step output type mismatch: got " +:+ fmt_T current
               +:+ ", want " +:+ fmt_T (toAny O (zero O))).

(** The body of [Invoke]: the loop over [s.steps] from index [i] on with
    [current], then the assertion [current.(O)]. *)
Fixpoint run (O : gotype) (i : nat) (sts : list step) (current : any) (w : W)
  : outcome (den O) * W :=
  match sts with
  | [] =>
    match fromAny O current with
    | Some output => (Return output None, w)
    | None => (Return (zero O) (Some (mismatch_error O current)), w)
    end
  | st :: rest =>
    match invoke st current w with
    | (Return result None, w') => run O (S i) rest result w'
    | (Return _ (Some err), w') =>
        (Return (zero O) (Some (step_error i (name st) err)), w')
    | (Panic msg, w') => (Panic msg, w')
    end
  end.

Definition Invoke {I O} (s : Sequence I O) (input : den I) (w : W)
  : outcome (den O) * W :=
  run O 0 (steps s) (toAny I input) w.

(** The closure the builders [Pipe2], [Pipe3], [Pipe4] write for each of
    their arguments: [first.Invoke(ctx, input.(A), opts...)].  The
    single-valued assertion [input.(A)] panics when it does not hold. *)
Definition typed_step {A B : gotype} (r : core.Runnable W A B) : step :=
  {| name := core.GetName r;
     invoke := fun input w =>
       match fromAny A input with
       | None => (Panic (assertion_panic A input), w)
       | Some a =>
         let '((v, err), w') := core.Invoke r a w in
         (Return (toAny B v) err, w')
       end |}.

Definition Pipe2 {A B C} (first : core.Runnable W A B) (second : core.Runnable W B C)
  : Sequence A C :=
  {| steps := [typed_step first; typed_step second]; seq_name := EmptyString |}.

Definition Pipe3 {A B C D} (first : core.Runnable W A B)
    (second : core.Runnable W B C) (third : core.Runnable W C D)
  : Sequence A D :=
  {| steps := [typed_step first; typed_step second; typed_step third];
     seq_name := EmptyString |}.

Definition Pipe4 {A B C D E} (first : core.Runnable W A B)
    (second : core.Runnable W B C) (third : core.Runnable W C D)
    (fourth : core.Runnable W D E)
  : Sequence A E :=
  {| steps := [typed_step first; typed_step second; typed_step third;
               typed_step fourth];
     seq_name := EmptyString |}.

(** The closure of [Pipe]: [r.Invoke(ctx, input, opts...)], no assertion. *)
Definition erased_step (r : core.Runnable W TAny TAny) : step :=
  {| name := core.GetName r;
     invoke := fun input w =>
       let '((v, err), w') := core.Invoke r input w in (Return v err, w') |}.

Definition Pipe (runnables : list (core.Runnable W TAny TAny)) : Sequence TAny TAny :=
  {| steps := List.map erased_step runnables; seq_name := EmptyString |}.

End WithWorld.
Arguments Sequence W I O : clear implicits.
Arguments step W : clear implicits.
Arguments steps {W I O} _.
Arguments seq_name {W I O} _.
End Sequence.

(** ** branch.go *)
Module Branch.
Section WithWorld.

Context {W : Type} {I O : gotype}.

(** [BranchCondition].  The condition is a Go function: it may act on the
    world, which is what makes "it was evaluated" observable. *)
Record BranchCondition : Type := {
  Condition : den I -> W -> bool * W;
  Runnable : core.Runnable W I O;
}.

Record Branch : Type := {
  conditions : list BranchCondition;
  defaultBranch : option (core.Runnable W I O);     (* nil or a runnable *)
  name : string;
}.

Definition NewBranch (conds : list BranchCondition)
    (dflt : option (core.Runnable W I O)) : Branch :=
  {| conditions := conds; defaultBranch := dflt; name := EmptyString |}.

Definition GetName (b : Branch) : string :=
  if decide (name b = EmptyString) then "RunnableBranch" else name b.

Definition no_branch_error : error :=
  errorString "no branch condition matched and no default branch provided".

(** The loop of [Invoke] over the conditions still to be tried, and what
    follows it. *)
Fixpoint dispatch (conds : list BranchCondition)
    (dflt : option (core.Runnable W I O)) (input : den I) (w : W)
  : (den O * option error) * W :=
  match conds with
  | cond :: rest =>
    let '(b, w') := Condition cond input w in
    if b then core.Invoke (Runnable cond) input w'
    else dispatch rest dflt input w'
  | [] =>
    match dflt with
    | Some d => core.Invoke d input w
    | None => ((zero O, Some no_branch_error), w)
    end
  end.

Definition Invoke (b : Branch) (input : den I) (w : W) : (den O * option error) * W :=
  dispatch (conditions b) (defaultBranch b) input w.

End WithWorld.
Arguments BranchCondition W I O : clear implicits.
Arguments Branch W I O : clear implicits.
End Branch.

(** ** parallel.go *)
Module Parallel.

(** An order Go does not specify: the order of a [range] over a map, the
    order in which goroutines get to write their result. *)
Definition shuffle : Type := forall A : Type, list A -> list A.

Definition is_shuffle (s : shuffle) : Prop := forall A (l : list A), s A l ≡ₚ l.

(** [for k, v := range m], in the order [order]. *)
Definition map_range {A} (order : shuffle) (m : gmap string A) : list (string * A) :=
  order _ (map_to_list m).

Section Parallel.

Variable unicode_print : N -> bool.
Context {I : gotype}.

(** A branch: a function of the input.  The branches run concurrently;
    the model is of branches whose result depends on the input alone. *)
Definition branch : Type := den I -> any * option error.

Record Parallel : Type := {
  branches : gmap string branch;
  keys : list string;
  name : string;
}.

(** [NewParallel]: one closure per runnable, the keys in the order of the
    [range] over the map. *)
Definition NewParallel {O : gotype} (order : shuffle)
    (bs : gmap string (core.Runnable unit I O)) : Parallel :=
  {| branches :=
       (fun r => fun input =>
          let '((v, err), _) := core.Invoke r input tt in (toAny O v, err)) <$> bs;
     keys := (map_range order bs).*1;
     name := EmptyString |}.

Definition NewParallelAny (order : shuffle) (bs : gmap string branch) : Parallel :=
  {| branches := bs; keys := (map_range order bs).*1; name := EmptyString |}.

Definition GetName (p : Parallel) : string :=
  if decide (name p = EmptyString) then "RunnableParallel" else name p.

(** [fmt.Errorf("parallel branch %q: %w", k, err)] *)
Definition branch_error (k : string) (err : error) : error :=
  wrapError ("parallel branch " +:+ fmt_q unicode_print k +:+ ": " +:+ Error err) err.

(** What one goroutine does under the mutex, given the two maps so far.
    [p.branches[key]] of a missing key is a nil function, and calling it
    panics. *)
Definition goroutine (p : Parallel) (input : den I)
    (acc : option (gmap string any * gmap string error)) (key : string)
  : option (gmap string any * gmap string error) :=
  match acc with
  | None => None
  | Some (results, errs) =>
    match branches p !! key with
    | None => None
    | Some fn =>
      match fn input with
      | (_, Some err) => Some (results, <[key := err]> errs)
      | (result, None) => Some (<[key := result]> results, errs)
      end
    end
  end.

(** [Invoke]: the goroutines write in the order [sched] of the keys; after
    [wg.Wait()] the first entry of a [range] over [errs], if there is one,
    is returned.  (The semaphore bounds how many branches run at a time;
    it has no part in what is returned.) *)
Definition Invoke (sched order : shuffle) (p : Parallel) (input : den I)
  : outcome (option (gmap string any)) :=
  match foldl (goroutine p input) (Some (∅, ∅)) (sched _ (keys p)) with
  | None => Panic "invalid memory address or nil pointer dereference"
  | Some (results, errs) =>
    if (0 <? size errs)%nat then
      match map_range order errs with
      | (k, err) :: _ => Return None (Some (branch_error k err))
      | [] => Return (Some results) None
      end
    else Return (Some results) None
  end.

End Parallel.
Arguments Parallel I : clear implicits.
Arguments branch I : clear implicits.
End Parallel.

(** ** passthrough.go: Assign *)
Module Assign.

(** The maps in memory. *)
Definition store : Type := gmap loc (gmap string any).

Section Assign.

(** The world of an addition function: the maps, which it reaches
    through the input, and whatever else it acts on. *)
Context {X : Type} {I : gotype}.

Definition world : Type := store * X.

Definition addition : Type := den I -> world -> (any * option error) * world.

Record Assign : Type := {
  additions : gmap string addition;
  keys : list string;
  name : string;
}.


Definition GetName (a : Assign) : string :=
  if decide (name a = EmptyString) then "RunnableAssign" else name a.

(** [if m, ok := any(input).(map[string]any); ok { for k, v := range m ... }]:
    the entries copied into [result].  A nil map has none. *)
Definition input_entries (input : den I) (st : store) : gmap string any :=
  match fromAny TMapStringAny (toAny I input) with
  | Some (Some l) => default ∅ (st !! l)
  | _ => ∅
  end.

(** The second loop of [Invoke], over the keys still to be computed.
    [result] is the map made by [Invoke]; nothing else refers to it
    before [Invoke] returns, so it is carried as its contents. *)
Fixpoint compute (a : Assign) (input : den I) (ks : list string)
    (result : gmap string any) (w : world)
  : outcome (gmap string any) * world :=
  match ks with
  | [] => (Return result None, w)
  | key :: rest =>
    match additions a !! key with
    | None => (Panic "invalid memory address or nil pointer dereference", w)
    | Some fn =>
      let '((val, err), w') := fn input w in
      match err with
      | Some e => (Return result (Some e), w')
      | None => compute a input rest (<[key := val]> result) w'
      end
    end
  end.

(** [Invoke]: on success the map [result] is returned, that is, it is in
    the store at an address that was not in use; on failure nil. *)
Definition Invoke (a : Assign) (input : den I) (w : world) : outcome mapref * world :=
  match compute a input (keys a) (input_entries input w.1) w with
  | (Return result None, (st, x)) =>
    let r := fresh (dom st) in
    (Return (Some r) None, (<[r := result]> st, x))
  | (Return _ (Some e), w') => (Return None (Some e), w')
  | (Panic msg, w') => (Panic msg, w')
  end.

End Assign.
Arguments Assign X I : clear implicits.
Arguments addition X I : clear implicits.
Arguments world X : clear implicits.
End Assign.

End runnable.

(* ===================================================================== *)
(** * Package tools: the Tool interface                                    *)
(* ===================================================================== *)

Module tools.
Import Go.

Record Tool (W : Type) : Type := {
  Name : string;
  Description : string;
  Run : string -> W -> (string * option error) * W;
}.
Arguments Name {W} _.
Arguments Description {W} _.
Arguments Run {W} _ _ _.

End tools.

(* ===================================================================== *)
(** * Package agents: the executor                                         *)
(* ===================================================================== *)

Module agents.
Import Go Value messages agents_types core.

(** [AgentFinish] and [AgentOutput] (types.go). *)
Record AgentFinish : Type := {
  ReturnValues : gomap;
  FinishLog : string;                       (* the field [Log] *)
  FinishMessageLog : list Message;          (* the field [MessageLog] *)
}.

Record AgentOutput : Type := {
  Actions : list AgentAction;
  Finish : option AgentFinish;              (* nil or a finish *)
}.

(** The calls the executor makes to its planner and its tools, in order:
    a record kept beside the run, not a part of the program's state. *)
Inductive call : Type :=
| PlanCall (intermediateSteps : list AgentStep)
| RunCall (tool input : string).

Section Executor.

Variable unicode_print : N -> bool.
Context {W : Type}.

(** [Agent]: [Plan] returns a pointer (nil or an output) and an error.
    [Plan] takes the step log as a value: the executor hands it its own
    slice, and a Planner that writes into the elements of that slice, which
    would change the log the executor keeps, is outside the model. *)
Record Agent : Type := {
  Plan : list AgentStep -> gomap -> W -> (option AgentOutput * option error) * W;
  InputKeys : list string;
  OutputKeys : list string;
}.

(** [ctx]: what [ctx.Err()] returns in a given world; [ctx.Done()] is
    closed exactly when that is not nil. *)
Definition Context : Type := W -> option error.

Record AgentExecutor : Type := {
  agent : Agent;
  tools : list (tools.Tool W);
  toolMap : gmap string (tools.Tool W);
  maxIterations : Z;
  returnIntermediateSteps : bool;
  handleParsingErrors : bool;
  name : string;
  callbacks : list (CallbackHandler W);
}.

Definition ExecutorOption : Type := AgentExecutor -> AgentExecutor.

Definition WithMaxIterations (n : Z) : ExecutorOption :=
  fun e =>
    {| agent := agent e; tools := tools e; toolMap := toolMap e;
       maxIterations := n;
       returnIntermediateSteps := returnIntermediateSteps e;
       handleParsingErrors := handleParsingErrors e;
       name := name e; callbacks := callbacks e |}.

Definition WithReturnIntermediateSteps (v : bool) : ExecutorOption :=
  fun e =>
    {| agent := agent e; tools := tools e; toolMap := toolMap e;
       maxIterations := maxIterations e;
       returnIntermediateSteps := v;
       handleParsingErrors := handleParsingErrors e;
       name := name e; callbacks := callbacks e |}.

Definition WithHandleParsingErrors (v : bool) : ExecutorOption :=
  fun e =>
    {| agent := agent e; tools := tools e; toolMap := toolMap e;
       maxIterations := maxIterations e;
       returnIntermediateSteps := returnIntermediateSteps e;
       handleParsingErrors := v;
       name := name e; callbacks := callbacks e |}.

Definition NewAgentExecutor (a : Agent) (agentTools : list (tools.Tool W))
    (options : list ExecutorOption) : AgentExecutor :=
  foldl (fun exec opt => opt exec)
    {| agent := a; tools := agentTools;
       toolMap := foldl (fun m t => <[tools.Name t := t]> m) ∅ agentTools;
       maxIterations := 15;
       returnIntermediateSteps := false; handleParsingErrors := false;
       name := EmptyString; callbacks := [] |}
    options.

Definition GetName (e : AgentExecutor) : string :=
  if decide (name e = EmptyString) then "AgentExecutor" else name e.

Definition availableToolNames (e : AgentExecutor) : string :=
  Join (List.map tools.Name (tools e)) ", ".

(** [for _, cb := range cfg.Callbacks { cb.Hook(...) }] *)
Definition notify (cfg : RunnableConfig W) (ev : CallbackEvent) (w : W) : W :=
  foldl (fun w cb => cb ev w) w (Callbacks cfg).

(** The observations and errors the loop formats. *)
Definition not_found_observation (e : AgentExecutor) (tool : string) : string :=
  "Tool " +:+ fmt_q unicode_print tool +:+ " not found. Available tools: "
  +:+ availableToolNames e.

Definition tool_error_observation (tool : string) (err : error) : string :=
  "Error executing tool " +:+ tool +:+ ": " +:+ Error err.

Definition parsing_error_step (err : error) : AgentStep :=
  {| Action := {| Tool := "_error"; ToolInput := EmptyString; Log := Error err;
                  MessageLog := [] |};
     Observation := "Error: " +:+ Error err
                    +:+ ". Please try again with valid output." |}.

Definition planning_error (err : error) : error :=
  wrapError ("agent planning error: " +:+ Error err) err.

Definition iteration_limit_error (e : AgentExecutor) : error :=
  errorString ("agent exceeded maximum iterations (" +:+ fmt_d (maxIterations e) +:+ ")").

(** The state of the loop with the record of calls. *)
Definition loop_state : Type := list AgentStep * W * list call.

(** The body of [for _, action := range output.Actions]. *)
Definition execute (e : AgentExecutor) (cfg : RunnableConfig W)
    (st : loop_state) (action : AgentAction) : loop_state :=
  let '(intermediateSteps, w, tr) := st in
  let w := notify cfg
             (OnAgentAction {| ad_Tool := Tool action;
                               ad_ToolInput := ToolInput action;
                               ad_Log := Log action |} (RunID cfg)) w in
  match toolMap e !! Tool action with
  | None =>
    let observation := not_found_observation e (Tool action) in
    (intermediateSteps ++ [{| Action := action; Observation := observation |}],
     w, tr)
  | Some tool =>
    let w := notify cfg
               (OnToolStart (Tool action) (ToolInput action) (RunID cfg)
                  EmptyString) w in
    let '((observation, err), w) := tools.Run tool (ToolInput action) w in
    let tr := tr ++ [RunCall (tools.Name tool) (ToolInput action)] in
    match err with
    | Some err =>
      let observation := tool_error_observation (Tool action) err in
      let w := notify cfg (OnToolError err (RunID cfg)) w in
      (intermediateSteps ++ [{| Action := action; Observation := observation |}],
       w, tr)
    | None =>
      let w := notify cfg (OnToolEnd observation (RunID cfg)) w in
      (intermediateSteps ++ [{| Action := action; Observation := observation |}],
       w, tr)
    end
  end.

(** What a run of [Invoke] comes to. *)
Record run : Type := {
  out : outcome gomap;
  world : W;
  calls : list call;
}.

(** The branch [if output.Finish != nil]. *)
Definition finish (e : AgentExecutor) (cfg : RunnableConfig W)
    (fin : AgentFinish) (st : loop_state) : run :=
  let '(intermediateSteps, w, tr) := st in
  let assigned : outcome gomap :=
    if returnIntermediateSteps e then
      match ReturnValues fin with
      | None => Panic "assignment to entry in nil map"
      | Some m => Return (Some (<["intermediate_steps" := ASteps intermediateSteps]> m)) None
      end
    else Return (ReturnValues fin) None in
  match assigned with
  | Panic msg => {| out := Panic msg; world := w; calls := tr |}
  | Return result _ =>
    let w :=
      foldl (fun w cb =>
               cb (OnChainEnd result (RunID cfg))
                  (cb (OnAgentFinish {| fd_Output := result; fd_Log := FinishLog fin |}
                         (RunID cfg)) w))
            w (Callbacks cfg) in
    {| out := Return result None; world := w; calls := tr |}
  end.

(** The loop [for iterations < e.maxIterations].  Every pass that does not
    return adds one to [iterations], so the recursion is on the number of
    passes left, [maxIterations - iterations]. *)
Fixpoint loop (e : AgentExecutor) (ctx : Context) (cfg : RunnableConfig W)
    (input : gomap) (left : nat) (st : loop_state) : run :=
  let '(intermediateSteps, w, tr) := st in
  match left with
  | O =>
    let err := iteration_limit_error e in
    let w := notify cfg (OnChainError err (RunID cfg)) w in
    {| out := Return None (Some err); world := w; calls := tr |}
  | S left' =>
    match ctx w with
    | Some cerr => {| out := Return None (Some cerr); world := w; calls := tr |}
    | None =>
      let '((output, err), w) := Plan (agent e) intermediateSteps input w in
      let tr := tr ++ [PlanCall intermediateSteps] in
      match err with
      | Some err =>
        if handleParsingErrors e then
          loop e ctx cfg input left'
               (intermediateSteps ++ [parsing_error_step err], w, tr)
        else
          let w := notify cfg (OnChainError err (RunID cfg)) w in
          {| out := Return None (Some (planning_error err)); world := w; calls := tr |}
      | None =>
        match output with
        | None =>
          {| out := Panic "invalid memory address or nil pointer dereference";
             world := w; calls := tr |}
        | Some output =>
          match Finish output with
          | Some fin => finish e cfg fin (intermediateSteps, w, tr)
          | None =>
            loop e ctx cfg input left'
                 (foldl (execute e cfg) (intermediateSteps, w, tr) (Actions output))
          end
        end
      end
    end
  end.

(** [Invoke], with [cfg] the configuration [core.ApplyOptions(opts...)]. *)
Definition Invoke_run (e : AgentExecutor) (ctx : Context) (input : gomap)
    (cfg : RunnableConfig W) (w : W) : run :=
  let w := notify cfg
             (OnChainStart input (RunID cfg) EmptyString
                (Some {[ "name" := AString (GetName e) ]})) w in
  loop e ctx cfg input (Z.to_nat (maxIterations e)) ([], w, []).

Definition Invoke (e : AgentExecutor) (ctx : Context) (input : gomap)
    (cfg : RunnableConfig W) (w : W) : outcome gomap * W :=
  let r := Invoke_run e ctx input cfg w in (out r, world r).

End Executor.
Arguments Agent W : clear implicits.
Arguments AgentExecutor W : clear implicits.
Arguments Context W : clear implicits.
Arguments run W : clear implicits.
Arguments loop_state W : clear implicits.

End agents.

(* ===================================================================== *)
(** * More of package core: Collect, the options                           *)
(* ===================================================================== *)

Module collect.
Import Go core.

Section Collect.

Context {T : Type}.
Variable zero : T.

(** The loop of [Collect], for at most [fuel] calls of [Next]: [None] when
    the calls allowed are used up before the loop ends. *)
Fixpoint Collect_loop (fuel : nat) (s : StreamIterator T) (results : list T)
  : option ((list T * option error) * StreamIterator T) :=
  match fuel with
  | O => None
  | S fuel' =>
    let '((val, ok, err), s') := Next zero s in
    match err with
    | Some e => Some ((results, Some e), s')
    | None =>
      if negb ok then Some ((results, None), s')
      else Collect_loop fuel' s' (results ++ [val])
    end
  end.

Definition Collect (fuel : nat) (s : StreamIterator T)
  : option ((list T * option error) * StreamIterator T) :=
  Collect_loop fuel s [].

End Collect.

End collect.

Module options.
Import Go Value core.

Section Options.

Context {W : Type}.

Definition WithTags (tags : list string) : Option W :=
  fun c =>
    {| Tags := Tags c ++ tags; Metadata := Metadata c;
       Callbacks := Callbacks c; RunName := RunName c;
       MaxConcurrency := MaxConcurrency c; RecursionLimit := RecursionLimit c;
       Configurable := Configurable c; RunID := RunID c; Stop := Stop c |}.

(** [if c == nil { c = make(...) }; for k, v := range m { c[k] = v }], with
    the range in the order [order]; a nil [m] has no entries. *)
Definition merge_into (order : runnable.Parallel.shuffle) (old : gomap) (m : gomap)
  : gomap :=
  Some (foldl (fun acc kv => <[kv.1 := kv.2]> acc) (default ∅ old)
              (runnable.Parallel.map_range order (default ∅ m))).

Definition WithMetadata (order : runnable.Parallel.shuffle) (metadata : gomap) : Option W :=
  fun c =>
    {| Tags := Tags c; Metadata := merge_into order (Metadata c) metadata;
       Callbacks := Callbacks c; RunName := RunName c;
       MaxConcurrency := MaxConcurrency c; RecursionLimit := RecursionLimit c;
       Configurable := Configurable c; RunID := RunID c; Stop := Stop c |}.

Definition WithRunName (nm : string) : Option W :=
  fun c =>
    {| Tags := Tags c; Metadata := Metadata c;
       Callbacks := Callbacks c; RunName := nm;
       MaxConcurrency := MaxConcurrency c; RecursionLimit := RecursionLimit c;
       Configurable := Configurable c; RunID := RunID c; Stop := Stop c |}.

Definition WithMaxConcurrency (n : Z) : Option W :=
  fun c =>
    {| Tags := Tags c; Metadata := Metadata c;
       Callbacks := Callbacks c; RunName := RunName c;
       MaxConcurrency := n; RecursionLimit := RecursionLimit c;
       Configurable := Configurable c; RunID := RunID c; Stop := Stop c |}.

Definition WithRecursionLimit (n : Z) : Option W :=
  fun c =>
    {| Tags := Tags c; Metadata := Metadata c;
       Callbacks := Callbacks c; RunName := RunName c;
       MaxConcurrency := MaxConcurrency c; RecursionLimit := n;
       Configurable := Configurable c; RunID := RunID c; Stop := Stop c |}.

Definition WithStop (stop : list string) : Option W :=
  fun c =>
    {| Tags := Tags c; Metadata := Metadata c;
       Callbacks := Callbacks c; RunName := RunName c;
       MaxConcurrency := MaxConcurrency c; RecursionLimit := RecursionLimit c;
       Configurable := Configurable c; RunID := RunID c; Stop := stop |}.

Definition WithConfigurable (order : runnable.Parallel.shuffle) (values : gomap) : Option W :=
  fun c =>
    {| Tags := Tags c; Metadata := Metadata c;
       Callbacks := Callbacks c; RunName := RunName c;
       MaxConcurrency := MaxConcurrency c; RecursionLimit := RecursionLimit c;
       Configurable := merge_into order (Configurable c) values;
       RunID := RunID c; Stop := Stop c |}.

(** [MergeOptions]: [base] is a pointer, nil or a config. *)
Definition MergeOptions (uuid : string) (base : option (RunnableConfig W))
    (opts : list (Option W)) : RunnableConfig W :=
  foldl (fun cfg opt => opt cfg)
        (match base with None => DefaultConfig uuid | Some b => b end) opts.

End Options.

End options.

(* ===================================================================== *)
(** * More of package runnable: Stream and Batch                           *)
(* ===================================================================== *)

Module batch.
Import Go Value core.

(** [fmt.Errorf("batch item %d: %w", i, err)] *)
Definition batch_error (i : nat) (err : error) : error :=
  wrapError ("batch item " +:+ fmt_d (Z.of_nat i) +:+ ": " +:+ Error err) err.

(** The loop the [Batch] methods are written with:
    [for i, input := range inputs { result, err := x.Invoke(...);
     if err != nil { return nil, wrap(i, err) }; results[i] = result }],
    from index [i] on, over the slice [results] made beforehand. *)
Fixpoint Batch_loop {W A B : Type} (invoke : A -> W -> outcome B * W)
    (wrap : nat -> error -> error) (i : nat) (inputs : list A) (results : list B) (w : W)
  : outcome (option (list B)) * W :=
  match inputs with
  | [] => (Return (Some results) None, w)
  | input :: rest =>
    match invoke input w with
    | (Return result None, w') =>
        Batch_loop invoke wrap (S i) rest (<[i := result]> results) w'
    | (Return _ (Some err), w') => (Return None (Some (wrap i err)), w')
    | (Panic msg, w') => (Panic msg, w')
    end
  end.

End batch.

Module sequence_more.
Import Go Value core runnable batch.

Section WithWorld.

Context {W : Type} {I O : gotype}.

(** [Sequence.Stream]: [Invoke], then a channel of capacity 1 with the
    result in it, closed. *)
Definition Stream (s : Sequence.Sequence W I O) (input : den I) (w : W)
  : outcome (option (StreamIterator (den O))) * W :=
  match Sequence.Invoke s input w with
  | (Return result None, w') =>
      (Return (Some (NewStreamIterator [value_chunk result])) None, w')
  | (Return _ (Some err), w') => (Return None (Some err), w')
  | (Panic msg, w') => (Panic msg, w')
  end.

(** [Sequence.Batch]: [results := make([]O, len(inputs))], then the loop. *)
Definition Batch (s : Sequence.Sequence W I O) (inputs : list (den I)) (w : W)
  : outcome (option (list (den O))) * W :=
  Batch_loop (Sequence.Invoke s) batch_error 0 inputs
             (replicate (length inputs) (zero O)) w.

End WithWorld.

End sequence_more.

Module branch_more.
Import Go Value core runnable batch.

Section WithWorld.

Context {W : Type} {I O : gotype}.

(** [Branch.Batch]; [Branch.Invoke] does not panic. *)
Definition Batch (b : Branch.Branch W I O) (inputs : list (den I)) (w : W)
  : outcome (option (list (den O))) * W :=
  Batch_loop (fun input w => let '((v, err), w') := Branch.Invoke b input w in
                             (Return v err, w'))
             batch_error 0 inputs (replicate (length inputs) (zero O)) w.

End WithWorld.

End branch_more.

(* ===================================================================== *)
(** * More of package tools: running the tool calls of a message           *)
(* ===================================================================== *)

Module toolcalls.
Import Go.

(** [core.ToolCall]; [Args] is the raw JSON text. *)
Record ToolCall : Type := {
  ID : string;
  Name : string;
  Args : string;
  Type_ : string;                 (* the field [Type] *)
}.

(** [core.ToolMessage], as [core.NewToolMessage(content, toolCallID)] makes it. *)
Record ToolMessage : Type := {
  Content : string;
  ToolCallID : string;
}.

Definition NewToolMessage (content toolCallID : string) : ToolMessage :=
  {| Content := content; ToolCallID := toolCallID |}.

Section WithWorld.

Variable unicode_print : N -> bool.
Context {W : Type}.

(** [fmt.Errorf("tool %q not found", toolCall.Name)] *)
Definition not_found_error (nm : string) : error :=
  errorString ("tool " +:+ fmt_q unicode_print nm +:+ " not found").

(** [ExecuteToolCall]: the loop over [availableTools]. *)
Fixpoint ExecuteToolCall (toolCall : ToolCall) (availableTools : list (tools.Tool W)) (w : W)
  : (string * option error) * W :=
  match availableTools with
  | [] => ((EmptyString, Some (not_found_error (Name toolCall))), w)
  | t :: rest =>
    if decide (tools.Name t = Name toolCall)
    then tools.Run t (Args toolCall) w
    else ExecuteToolCall toolCall rest w
  end.

(** The loop of [ExecuteToolCalls] over the calls still to run. *)
Fixpoint ExecuteToolCalls_loop (toolCalls : list ToolCall) (availableTools : list (tools.Tool W))
    (results : list ToolMessage) (w : W) : list ToolMessage * W :=
  match toolCalls with
  | [] => (results, w)
  | tc :: rest =>
    let '((output, err), w') := ExecuteToolCall tc availableTools w in
    let output := match err with
                  | Some e => "Error: " +:+ Error e
                  | None => output
                  end in
    ExecuteToolCalls_loop rest availableTools (results ++ [NewToolMessage output (ID tc)]) w'
  end.

Definition ExecuteToolCalls (toolCalls : list ToolCall)
    (availableTools : list (tools.Tool W)) (w : W)
  : (list ToolMessage * option error) * W :=
  let '(results, w') := ExecuteToolCalls_loop toolCalls availableTools [] w in
  ((results, None), w').

End WithWorld.

End toolcalls.

(* ===================================================================== *)
(** * Package callbacks: the manager                                       *)
(* ===================================================================== *)

Module callbacks.
Import Go Value core.

Section WithWorld.

Context {W : Type}.

Record Manager : Type := {
  handlers : list (CallbackHandler W);
  inheritableHandlers : list (CallbackHandler W);
  parentRunID : string;
  tags : list string;
  metadata : gomap;
}.

Definition NewManager (hs : list (CallbackHandler W)) : Manager :=
  {| handlers := hs; inheritableHandlers := []; parentRunID := EmptyString;
     tags := []; metadata := None |}.

Definition WithInheritableHandlers (m : Manager) (hs : list (CallbackHandler W)) : Manager :=
  {| handlers := handlers m; inheritableHandlers := inheritableHandlers m ++ hs;
     parentRunID := parentRunID m; tags := tags m; metadata := metadata m |}.

Definition WithParentRunID (m : Manager) (id : string) : Manager :=
  {| handlers := handlers m; inheritableHandlers := inheritableHandlers m;
     parentRunID := id; tags := tags m; metadata := metadata m |}.

Definition WithTags (m : Manager) (ts : list string) : Manager :=
  {| handlers := handlers m; inheritableHandlers := inheritableHandlers m;
     parentRunID := parentRunID m; tags := tags m ++ ts; metadata := metadata m |}.

Definition WithMetadata (m : Manager) (md : gomap) : Manager :=
  {| handlers := handlers m; inheritableHandlers := inheritableHandlers m;
     parentRunID := parentRunID m; tags := tags m; metadata := md |}.

Definition GetChild (m : Manager) (tag : string) : Manager :=
  {| handlers := [] ++ inheritableHandlers m;
     inheritableHandlers := [];
     parentRunID := EmptyString;
     tags := if decide (tag = EmptyString) then [] else [] ++ [tag];
     metadata := None |}.

Definition AllHandlers (m : Manager) : list (CallbackHandler W) := handlers m.

(** The hooks of the manager, each
    [for _, h := range m.handlers { h.Hook(...) }]: the manager as a
    handler. *)
Definition dispatch (m : Manager) : CallbackHandler W :=
  fun ev w => foldl (fun w h => h ev w) w (handlers m).

End WithWorld.
Arguments Manager W : clear implicits.

End callbacks.

(* ===================================================================== *)
(** * The vocabulary of the statements                                     *)
(* ===================================================================== *)

(** Definitions the properties are stated with: what it is for a prefix of
    steps to succeed or for a run of conditions to reject an input, and
    observers that count calls. *)
Module Statements.
Import Go Value messages agents_types core runnable.

(** ** Sequence *)

(** The steps [sts], run in order from [current] in [w], all return a nil
    error: the value and the world they leave. *)
Fixpoint succeed {W : Type} (sts : list (Sequence.step W)) (current : any) (w : W)
  : option (any * W) :=
  match sts with
  | [] => Some (current, w)
  | st :: rest =>
    match Sequence.invoke st current w with
    | (Return result None, w') => succeed rest result w'
    | _ => None
    end
  end.

(** A step that also counts, in the second part of the world, how often
    a step was invoked. *)
Definition counting {W : Type} (st : Sequence.step W) : Sequence.step (W * nat) :=
  {| Sequence.name := Sequence.name st;
     Sequence.invoke := fun x wn =>
       let '(r, w') := Sequence.invoke st x wn.1 in (r, (w', S wn.2)) |}.

(** The units [rs] applied one after the other, each to the output of the
    one before, with nothing in between: the value and the world they
    leave when all return a nil error. *)
Fixpoint chain {W : Type} (rs : list (Runnable W TAny TAny)) (current : any) (w : W)
  : option (any * W) :=
  match rs with
  | [] => Some (current, w)
  | r :: rest =>
    match Invoke r current w with
    | ((v, None), w') => chain rest v w'
    | _ => None
    end
  end.

(** The sentence "a fully dynamic variadic builder performs a runtime type
    check at each boundary and fails on a mismatch", in its weakest reading:
    whatever input types the steps expect, if the value that reaches the
    step at index [k + 1] is not of the type expected there, the invocation
    does not succeed. *)
Definition Pipe_checks_boundaries (W : Type) : Prop :=
  forall (rs : list (Runnable W TAny TAny)) (expected : nat -> gotype)
         (input : any) (w : W) (k : nat) (v : any) (w1 : W),
    (S k < length rs)%nat ->
    chain (take (S k) rs) input w = Some (v, w1) ->
    fromAny (expected (S k)) v = None ->
    exists e w', Sequence.Invoke (Sequence.Pipe rs) input w = (Return ANil (Some e), w').

(** ** Branch *)

(** The conditions [conds], evaluated in order on [input] from [w], all
    return false: the world they leave. *)
Fixpoint rejects {W : Type} {I O : gotype} (conds : list (Branch.BranchCondition W I O))
    (input : den I) (w : W) : option W :=
  match conds with
  | [] => Some w
  | cond :: rest =>
    let '(b, w') := Branch.Condition cond input w in
    if b then None else rejects rest input w'
  end.

(** A branch whose conditions also count, in the second part of the world,
    how often a condition was evaluated; its units leave the count alone. *)
Definition lift_unit {W : Type} {I O : gotype} (r : Runnable W I O) : Runnable (W * nat) I O :=
  {| GetName := GetName r;
     Invoke := fun x wn => let '(res, w') := Invoke r x wn.1 in (res, (w', wn.2)) |}.

Definition counting_condition {W : Type} {I O : gotype} (c : Branch.BranchCondition W I O)
  : Branch.BranchCondition (W * nat) I O :=
  {| Branch.Condition := fun x wn =>
       let '(b, w') := Branch.Condition c x wn.1 in (b, (w', S wn.2));
     Branch.Runnable := lift_unit (Branch.Runnable c) |}.

Definition counting_branch {W : Type} {I O : gotype} (b : Branch.Branch W I O)
  : Branch.Branch (W * nat) I O :=
  {| Branch.conditions := List.map counting_condition (Branch.conditions b);
     Branch.defaultBranch := lift_unit <$> Branch.defaultBranch b;
     Branch.name := Branch.name b |}.

(** ** Parallel *)

(** The invariant of the constructors: [keys] lists the names of
    [branches], each once. *)
Definition built {I : gotype} (p : Parallel.Parallel I) : Prop :=
  Parallel.keys p ≡ₚ (map_to_list (Parallel.branches p)).*1.

(** The result, and the error, of the entry [k] on [input]. *)
Definition result_of {I : gotype} (p : Parallel.Parallel I) (input : den I) (k : string)
  : option any :=
  match Parallel.branches p !! k with
  | Some fn => match fn input with
               | (v, None) => Some v
               | (_, Some _) => None
               end
  | None => None
  end.

Definition error_of {I : gotype} (p : Parallel.Parallel I) (input : den I) (k : string)
  : option error :=
  match Parallel.branches p !! k with
  | Some fn => (fn input).2
  | None => None
  end.

(** ** Assign *)



(** ** The agent loop *)

(** A string [%q] prints as it is: printable ASCII characters other than
    the double quote and the backslash. *)
Definition plain_byte (c : ascii) : bool :=
  let b := N_of_ascii c in
  ((0x20 <=? b) && (b <=? 0x7E) && negb (b =? 34) && negb (b =? 92))%N.

Fixpoint plain (s : string) : bool :=
  match s with
  | EmptyString => true
  | String c rest => plain_byte c && plain rest
  end.

(** The number of Planner calls, and of tool runs, in a record of calls. *)
Fixpoint plan_calls (tr : list agents.call) : nat :=
  match tr with
  | [] => 0%nat
  | agents.PlanCall _ :: rest => S (plan_calls rest)
  | agents.RunCall _ _ :: rest => plan_calls rest
  end.

Fixpoint run_calls (tr : list agents.call) : nat :=
  match tr with
  | [] => 0%nat
  | agents.PlanCall _ :: rest => run_calls rest
  | agents.RunCall _ _ :: rest => S (run_calls rest)
  end.

(** A Planner that never returns a Finish: every call of [Plan] returns an
    output without one, or fails while the executor is set to take a
    failure of the Planner as a step. *)
Definition never_finishes {W : Type} (e : agents.AgentExecutor W) (input : gomap) : Prop :=
  forall intermediateSteps w,
    match agents.Plan (agents.agent e) intermediateSteps input w with
    | ((Some output, None), _) => agents.Finish output = None
    | ((None, None), _) => False
    | ((_, Some _), _) => agents.handleParsingErrors e = true
    end.

(** An executor with a Planner that counts its calls: the world gets a
    counter, [Plan] adds one to it at every call, and nothing else, tool,
    hook or context, touches or reads it. *)
Definition counting_planner {W : Type} (a : agents.Agent W) : agents.Agent (W * nat) :=
  {| agents.Plan := fun intermediateSteps inputs wn =>
       let '(r, w') := agents.Plan a intermediateSteps inputs wn.1 in (r, (w', S wn.2));
     agents.InputKeys := agents.InputKeys a;
     agents.OutputKeys := agents.OutputKeys a |}.

Definition beside_counter_tool {W : Type} (t : tools.Tool W) : tools.Tool (W * nat) :=
  {| tools.Name := tools.Name t;
     tools.Description := tools.Description t;
     tools.Run := fun input wn =>
       let '(r, w') := tools.Run t input wn.1 in (r, (w', wn.2)) |}.

Definition beside_counter_handler {W : Type} (h : CallbackHandler W)
  : CallbackHandler (W * nat) :=
  fun ev wn => (h ev wn.1, wn.2).

Definition beside_counter_config {W : Type} (cfg : RunnableConfig W)
  : RunnableConfig (W * nat) :=
  {| Tags := Tags cfg; Metadata := Metadata cfg;
     Callbacks := List.map beside_counter_handler (Callbacks cfg);
     RunName := RunName cfg; MaxConcurrency := MaxConcurrency cfg;
     RecursionLimit := RecursionLimit cfg; Configurable := Configurable cfg;
     RunID := RunID cfg; Stop := Stop cfg |}.

Definition beside_counter_context {W : Type} (ctx : agents.Context W)
  : agents.Context (W * nat) :=
  fun wn => ctx wn.1.

Definition counting_executor {W : Type} (e : agents.AgentExecutor W)
  : agents.AgentExecutor (W * nat) :=
  {| agents.agent := counting_planner (agents.agent e);
     agents.tools := List.map beside_counter_tool (agents.tools e);
     agents.toolMap := beside_counter_tool <$> agents.toolMap e;
     agents.maxIterations := agents.maxIterations e;
     agents.returnIntermediateSteps := agents.returnIntermediateSteps e;
     agents.handleParsingErrors := agents.handleParsingErrors e;
     agents.name := agents.name e;
     agents.callbacks := List.map beside_counter_handler (agents.callbacks e) |}.

(** A Planner whose [Plan] never returns a Finish: every call returns an
    output without one, or an error. *)
Definition without_Finish {W : Type} (a : agents.Agent W) (input : gomap) : Prop :=
  forall intermediateSteps w,
    match agents.Plan a intermediateSteps input w with
    | ((Some output, None), _) => agents.Finish output = None
    | ((None, None), _) => False
    | ((_, Some _), _) => True
    end.

(** The sentence "for every Planner whose Plan never returns a Finish and
    an AgentExecutor configured with max iterations M, Invoke terminates
    after exactly M Planner calls and returns a nil result together with an
    iteration-limit error", for an executor as [NewAgentExecutor] makes it, a
    context that is never cancelled, and the calls counted by the
    Planner. *)
Definition Planner_without_Finish_is_called_M_times : Prop :=
  forall (unicode_print : N -> bool) (a : agents.Agent unit)
         (agentTools : list (tools.Tool unit)) (M : nat)
         (input : gomap) (cfg : RunnableConfig unit),
    without_Finish a input ->
    exists w,
      agents.Invoke unicode_print
        (counting_executor
           (agents.NewAgentExecutor a agentTools [agents.WithMaxIterations (Z.of_nat M)]))
        (beside_counter_context (fun _ => None)) input (beside_counter_config cfg) (tt, 0%nat)
      = (Return None
           (Some (agents.iteration_limit_error
                    (agents.NewAgentExecutor a agentTools
                       [agents.WithMaxIterations (Z.of_nat M)]))),
         (w, M)).

(** The sentence "an action naming a tool absent from the registered tool
    set appends to the step log an observation string containing the
    requested name". *)
Definition observation_contains_requested_name : Prop :=
  forall (unicode_print : N -> bool) (e : agents.AgentExecutor unit)
         (cfg : RunnableConfig unit) (action : AgentAction)
         (intermediateSteps : list AgentStep) (tr : list agents.call),
    agents.toolMap e !! Tool action = None ->
    exists observation,
      (agents.execute unicode_print e cfg (intermediateSteps, tt, tr) action).1.1
      = intermediateSteps ++ [{| Action := action; Observation := observation |}]
      /\ Contains observation (Tool action) = true.

End Statements.

(* ===================================================================== *)
(** * More vocabulary                                                      *)
(* ===================================================================== *)

Module Statements2.
Import Go Value messages agents_types core runnable Statements.

(** ** Streams *)

(** The values of the chunks before the first error chunk, the error of
    that chunk, and the chunks after it. *)
Fixpoint leading_values {T : Type} (c : chan T) : list T :=
  match c with
  | [] => []
  | chunk :: rest =>
    match Err chunk with
    | Some _ => []
    | None => Value chunk :: leading_values rest
    end
  end.

Fixpoint first_error {T : Type} (c : chan T) : option error :=
  match c with
  | [] => None
  | chunk :: rest =>
    match Err chunk with
    | Some e => Some e
    | None => first_error rest
    end
  end.

Fixpoint after_error {T : Type} (c : chan T) : chan T :=
  match c with
  | [] => []
  | chunk :: rest =>
    match Err chunk with
    | Some _ => rest
    | None => after_error rest
    end
  end.

(** ** Options *)

(** The options of package core, by what builds them. *)
Inductive setting (W : Type) : Type :=
| Tags_ (tags : list string)
| Metadata_ (metadata : gomap)
| Callbacks_ (handlers : list (CallbackHandler W))
| RunName_ (nm : string)
| MaxConcurrency_ (n : Z)
| RecursionLimit_ (n : Z)
| RunID_ (id : string)
| Stop_ (stop : list string)
| Configurable_ (values : gomap).
Arguments Tags_ {W} _.
Arguments Metadata_ {W} _.
Arguments Callbacks_ {W} _.
Arguments RunName_ {W} _.
Arguments MaxConcurrency_ {W} _.
Arguments RecursionLimit_ {W} _.
Arguments RunID_ {W} _.
Arguments Stop_ {W} _.
Arguments Configurable_ {W} _.

Definition option_of {W : Type} (order : Parallel.shuffle) (s : setting W) : Option W :=
  match s with
  | Tags_ tags => options.WithTags tags
  | Metadata_ metadata => options.WithMetadata order metadata
  | Callbacks_ handlers => WithCallbacks handlers
  | RunName_ nm => options.WithRunName nm
  | MaxConcurrency_ n => options.WithMaxConcurrency n
  | RecursionLimit_ n => options.WithRecursionLimit n
  | RunID_ id => WithRunID id
  | Stop_ stop => options.WithStop stop
  | Configurable_ values => options.WithConfigurable order values
  end.

(** What the settings of a list give for each field. *)
Definition tags_of {W : Type} (s : setting W) : option (list string) :=
  match s with Tags_ tags => Some tags | _ => None end.
Definition handlers_of {W : Type} (s : setting W) : option (list (CallbackHandler W)) :=
  match s with Callbacks_ handlers => Some handlers | _ => None end.
Definition run_name_of {W : Type} (s : setting W) : option string :=
  match s with RunName_ nm => Some nm | _ => None end.
Definition max_concurrency_of {W : Type} (s : setting W) : option Z :=
  match s with MaxConcurrency_ n => Some n | _ => None end.
Definition recursion_limit_of {W : Type} (s : setting W) : option Z :=
  match s with RecursionLimit_ n => Some n | _ => None end.
Definition run_id_of {W : Type} (s : setting W) : option string :=
  match s with RunID_ id => Some id | _ => None end.
Definition stop_of {W : Type} (s : setting W) : option (list string) :=
  match s with Stop_ stop => Some stop | _ => None end.

(** ** The executor *)

(** The options of the executor, by what builds them. *)
Inductive executor_setting : Type :=
| MaxIterations_ (n : Z)
| ReturnIntermediateSteps_ (v : bool)
| HandleParsingErrors_ (v : bool).

Definition executor_option {W : Type} (s : executor_setting) : agents.ExecutorOption (W := W) :=
  match s with
  | MaxIterations_ n => agents.WithMaxIterations n
  | ReturnIntermediateSteps_ v => agents.WithReturnIntermediateSteps v
  | HandleParsingErrors_ v => agents.WithHandleParsingErrors v
  end.


(** The names of the tools run, in the order of the runs. *)
Fixpoint tools_run (tr : list agents.call) : list string :=
  match tr with
  | [] => []
  | agents.PlanCall _ :: rest => tools_run rest
  | agents.RunCall tool _ :: rest => tool :: tools_run rest
  end.


End Statements2.

(* ===================================================================== *)
(** * Sample units                                                         *)
(* ===================================================================== *)

Module Samples.
Import Go Value messages agents_types core runnable.

(** [mockRunnable] of the package's tests: a unit that applies [fn]. *)
Definition mockRunnable {W : Type} {I O : gotype} (fn : den I -> den O * option error)
    (nm : string) : Runnable W I O :=
  {| GetName := nm; Invoke := fun input w => (fn input, w) |}.

(** A pure unit: it returns [f input] and a nil error. *)
Definition pure_unit {W : Type} {I O : gotype} (f : den I -> den O) (nm : string)
  : Runnable W I O :=
  mockRunnable (fun input => (f input, None)) nm.

(** The units of [TestPipe3]. *)
Definition add1 : Runnable unit TInt TInt := pure_unit (I := TInt) (O := TInt) (fun i => i + 1) "add1".
Definition double : Runnable unit TInt TInt := pure_unit (I := TInt) (O := TInt) (fun i => i * 2) "double".
Definition toString : Runnable unit TInt TString := pure_unit (I := TInt) (O := TString) (fun i => fmt_d i) "toString".

(** A pure unit with output type [any] that returns nil. *)
Definition discard : Runnable unit TInt TAny := pure_unit (I := TInt) (O := TAny) (fun _ => ANil) "discard".

(** Units for the dynamic builder: one that returns a string, and one
    written for integers (it doubles them) that hands anything else on. *)
Definition emit_text : Runnable unit TAny TAny :=
  pure_unit (I := TAny) (O := TAny) (fun _ => AString "text") "emit_text".

Definition double_any : Runnable unit TAny TAny :=
  pure_unit (I := TAny) (O := TAny)
    (fun x => match x with AInt n => AInt (n * 2) | other => other end) "double_any".

Definition failing : Runnable unit TAny TAny :=
  mockRunnable (I := TAny) (O := TAny) (fun _ => (ANil, Some (errorString "boom"))) "failing".

(** Steps that log their name in the world. *)
Definition logging_step (nm : string) (result : any) (err : option error)
  : Sequence.step (list string) :=
  {| Sequence.name := nm;
     Sequence.invoke := fun _ w => (Return result err, w ++ [nm]) |}.

Definition three_steps : Sequence.Sequence (list string) TInt TInt :=
  {| Sequence.steps := [logging_step "first" (AInt 1) None;
                        logging_step "second" ANil (Some (errorString "boom"));
                        logging_step "third" (AInt 3) None];
     Sequence.seq_name := EmptyString |}.

(** A branch in the manner of [TestBranch], with a second condition that
    holds whenever the first does; the conditions log their evaluation. *)
Definition logged_condition (nm : string) (p : Z -> bool) : Z -> list string -> bool * list string :=
  fun i w => (p i, w ++ [nm]).

Definition positive : Runnable (list string) TInt TString :=
  mockRunnable (I := TInt) (O := TString) (fun _ => ("positive", None)) "positive".
Definition non_negative : Runnable (list string) TInt TString :=
  mockRunnable (I := TInt) (O := TString) (fun _ => ("non-negative", None)) "non_negative".

Definition logged (nm : string) (p : Z -> bool) (r : Runnable (list string) TInt TString)
  : Branch.BranchCondition (list string) TInt TString :=
  @Branch.Build_BranchCondition (list string) TInt TString (logged_condition nm p) r.

Definition overlapping_branch : Branch.Branch (list string) TInt TString :=
  Branch.NewBranch
    [ logged "is it above 100" (fun i => 100 <? i) positive;
      logged "is it above 0" (fun i => 0 <? i) positive;
      logged "is it 0 or more" (fun i => 0 <=? i) non_negative ]
    None.

(** The orders of a particular run: maps are ranged over, and goroutines
    finish, in the order of the list at hand, or in the reverse of it. *)
Definition in_order : Parallel.shuffle := fun _ l => l.
Definition reversed : Parallel.shuffle := fun _ l => rev l.

(** Two entries over an integer input; and the same with a failing third. *)
Definition two_entries : gmap string (Parallel.branch TInt) :=
  {[ "double" := (fun i : Z => (AInt (i * 2), None));
     "text" := (fun i : Z => (AString (fmt_d i), None)) ]}.

Definition one_failing : gmap string (Parallel.branch TInt) :=
  <[ "broken" := (fun i : Z => (ANil, Some (errorString "boom"))) ]> two_entries.







(** ** An agent with one tool *)

(** The world counts the calls of the Planner. *)
Definition calculator : tools.Tool nat :=
  {| tools.Name := "calculator"; tools.Description := "adds and multiplies";
     tools.Run := fun _ n => (("42", None), n) |}.

Definition broken_tool : tools.Tool nat :=
  {| tools.Name := "broken"; tools.Description := "always fails";
     tools.Run := fun _ n => ((EmptyString, Some (errorString "out of order")), n) |}.

Definition use (tool input : string) : AgentAction :=
  {| Tool := tool; ToolInput := input; Log := EmptyString; MessageLog := [] |}.

Definition the_answer : agents.AgentFinish :=
  {| agents.ReturnValues := Some {[ "output" := AString "The answer is 42" ]};
     agents.FinishLog := "done"; agents.FinishMessageLog := [] |}.

(** A Planner that asks for the calculator every time. *)
Definition always_acts : agents.Agent nat :=
  {| agents.Plan := fun _ _ n =>
       ((Some {| agents.Actions := [use "calculator" "6*7"]; agents.Finish := None |},
         None), S n);
     agents.InputKeys := ["input"]; agents.OutputKeys := ["output"] |}.

(** A Planner that asks first for a tool that is not there and for one that
    fails, and then goes on asking for the calculator. *)
Definition asks_badly : agents.Agent nat :=
  {| agents.Plan := fun intermediateSteps _ n =>
       ((Some {| agents.Actions :=
                   match intermediateSteps with
                   | [] => [use "search" "weather"; use "broken" "x"]
                   | _ => [use "calculator" "6*7"]
                   end;
                 agents.Finish := None |},
         None), S n);
     agents.InputKeys := ["input"]; agents.OutputKeys := ["output"] |}.

(** A Planner whose output has a Finish and Actions at once. *)
Definition finishes_and_acts : agents.Agent nat :=
  {| agents.Plan := fun _ _ n =>
       ((Some {| agents.Actions := [use "calculator" "6*7"];
                 agents.Finish := Some the_answer |},
         None), S n);
     agents.InputKeys := ["input"]; agents.OutputKeys := ["output"] |}.

Definition background : agents.Context nat := fun _ => None.

Definition quiet : RunnableConfig nat := DefaultConfig "run-1".

Definition question_input : gomap := Some {[ "input" := AString "What is 6*7?" ]}.

Definition three_rounds : agents.AgentExecutor nat :=
  agents.NewAgentExecutor always_acts [calculator] [agents.WithMaxIterations 3].

Definition two_tools (planner : agents.Agent nat) : agents.AgentExecutor nat :=
  agents.NewAgentExecutor planner [calculator; broken_tool] [].

(** A tool name that ends in a line feed, and an executor over the unit
    world with the calculator alone. *)
Definition search_and_newline : string := "search" +:+ String "010"%char EmptyString.

Definition idle : agents.Agent unit :=
  {| agents.Plan := fun _ _ w => ((None, Some (errorString "idle")), w);
     agents.InputKeys := []; agents.OutputKeys := [] |}.

Definition one_tool : agents.AgentExecutor unit :=
  agents.NewAgentExecutor idle
    [ {| tools.Name := "calculator"; tools.Description := EmptyString;
         tools.Run := fun _ w => (("42", None), w) |} ] [].

End Samples.

(* ===================================================================== *)
(** * More sample data                                                     *)
(* ===================================================================== *)

Module Samples2.
Import Go Value messages agents_types core runnable.

(** A channel with two values, an error chunk and a value after it. *)
Definition broken_channel : chan Z :=
  [value_chunk 1; value_chunk 2; {| Value := 0; Err := Some (errorString "boom") |};
   value_chunk 4].

(** A sequence of one step that fails on the input 0 and logs every
    invocation. *)
Definition picky_step : Sequence.step (list string) :=
  {| Sequence.name := "picky";
     Sequence.invoke := fun x w =>
       match x with
       | AInt 0 => (Return ANil (Some (errorString "zero")), w ++ ["refused"])
       | other => (Return other None, w ++ ["took"])
       end |}.

Definition picky : Sequence.Sequence (list string) TInt TInt :=
  {| Sequence.steps := [picky_step]; Sequence.seq_name := EmptyString |}.

(** A branch over integers with a default. *)
Definition with_default : Branch.Branch (list string) TInt TString :=
  Branch.NewBranch
    [ Samples.logged "is it above 100" (fun i => 100 <? i) Samples.positive;
      Samples.logged "is it above 0" (fun i => 0 <? i) Samples.positive ]
    (Some Samples.non_negative).

(** Units over [any]: the first of a typed pair takes an interface value,
    the second returns the nil interface value. *)
Definition describe : Runnable unit TAny TString :=
  Samples.pure_unit (I := TAny) (O := TString) (fun x => fmt_T x) "describe".

Definition forget : Runnable unit TInt TAny :=
  Samples.pure_unit (I := TInt) (O := TAny) (fun _ => ANil) "forget".

(** ** Assign over strings *)



(** ** Tool calls *)

(** A second tool under the name of the calculator. *)
Definition abacus : tools.Tool nat :=
  {| tools.Name := "calculator"; tools.Description := "counts beads";
     tools.Run := fun _ n => (("forty-two", None), S n) |}.

Definition ask_calculator : toolcalls.ToolCall :=
  {| toolcalls.ID := "call-1"; toolcalls.Name := "calculator";
     toolcalls.Args := "6*7"; toolcalls.Type_ := "tool_call" |}.

Definition ask_search : toolcalls.ToolCall :=
  {| toolcalls.ID := "call-0"; toolcalls.Name := "search";
     toolcalls.Args := "weather"; toolcalls.Type_ := "tool_call" |}.

(** ** Options *)

Definition old_metadata : gmap string any :=
  {[ "user" := AString "ada"; "trace" := ABool false ]}.

Definition new_metadata : gmap string any :=
  {[ "trace" := ABool true; "depth" := AInt 2 ]}.

(** ** Agents *)

(** A Planner that finishes once the log has [n] steps, and asks for the
    calculator before; the world counts its calls. *)
Definition finishes_after (n : nat) : agents.Agent nat :=
  {| agents.Plan := fun intermediateSteps _ calls =>
       ((Some (if decide (length intermediateSteps < n)%nat
               then {| agents.Actions := [Samples.use "calculator" "6*7"];
                       agents.Finish := None |}
               else {| agents.Actions := []; agents.Finish := Some Samples.the_answer |}),
         None), S calls);
     agents.InputKeys := ["input"]; agents.OutputKeys := ["output"] |}.

(** A context that is cancelled from the start. *)
Definition cancelled : agents.Context nat := fun _ => Some (errorString "context canceled").

End Samples2.
(* ===================================================================== *)
(** * Properties                                                           *)
(* ===================================================================== *)

(** ** Strings *)

Module GoSpec.
Import Go.

Lemma append_nil (r : string) : EmptyString +:+ r = r.
Proof. reflexivity. Qed.

Lemma append_cons (c : ascii) (s r : string) : String c s +:+ r = String c (s +:+ r).
Proof. reflexivity. Qed.

Lemma append_empty_r (s : string) : s +:+ EmptyString = s.
Proof.
  induction s as [|c s IH]; [reflexivity|]. rewrite append_cons. now rewrite IH.
Qed.

Lemma HasPrefix_nil (s : string) : HasPrefix s EmptyString = true.
Proof. now destruct s. Qed.

Lemma HasPrefix_refl_app (s r : string) : HasPrefix (s +:+ r) s = true.
Proof.
  induction s as [|c s IH]; [apply HasPrefix_nil|].
  rewrite append_cons. cbn [HasPrefix]. rewrite IH.
  now rewrite bool_decide_eq_true_2.
Qed.

Lemma HasPrefix_app_l (s r x : string) : HasPrefix s x = true -> HasPrefix (s +:+ r) x = true.
Proof.
  revert s. induction x as [|c x IH]; intros s H.
  - apply HasPrefix_nil.
  - destruct s as [|d s]; [discriminate|]. rewrite append_cons.
    cbn [HasPrefix] in *.
    apply andb_true_iff in H as [H1 H2]. rewrite H1. now apply IH.
Qed.

Lemma Contains_app_l (s r x : string) : Contains s x = true -> Contains (s +:+ r) x = true.
Proof.
  induction s as [|c s IH]; intros H.
  - cbn [Contains] in H. rewrite orb_false_r in H. destruct x; [|discriminate].
    rewrite append_nil. destruct r; reflexivity.
  - cbn [Contains] in H. apply orb_true_iff in H as [H|H].
    + pose proof (HasPrefix_app_l _ r x H) as H'.
      rewrite append_cons in *. cbn [Contains]. now rewrite H'.
    + rewrite append_cons. cbn [Contains].
      rewrite (IH H). apply orb_true_r.
Qed.

Lemma Contains_app_r (l s x : string) : Contains s x = true -> Contains (l +:+ s) x = true.
Proof.
  intros H. induction l as [|c l IH]; [exact H|].
  rewrite append_cons. cbn [Contains].
  rewrite IH. apply orb_true_r.
Qed.

Lemma Contains_refl (s : string) : Contains s s = true.
Proof.
  destruct s as [|c s]; [reflexivity|]. cbn [Contains].
  pose proof (HasPrefix_refl_app (String c s) EmptyString) as H.
  rewrite append_empty_r in H. now rewrite H.
Qed.

Lemma Contains_middle (l s r : string) : Contains (l +:+ s +:+ r) s = true.
Proof. apply Contains_app_r, Contains_app_l, Contains_refl. Qed.

(** Every element of a joined list is in the result. *)
Lemma Contains_Join (elems : list string) (sep x : string) :
  x ∈ elems -> Contains (Join elems sep) x = true.
Proof.
  induction elems as [|e rest IH]; intros Hin; [now apply elem_of_nil in Hin|].
  apply elem_of_cons in Hin as [->|Hin].
  - destruct rest as [|e' rest']; [apply Contains_refl|].
    cbn [Join]. apply Contains_app_l, Contains_refl.
  - destruct rest as [|e' rest']; [now apply elem_of_nil in Hin|].
    change (Join (e :: e' :: rest') sep) with (e +:+ sep +:+ Join (e' :: rest') sep).
    apply Contains_app_r, Contains_app_r. now apply IH.
Qed.

End GoSpec.

(** ** The verb [%q] on plain strings *)

Module QuoteSpec.
Import Go Statements.

Lemma quote_body_plain (unicode_print : N -> bool) (s : string) :
  plain s = true -> quote_body unicode_print 0 s = s.
Proof.
  induction s as [|c s IH]; intros Hp; [reflexivity|].
  cbn [plain] in Hp. apply andb_true_iff in Hp as [Hc Hs].
  unfold plain_byte in Hc. cbv zeta in Hc.
  apply andb_true_iff in Hc as [Hc H92]. apply andb_true_iff in Hc as [Hc H34].
  apply andb_true_iff in Hc as [Hlo Hhi].
  apply N.leb_le in Hlo. apply N.leb_le in Hhi.
  apply negb_true_iff in H34. apply negb_true_iff in H92.
  cbn [quote_body]. cbv zeta.
  assert (H80 : (N_of_ascii c <? 0x80)%N = true) by (apply N.ltb_lt; lia).
  rewrite H80.
  assert (Herr : (N_of_ascii c =? RuneError)%N = false).
  { apply N.eqb_neq. unfold RuneError. lia. }
  rewrite Herr, andb_false_r.
  unfold appendEscapedRune. rewrite H34, H92. cbn [orb].
  assert (Hprint : IsPrint unicode_print (N_of_ascii c) = true).
  { unfold IsPrint.
    assert (Hff : (N_of_ascii c <=? 0xFF)%N = true) by (apply N.leb_le; lia).
    rewrite Hff.
    assert (H1 : (0x20 <=? N_of_ascii c)%N = true) by (apply N.leb_le; lia).
    assert (H2 : (N_of_ascii c <=? 0x7E)%N = true) by (apply N.leb_le; lia).
    now rewrite H1, H2. }
  rewrite Hprint. cbn [string_take Nat.sub].
  rewrite GoSpec.append_cons, GoSpec.append_nil. now rewrite (IH Hs).
Qed.

(** A plain string is printed between double quotes as it is. *)
Lemma fmt_q_plain (unicode_print : N -> bool) (s : string) :
  plain s = true ->
  fmt_q unicode_print s = String "034"%char (s +:+ String "034"%char EmptyString).
Proof. intros Hp. unfold fmt_q. now rewrite (quote_body_plain _ s Hp). Qed.

End QuoteSpec.


(** ** The stream iterator *)

Module StreamIteratorSpec.
Import Go core.

Section Stream.

Context {T : Type} (zero : T).

Lemma Next_nil_chan (c : bool) :
  Next zero {| ch := []; closed := c |} = ((zero, false, None), {| ch := []; closed := c |}).
Proof. destruct c; reflexivity. Qed.

(** Once the channel is closed and drained the iterator stays exhausted. *)
Lemma Next_n_exhausted (n : nat) :
  Next_n zero n (NewStreamIterator []) = repeat (zero, false, None) n.
Proof.
  unfold NewStreamIterator.
  induction n as [|n IH]; simpl; [reflexivity|].
  now rewrite IH.
Qed.

Lemma Next_value (v : T) (rest : chan T) :
  Next zero (NewStreamIterator (value_chunk v :: rest))
  = ((v, true, None), NewStreamIterator rest).
Proof. reflexivity. Qed.

Lemma Next_error (v : T) (e : error) (rest : chan T) :
  Next zero (NewStreamIterator ({| Value := v; Err := Some e |} :: rest))
  = ((zero, false, Some e), NewStreamIterator rest).
Proof. reflexivity. Qed.

(** Any run of value chunks is handed over in order. *)
Lemma Next_n_values (vs : list T) (rest : chan T) (n : nat) :
  Next_n zero (length vs + n) (NewStreamIterator (List.map value_chunk vs ++ rest))
  = List.map (fun v => (v, true, None)) vs ++ Next_n zero n (NewStreamIterator rest).
Proof.
  induction vs as [|v vs IH]; [reflexivity|].
  cbn [length Nat.add List.map app Next_n].
  rewrite Next_value. f_equal. exact IH.
Qed.

(** C5: with the producer sending the values [a], [b], [c] and closing,
    the calls of [Next] return (a,true,nil), (b,true,nil), (c,true,nil)
    and then (zero,false,nil) for as many calls as are made; with the
    producer sending [a], then an error chunk [e], and closing, they return
    (a,true,nil), once (zero,false,e), and then (zero,false,nil) for as many
    calls as are made. *)
Theorem Next_sequence_values_then_exhausted :
  (forall (a b c : T) (n : nat),
     Next_n zero (3 + n)
       (NewStreamIterator [value_chunk a; value_chunk b; value_chunk c])
     = [(a, true, None); (b, true, None); (c, true, None)]
       ++ repeat (zero, false, None) n)
  /\
  (forall (a v : T) (e : error) (n : nat),
     Next_n zero (2 + n)
       (NewStreamIterator [value_chunk a; {| Value := v; Err := Some e |}])
     = [(a, true, None); (zero, false, Some e)]
       ++ repeat (zero, false, None) n).
Proof.
  split.
  - intros a b c n.
    change (3 + n)%nat with (length [a; b; c] + n)%nat.
    change [value_chunk a; value_chunk b; value_chunk c]
      with (List.map value_chunk [a; b; c] ++ @nil (StreamChunk T)).
    rewrite Next_n_values, Next_n_exhausted. reflexivity.
  - intros a v e n.
    change (2 + n)%nat with (length [a] + S n)%nat.
    change [value_chunk a; {| Value := v; Err := Some e |}]
      with (List.map value_chunk [a] ++ [{| Value := v; Err := Some e |}]).
    rewrite Next_n_values. cbn [Next_n].
    rewrite Next_error, Next_n_exhausted. reflexivity.
Qed.

(** [TestStreamIteratorClose]: after [Close], [Next] reports exhaustion,
    whatever is left in the channel. *)
Lemma Next_after_Close (s : StreamIterator T) :
  (Next zero (Close s)).1 = (zero, false, None).
Proof.
  unfold Close. destruct (closed s) eqn:Hc; unfold Next; [now rewrite Hc|reflexivity].
Qed.

End Stream.

End StreamIteratorSpec.

(** ** Values *)

Module ValueSpec.
Import Go Value.

Lemma fromAny_toAny (t : gotype) (v : den t) :
  toAny t v <> ANil -> fromAny t (toAny t v) = Some v.
Proof. destruct t; simpl; try reflexivity. destruct v; congruence. Qed.

Lemma toAny_concrete (t : gotype) (v : den t) : t <> TAny -> toAny t v <> ANil.
Proof. destruct t; simpl; congruence. Qed.

Lemma fromAny_TAny (x : any) : x <> ANil -> fromAny TAny x = Some x.
Proof. destruct x; simpl; congruence. Qed.

End ValueSpec.

(** ** Sequence *)

Module SequenceSpec.
Import Go Value core runnable Statements.

Lemma run_succeed_app {W : Type} (O : gotype) (pre post : list (Sequence.step W)) :
  forall i current w v w1,
    succeed pre current w = Some (v, w1) ->
    Sequence.run O i (pre ++ post) current w = Sequence.run O (i + length pre) post v w1.
Proof.
  induction pre as [|st pre IH]; intros i current w v w1 H; simpl in *.
  - inversion H; subst. now rewrite Nat.add_0_r.
  - destruct (Sequence.invoke st current w) as [[result [err|]|msg] w']; try discriminate.
    rewrite (IH (S i) result w' v w1 H). f_equal. lia.
Qed.

Lemma succeed_counting {W : Type} (sts : list (Sequence.step W)) :
  forall current w n v w1,
    succeed sts current w = Some (v, w1) ->
    succeed (List.map counting sts) current (w, n) = Some (v, (w1, (n + length sts)%nat)).
Proof.
  induction sts as [|st sts IH]; intros current w n v w1 H; simpl in *.
  - inversion H; subst. now rewrite Nat.add_0_r.
  - destruct (Sequence.invoke st current w) as [[result [err|]|msg] w']; try discriminate.
    rewrite (IH result w' (S n) v w1 H). do 3 f_equal. lia.
Qed.

(** The loop stops at the first step that returns an error. *)
Lemma run_first_failure {W : Type} (O : gotype)
    (pre : list (Sequence.step W)) (st : Sequence.step W) (post : list (Sequence.step W))
    (current : any) (w : W) (v : any) (w1 : W)
    (discarded : any) (err : error) (w2 : W) :
  succeed pre current w = Some (v, w1) ->
  Sequence.invoke st v w1 = (Return discarded (Some err), w2) ->
  Sequence.run O 0 (pre ++ st :: post) current w
  = (Return (zero O) (Some (Sequence.step_error (length pre) (Sequence.name st) err)), w2).
Proof.
  intros Hpre Hst.
  rewrite (run_succeed_app O pre (st :: post) 0 _ _ _ _ Hpre).
  simpl. now rewrite Hst.
Qed.

(** C7: when the step at index [k = length pre] is the first to fail, with
    [err], [Invoke] returns the zero output and [err] wrapped with the index
    and the name of that step; the world is the one the failing step left,
    whatever the later steps are; and, counting invocations, exactly
    [k + 1] steps were invoked. *)
Theorem Invoke_aborts_at_first_failure
    {W : Type} (I O : gotype) (s : Sequence.Sequence W I O)
    (pre : list (Sequence.step W)) (st : Sequence.step W) (post : list (Sequence.step W))
    (input : den I) (w : W) (v : any) (w1 : W)
    (discarded : any) (err : error) (w2 : W) :
  Sequence.steps s = pre ++ st :: post ->
  succeed pre (toAny I input) w = Some (v, w1) ->
  Sequence.invoke st v w1 = (Return discarded (Some err), w2) ->
  Sequence.Invoke s input w
    = (Return (zero O) (Some (Sequence.step_error (length pre) (Sequence.name st) err)), w2)
  /\ Unwrap (Sequence.step_error (length pre) (Sequence.name st) err) = Some err
  /\ Sequence.Invoke (I := I) (O := O)
       {| Sequence.steps := List.map counting (Sequence.steps s);
          Sequence.seq_name := Sequence.seq_name s |}
       input (w, 0%nat)
     = (Return (zero O) (Some (Sequence.step_error (length pre) (Sequence.name st) err)),
        (w2, S (length pre))).
Proof.
  intros Hs Hpre Hst. unfold Sequence.Invoke. cbn [Sequence.steps]. rewrite Hs.
  split; [|split].
  - exact (run_first_failure O pre st post _ w v w1 discarded err w2 Hpre Hst).
  - reflexivity.
  - rewrite map_app. cbn [List.map].
    pose proof (run_first_failure O (List.map counting pre) (counting st)
                  (List.map counting post) (toAny I input) (w, 0%nat) v
                  (w1, (0 + length pre)%nat) discarded err (w2, S (length pre))
                  (succeed_counting pre _ w 0%nat _ _ Hpre)) as H.
    rewrite length_map in H. apply H. simpl. now rewrite Hst.
Qed.

(** The run of [Samples.three_steps]: the second step fails, the third is
    not invoked. *)
Lemma Invoke_aborts_at_first_failure_witness :
  Sequence.steps Samples.three_steps
    = [Samples.logging_step "first" (AInt 1) None]
      ++ Samples.logging_step "second" ANil (Some (errorString "boom"))
      :: [Samples.logging_step "third" (AInt 3) None]
  /\ Sequence.Invoke Samples.three_steps 7 []
     = (Return 0 (Some (wrapError "step 1 (second): boom" (errorString "boom"))),
        ["first"; "second"]).
Proof.
  split; [reflexivity|].
  exact (proj1 (Invoke_aborts_at_first_failure TInt TInt Samples.three_steps
                  [Samples.logging_step "first" (AInt 1) None]
                  (Samples.logging_step "second" ANil (Some (errorString "boom")))
                  [Samples.logging_step "third" (AInt 3) None]
                  7 [] (AInt 1) ["first"] ANil (errorString "boom") ["first"; "second"]
                  eq_refl eq_refl eq_refl)).
Defined.

(** *** The typed builders on pure units *)

(** With no nil interface value on the way, the sequence of three pure
    units computes their composition. *)
Lemma Pipe3_pure_units {W : Type} {A B C D : gotype}
    (f : den A -> den B) (g : den B -> den C) (h : den C -> den D)
    (nf ng nh : string) (x : den A) (w : W) :
  toAny A x <> ANil ->
  toAny B (f x) <> ANil ->
  toAny C (g (f x)) <> ANil ->
  toAny D (h (g (f x))) <> ANil ->
  Sequence.Invoke
    (Sequence.Pipe3 (Samples.pure_unit f nf) (Samples.pure_unit g ng)
                    (Samples.pure_unit h nh)) x w
  = (Return (h (g (f x))) None, w).
Proof.
  intros Ha Hb Hc Hd. unfold Sequence.Invoke. simpl.
  rewrite (ValueSpec.fromAny_toAny A x Ha). simpl.
  rewrite (ValueSpec.fromAny_toAny B (f x) Hb). simpl.
  rewrite (ValueSpec.fromAny_toAny C (g (f x)) Hc). simpl.
  now rewrite (ValueSpec.fromAny_toAny D (h (g (f x))) Hd).
Qed.

(** When the four types are concrete there is no nil interface value. *)
Lemma Pipe3_pure_units_concrete {W : Type} {A B C D : gotype}
    (f : den A -> den B) (g : den B -> den C) (h : den C -> den D)
    (nf ng nh : string) (x : den A) (w : W) :
  A <> TAny -> B <> TAny -> C <> TAny -> D <> TAny ->
  Sequence.Invoke
    (Sequence.Pipe3 (Samples.pure_unit f nf) (Samples.pure_unit g ng)
                    (Samples.pure_unit h nh)) x w
  = (Return (h (g (f x))) None, w).
Proof.
  intros Ha Hb Hc Hd.
  apply Pipe3_pure_units; now apply ValueSpec.toAny_concrete.
Qed.

(** [TestPipe3]: (3 + 1) * 2 printed. *)
Example TestPipe3 :
  Sequence.Invoke (Sequence.Pipe3 Samples.add1 Samples.double Samples.toString) 3 tt
  = (Return "8" None, tt).
Proof. reflexivity. Qed.

(** C1, the code at the failing input: for the pure units add1, double and
    discard (which returns the nil interface value) and the input 3, the
    composition is discard (double (add1 3)) = nil, and [Invoke] of their
    sequence returns an error, because the final assertion [current.(O)]
    does not hold of a nil interface value. *)
Theorem Pipe3_nil_output_is_an_error :
  Sequence.Invoke (Sequence.Pipe3 Samples.add1 Samples.double Samples.discard) 3 tt
  = (Return ANil
       (Some (errorString "final step output type mismatch: got <nil>, want <nil>")),
     tt).
Proof. reflexivity. Qed.

(** *** The dynamic builder *)

Lemma succeed_erased {W : Type} (rs : list (Runnable W TAny TAny)) :
  forall current w,
    succeed (List.map Sequence.erased_step rs) current w = chain rs current w.
Proof.
  induction rs as [|r rs IH]; intros current w; simpl; [reflexivity|].
  destruct (Invoke r current w) as [[v [err|]] w']; simpl; [reflexivity|].
  apply IH.
Qed.

(** C4, as stated, fails: the two-step pipeline of [emit_text] and
    [double_any] succeeds although the string that reaches the second step
    is not the integer it is written for. *)
Lemma Pipe_does_not_check_boundaries : ~ Pipe_checks_boundaries unit.
Proof.
  intros H.
  destruct (H [Samples.emit_text; Samples.double_any] (fun _ => TInt)
              ANil tt 0%nat (AString "text") tt) as (e & w' & He).
  - simpl. lia.
  - reflexivity.
  - reflexivity.
  - discriminate He.
Qed.

(** C4, amended: a pipeline built with [Pipe] makes no check at a step
    boundary.  Each unit is invoked with the output of the one before as it
    is; if all return a nil error the invocation returns the last output
    (when that is not the nil interface value), and if the unit at index
    [length pre] is the first to fail the invocation returns that unit's
    error wrapped with its index and name. *)
Theorem Pipe_hands_values_on_unchecked
    {W : Type} (rs : list (Runnable W TAny TAny)) (input : any) (w : W) :
  (forall v w', chain rs input w = Some (v, w') -> v <> ANil ->
     Sequence.Invoke (Sequence.Pipe rs) input w = (Return v None, w'))
  /\
  (forall pre r post v w1 discarded err w2,
     rs = pre ++ r :: post ->
     chain pre input w = Some (v, w1) ->
     Invoke r v w1 = ((discarded, Some err), w2) ->
     Sequence.Invoke (Sequence.Pipe rs) input w
     = (Return ANil (Some (Sequence.step_error (length pre) (GetName r) err)), w2)).
Proof.
  split.
  - intros v w' Hc Hv. unfold Sequence.Invoke, Sequence.Pipe. cbn [Sequence.steps toAny].
    rewrite <- succeed_erased in Hc.
    rewrite <- (app_nil_r (List.map Sequence.erased_step rs)).
    rewrite (run_succeed_app TAny _ [] 0 _ _ _ _ Hc). cbn [Sequence.run].
    now rewrite (ValueSpec.fromAny_TAny v Hv).
  - intros pre r post v w1 discarded err w2 -> Hc Hr.
    rewrite <- succeed_erased in Hc.
    assert (Hst : Sequence.invoke (Sequence.erased_step r) v w1
                  = (Return discarded (Some err), w2)).
    { simpl. now rewrite Hr. }
    pose proof (run_first_failure TAny
                  (List.map Sequence.erased_step pre) (Sequence.erased_step r)
                  (List.map Sequence.erased_step post) input w v w1 discarded err w2
                  Hc Hst) as H.
    rewrite length_map in H.
    unfold Sequence.Invoke, Sequence.Pipe. cbn [Sequence.steps toAny].
    rewrite map_app. exact H.
Qed.

(** The pipeline of the counterexample returns the string; with a failing
    unit in second place the error names index 1. *)
Lemma Pipe_hands_values_on_unchecked_witness :
  Sequence.Invoke (Sequence.Pipe [Samples.emit_text; Samples.double_any]) ANil tt
  = (Return (AString "text") None, tt)
  /\
  Sequence.Invoke (Sequence.Pipe [Samples.emit_text; Samples.failing; Samples.double_any])
    ANil tt
  = (Return ANil (Some (wrapError "step 1 (failing): boom" (errorString "boom"))), tt).
Proof.
  split.
  - refine (proj1 (Pipe_hands_values_on_unchecked
                     [Samples.emit_text; Samples.double_any] ANil tt)
                  (AString "text") tt eq_refl _).
    discriminate.
  - exact (proj2 (Pipe_hands_values_on_unchecked
                    [Samples.emit_text; Samples.failing; Samples.double_any] ANil tt)
                 [Samples.emit_text] Samples.failing [Samples.double_any]
                 (AString "text") tt ANil (errorString "boom") tt
                 eq_refl eq_refl eq_refl).
Defined.

End SequenceSpec.

(** ** Branch *)

Module BranchSpec.
Import Go Value core runnable Statements.

Lemma dispatch_rejects_app {W : Type} {I O : gotype}
    (pre rest : list (Branch.BranchCondition W I O)) (dflt : option (Runnable W I O))
    (input : den I) :
  forall w w1,
    rejects pre input w = Some w1 ->
    Branch.dispatch (pre ++ rest) dflt input w = Branch.dispatch rest dflt input w1.
Proof.
  induction pre as [|c pre IH]; intros w w1 H; simpl in *.
  - now inversion H.
  - destruct (Branch.Condition c input w) as [[|] w']; [discriminate|].
    now apply IH.
Qed.

Lemma rejects_counting {W : Type} {I O : gotype}
    (pre : list (Branch.BranchCondition W I O)) (input : den I) :
  forall w n w1,
    rejects pre input w = Some w1 ->
    rejects (List.map counting_condition pre) input (w, n)
    = Some (w1, (n + length pre)%nat).
Proof.
  induction pre as [|c pre IH]; intros w n w1 H; simpl in *.
  - inversion H; subst. now rewrite Nat.add_0_r.
  - destruct (Branch.Condition c input w) as [[|] w']; [discriminate|].
    rewrite (IH w' (S n) w1 H). do 2 f_equal. lia.
Qed.



End BranchSpec.

(** ** Parallel *)

Module ParallelSpec.
Import Go Value core runnable Statements.
Import Parallel.

Lemma in_order_is_shuffle : is_shuffle Samples.in_order.
Proof. intros A l. reflexivity. Qed.

Lemma reversed_is_shuffle : is_shuffle Samples.reversed.
Proof. intros A l. unfold Samples.reversed. symmetry. apply Permutation_rev. Qed.

Lemma NewParallelAny_built {I : gotype} (order : shuffle) (bs : gmap string (branch I)) :
  is_shuffle order -> built (NewParallelAny order bs).
Proof.
  intros Ho. unfold built, NewParallelAny, map_range. cbn [keys branches].
  now rewrite (Ho _ (map_to_list bs)).
Qed.

Lemma NewParallel_built {I O : gotype} (order : shuffle)
    (bs : gmap string (Runnable unit I O)) :
  is_shuffle order -> built (NewParallel order bs).
Proof.
  intros Ho. unfold built, NewParallel, map_range. cbn [keys branches].
  rewrite (Ho _ (map_to_list bs)), map_to_list_fmap.
  rewrite <- list_fmap_compose.
  match goal with |- ?a ≡ₚ ?b => replace b with a; [reflexivity|] end.
  apply list_fmap_ext. now intros ? [? ?].
Qed.

Lemma built_elem_of {I : gotype} (p : Parallel I) (k : string) :
  built p -> k ∈ keys p <-> is_Some (branches p !! k).
Proof.
  intros Hb. rewrite Hb, list_elem_of_fmap. split.
  - intros [[k' fn] [-> Hin]]. apply elem_of_map_to_list in Hin. eauto.
  - intros [fn Hfn]. exists (k, fn). split; [reflexivity|].
    now apply elem_of_map_to_list.
Qed.

Lemma goroutine_present {I : gotype} (p : Parallel I) (input : den I)
    (results : gmap string any) (errs : gmap string error) (k : string) (fn : branch I) :
  branches p !! k = Some fn ->
  goroutine p input (Some (results, errs)) k
  = match fn input with
    | (_, Some err) => Some (results, <[k := err]> errs)
    | (result, None) => Some (<[k := result]> results, errs)
    end.
Proof. intros H. unfold goroutine. unfold branch in *. now rewrite H. Qed.

(** The two maps after the goroutines for [ks] have written. *)
Lemma foldl_goroutine {I : gotype} (p : Parallel I) (input : den I) (ks : list string) :
  forall results errs,
    (forall k, k ∈ ks -> is_Some (branches p !! k)) ->
    exists results' errs',
      foldl (goroutine p input) (Some (results, errs)) ks = Some (results', errs')
      /\ (forall k, results' !! k
                    = if decide (k ∈ ks)
                      then match result_of p input k with
                           | Some v => Some v
                           | None => results !! k
                           end
                      else results !! k)
      /\ (forall k, errs' !! k
                    = if decide (k ∈ ks)
                      then match error_of p input k with
                           | Some e => Some e
                           | None => errs !! k
                           end
                      else errs !! k).
Proof.
  unfold result_of, error_of, branch.
  induction ks as [|k0 ks IH]; intros results errs Hin.
  - exists results, errs. split; [reflexivity|].
    split; intros k; (destruct (decide (k ∈ [])) as [H|_]; [|reflexivity]);
      now apply elem_of_nil in H.
  - destruct (Hin k0 (list_elem_of_here _ _)) as [fn Hfn].
    cbn [foldl]. rewrite (goroutine_present p input results errs k0 fn Hfn).
    assert (Hin' : forall k, k ∈ ks -> is_Some (branches p !! k)).
    { intros k Hk. apply Hin. now apply list_elem_of_further. }
    destruct (fn input) as [v [e|]] eqn:Hres.
    + destruct (IH results (<[k0 := e]> errs) Hin') as (r' & e' & Hf & Hr & He).
      exists r', e'. split; [exact Hf|]. split; intros k.
      * rewrite Hr.
        destruct (decide (k = k0)) as [->|Hne].
        -- rewrite Hfn, Hres.
           destruct (decide (k0 ∈ ks)), (decide (k0 ∈ k0 :: ks)) as [|Hn];
             try reflexivity; exfalso; apply Hn; apply list_elem_of_here.
        -- destruct (decide (k ∈ ks)) as [Hk|Hk], (decide (k ∈ k0 :: ks)) as [Hk'|Hk'];
             try reflexivity.
           ++ exfalso. apply Hk'. now apply list_elem_of_further.
           ++ exfalso. apply elem_of_cons in Hk' as [?|?]; auto.
      * rewrite He.
        destruct (decide (k = k0)) as [->|Hne].
        -- rewrite Hfn, Hres. cbn [snd]. rewrite lookup_insert_eq.
           destruct (decide (k0 ∈ ks)), (decide (k0 ∈ k0 :: ks)) as [|Hn];
             try reflexivity; exfalso; apply Hn; apply list_elem_of_here.
        -- rewrite lookup_insert_ne by congruence.
           destruct (decide (k ∈ ks)) as [Hk|Hk], (decide (k ∈ k0 :: ks)) as [Hk'|Hk'];
             try reflexivity.
           ++ exfalso. apply Hk'. now apply list_elem_of_further.
           ++ exfalso. apply elem_of_cons in Hk' as [?|?]; auto.
    + destruct (IH (<[k0 := v]> results) errs Hin') as (r' & e' & Hf & Hr & He).
      exists r', e'. split; [exact Hf|]. split; intros k.
      * rewrite Hr.
        destruct (decide (k = k0)) as [->|Hne].
        -- rewrite Hfn, Hres. rewrite lookup_insert_eq.
           destruct (decide (k0 ∈ ks)), (decide (k0 ∈ k0 :: ks)) as [|Hn];
             try reflexivity; exfalso; apply Hn; apply list_elem_of_here.
        -- rewrite lookup_insert_ne by congruence.
           destruct (decide (k ∈ ks)) as [Hk|Hk], (decide (k ∈ k0 :: ks)) as [Hk'|Hk'];
             try reflexivity.
           ++ exfalso. apply Hk'. now apply list_elem_of_further.
           ++ exfalso. apply elem_of_cons in Hk' as [?|?]; auto.
      * rewrite He.
        destruct (decide (k = k0)) as [->|Hne].
        -- rewrite Hfn, Hres. cbn [snd].
           destruct (decide (k0 ∈ ks)), (decide (k0 ∈ k0 :: ks)) as [|Hn];
             try reflexivity; exfalso; apply Hn; apply list_elem_of_here.
        -- destruct (decide (k ∈ ks)) as [Hk|Hk], (decide (k ∈ k0 :: ks)) as [Hk'|Hk'];
             try reflexivity.
           ++ exfalso. apply Hk'. now apply list_elem_of_further.
           ++ exfalso. apply elem_of_cons in Hk' as [?|?]; auto.
Qed.

(** After [wg.Wait()]: [results] holds the results of the entries that
    succeeded and [errs] the errors of those that failed, whatever the order
    in which the goroutines wrote. *)
Lemma maps_after_wait {I : gotype} (sched : shuffle) (p : Parallel I) (input : den I) :
  is_shuffle sched -> built p ->
  exists results errs,
    foldl (goroutine p input) (Some (∅, ∅)) (sched _ (keys p)) = Some (results, errs)
    /\ (forall k, results !! k = result_of p input k)
    /\ (forall k, errs !! k = error_of p input k).
Proof.
  intros Hs Hb.
  assert (Hks : forall k, k ∈ sched _ (keys p) <-> is_Some (branches p !! k)).
  { intros k. rewrite (Hs _ (keys p)). now apply built_elem_of. }
  destruct (foldl_goroutine p input (sched _ (keys p)) ∅ ∅) as (rs & es & Hf & Hr & He).
  { intros k Hk. now apply Hks. }
  exists rs, es. split; [exact Hf|]. split; intros k.
  - rewrite Hr. destruct (decide (k ∈ sched _ (keys p))) as [Hk|Hk].
    + rewrite lookup_empty. now destruct (result_of p input k).
    + rewrite lookup_empty. unfold result_of.
      destruct (branches p !! k) as [fn|] eqn:Hfn; [|reflexivity].
      exfalso. apply Hk, Hks. unfold branch in *. rewrite Hfn. eauto.
  - rewrite He. destruct (decide (k ∈ sched _ (keys p))) as [Hk|Hk].
    + rewrite lookup_empty. now destruct (error_of p input k).
    + rewrite lookup_empty. unfold error_of.
      destruct (branches p !! k) as [fn|] eqn:Hfn; [|reflexivity].
      exfalso. apply Hk, Hks. unfold branch in *. rewrite Hfn. eauto.
Qed.

(** C2: for a Parallel as its constructors build it, whatever the order in
    which the branches finish and the maps are ranged over: if every entry
    succeeds, [Invoke] returns a map with exactly the registered names as
    keys, each bound to the result of its entry; if some entry fails,
    [Invoke] returns the nil map and one error, which is the error of an
    entry that failed wrapped with that entry's name: its text is
    [parallel branch], the name as [%q] prints it, a colon and the text of
    the entry's error, so that it holds the name as [%q] prints it, and the
    name itself when the name is plain; unwrapped, it is the entry's
    error. *)
Theorem Invoke_all_or_nothing
    (unicode_print : N -> bool) {I : gotype} (sched order : shuffle)
    (p : Parallel I) (input : den I) :
  is_shuffle sched -> is_shuffle order -> built p ->
  ((forall k fn, branches p !! k = Some fn -> (fn input).2 = None) ->
   exists results,
     Invoke unicode_print sched order p input = Return (Some results) None
     /\ dom results = dom (branches p)
     /\ (forall k, k ∈ keys p <-> is_Some (results !! k))
     /\ size results = length (keys p)
     /\ (forall k fn, branches p !! k = Some fn -> results !! k = Some (fn input).1))
  /\
  ((exists k fn e, branches p !! k = Some fn /\ (fn input).2 = Some e) ->
   exists k fn e,
     branches p !! k = Some fn /\ (fn input).2 = Some e
     /\ Invoke unicode_print sched order p input
        = Return None (Some (branch_error unicode_print k e))
     /\ exists err,
          Invoke unicode_print sched order p input = Return None (Some err)
          /\ Error err
             = "parallel branch " +:+ fmt_q unicode_print k +:+ ": " +:+ Error e
          /\ Unwrap err = Some e
          /\ Contains (Error err) (fmt_q unicode_print k) = true
          /\ Contains (Error err) (Error e) = true
          /\ (plain k = true -> Contains (Error err) k = true)).
Proof.
  intros Hs Ho Hb.
  destruct (maps_after_wait sched p input Hs Hb) as (rs & es & Hf & Hr & He).
  unfold Invoke. rewrite Hf. unfold branch in *. split.
  - intros Hall.
    assert (Hes : es = ∅).
    { apply map_eq. intros k. rewrite He, lookup_empty. unfold error_of.
      destruct (branches p !! k) as [fn|] eqn:Hfn; [|reflexivity].
      now apply (Hall k fn). }
    subst es. rewrite map_size_empty. cbn [Nat.ltb Nat.leb].
    assert (Hlook : forall k fn, branches p !! k = Some fn -> rs !! k = Some (fn input).1).
    { intros k fn Hfn. rewrite Hr. unfold result_of. unfold branch in *. rewrite Hfn.
      pose proof (Hall k fn Hfn) as Hn. destruct (fn input) as [v [e|]]; [discriminate|].
      reflexivity. }
    assert (Hdom : dom rs = dom (branches p)).
    { apply set_eq. intros k. rewrite !elem_of_dom. split.
      - intros [v Hv]. rewrite Hr in Hv. unfold result_of in Hv.
        destruct (branches p !! k) as [fn|]; [eauto|discriminate].
      - intros [fn Hfn]. rewrite (Hlook k fn Hfn). eauto. }
    exists rs. split; [reflexivity|]. split; [exact Hdom|]. split; [|split].
    + intros k. rewrite (built_elem_of p k Hb), <- !elem_of_dom. now rewrite Hdom.
    + rewrite <- size_dom, Hdom, size_dom, <- length_map_to_list.
      rewrite Hb. now rewrite length_fmap.
    + exact Hlook.
  - intros (k & fn & e & Hfn & Hfail).
    assert (Hk : es !! k = Some e).
    { rewrite He. unfold error_of. unfold branch in *. now rewrite Hfn. }
    assert (Hne : es <> ∅).
    { intros ->. now rewrite lookup_empty in Hk. }
    assert (Hsize : (0 <? size es)%nat = true).
    { apply Nat.ltb_lt. apply map_size_non_empty_iff in Hne. lia. }
    rewrite Hsize.
    pose proof (Ho _ (map_to_list es)) as Hperm. unfold map_range.
    destruct (order _ (map_to_list es)) as [|[k' e'] l] eqn:Hord.
    + exfalso. apply Hne. apply map_to_list_empty_iff.
      now apply Permutation_nil in Hperm.
    + assert (Hin : (k', e') ∈ map_to_list es).
      { rewrite <- Hperm. apply list_elem_of_here. }
      apply elem_of_map_to_list in Hin. rewrite He in Hin. unfold error_of in Hin.
      destruct (branches p !! k') as [fn'|] eqn:Hfn'; [|discriminate].
      exists k', fn', e'. split; [exact Hfn'|]. split; [exact Hin|].
      split; [reflexivity|].
      exists (branch_error unicode_print k' e'). split; [reflexivity|].
      unfold branch_error. cbn [Error Unwrap].
      split; [reflexivity|]. split; [reflexivity|]. split; [|split].
      * apply GoSpec.Contains_middle.
      * apply GoSpec.Contains_app_r, GoSpec.Contains_app_r, GoSpec.Contains_app_r,
          GoSpec.Contains_refl.
      * intros Hplain. rewrite (QuoteSpec.fmt_q_plain unicode_print k' Hplain).
        apply GoSpec.Contains_app_r. rewrite GoSpec.append_cons.
        apply (GoSpec.Contains_app_r (String "034"%char EmptyString)).
        apply GoSpec.Contains_app_l, GoSpec.Contains_app_l, GoSpec.Contains_refl.
Qed.

(** Two runs of [Samples]: all entries succeed; one of three fails, and
    the error names it. *)
Lemma Invoke_all_or_nothing_witness :
  (exists results,
     Invoke (fun _ => true) Samples.reversed Samples.in_order
       (NewParallelAny Samples.in_order Samples.two_entries) 21
     = Return (Some results) None
     /\ dom results = dom Samples.two_entries)
  /\
  (exists k e,
     Invoke (fun _ => true) Samples.reversed Samples.in_order
       (NewParallelAny Samples.in_order Samples.one_failing) 21
     = Return None (Some (branch_error (fun _ => true) k e)))
  /\
  (exists err,
     Invoke (fun _ => true) Samples.reversed Samples.in_order
       (NewParallelAny Samples.in_order Samples.one_failing) 21
     = Return None (Some err)
     /\ Error err
        = "parallel branch " +:+ String "034"%char ("broken" +:+ String "034"%char ": boom")
     /\ Unwrap err = Some (errorString "boom")
     /\ Contains (Error err) "broken" = true).
Proof.
  assert (Hfails : exists k fn e,
            branches (NewParallelAny Samples.in_order Samples.one_failing) !! k = Some fn
            /\ (fn 21).2 = Some e).
  { exists "broken", (fun i : Z => (ANil, Some (errorString "boom"))), (errorString "boom").
    split; [|reflexivity]. cbn [NewParallelAny branches]. unfold Samples.one_failing.
    apply lookup_insert_eq. }
  split; [|split].
  - destruct (proj1 (Invoke_all_or_nothing (fun _ => true) Samples.reversed Samples.in_order
                       (NewParallelAny Samples.in_order Samples.two_entries) 21
                       reversed_is_shuffle in_order_is_shuffle
                       (NewParallelAny_built _ _ in_order_is_shuffle)))
      as (results & Hinv & Hdom & _).
    + intros k fn Hfn. cbn [NewParallelAny branches] in Hfn.
      unfold Samples.two_entries in Hfn.
      apply lookup_insert_Some in Hfn as [[_ <-]|[_ Hfn]]; [reflexivity|].
      apply lookup_singleton_Some in Hfn as [_ <-]. reflexivity.
    + exists results. split; [exact Hinv|exact Hdom].
  - destruct (proj2 (Invoke_all_or_nothing (fun _ => true) Samples.reversed Samples.in_order
                       (NewParallelAny Samples.in_order Samples.one_failing) 21
                       reversed_is_shuffle in_order_is_shuffle
                       (NewParallelAny_built _ _ in_order_is_shuffle)) Hfails)
      as (k & fn & e & _ & _ & Hinv & _).
    exists k, e. exact Hinv.
  - destruct (proj2 (Invoke_all_or_nothing (fun _ => true) Samples.reversed Samples.in_order
                       (NewParallelAny Samples.in_order Samples.one_failing) 21
                       reversed_is_shuffle in_order_is_shuffle
                       (NewParallelAny_built _ _ in_order_is_shuffle)) Hfails)
      as (k & fn & e & Hfn & Hfail & _ & err & Hinv & Htext & Hwrap & _ & _ & Hname).
    assert (k = "broken" /\ e = errorString "boom") as [-> ->].
    { cbn [NewParallelAny branches] in Hfn. unfold Samples.one_failing in Hfn.
      apply lookup_insert_Some in Hfn as [[<- <-]|[_ Hfn]].
      - cbv beta in Hfail. cbn [snd] in Hfail. injection Hfail as <-. auto.
      - unfold Samples.two_entries in Hfn.
        apply lookup_insert_Some in Hfn as [[_ <-]|[_ Hfn]]; [discriminate Hfail|].
        apply lookup_singleton_Some in Hfn as [_ <-]. discriminate Hfail. }
    exists err. split; [exact Hinv|]. split; [exact Htext|]. split; [exact Hwrap|].
    apply Hname. reflexivity.
Defined.

(** The same runs, evaluated. *)
Example Invoke_one_failing :
  Invoke (fun _ => true) Samples.reversed Samples.in_order
    (NewParallelAny Samples.in_order Samples.one_failing) 21
  = Return None
      (Some (wrapError ("parallel branch " +:+ fmt_q (fun _ => true) "broken" +:+ ": boom")
               (errorString "boom"))).
Proof. vm_compute. reflexivity. Qed.

End ParallelSpec.

(** ** Assign *)

Module AssignSpec.
Import Go Value core runnable Statements.
Import Assign.







End AssignSpec.

(** ** The agent loop *)

Module AgentSpec.
Import Go Value messages agents_types core Statements.
Import agents.

Lemma plan_calls_app (a b : list call) : plan_calls (a ++ b) = (plan_calls a + plan_calls b)%nat.
Proof.
  induction a as [|[steps|tool input] a IH]; simpl; [reflexivity| |]; now rewrite IH.
Qed.

Lemma run_calls_app (a b : list call) : run_calls (a ++ b) = (run_calls a + run_calls b)%nat.
Proof.
  induction a as [|[steps|tool input] a IH]; simpl; [reflexivity| |]; now rewrite IH.
Qed.

Section Executor.

Variable unicode_print : N -> bool.
Context {W : Type}.
Variable e : AgentExecutor W.
Variable cfg : RunnableConfig W.

(** One action adds one step to the log, for that action, and at most a
    tool run to the calls. *)
Lemma execute_shape (st : loop_state W) (action : AgentAction) :
  exists observation w' runs,
    execute unicode_print e cfg st action
    = (st.1.1 ++ [{| Action := action; Observation := observation |}], w', st.2 ++ runs)
    /\ plan_calls runs = 0%nat.
Proof.
  destruct st as [[steps w] tr]. unfold execute. cbn [fst snd].
  destruct (toolMap e !! Tool action) as [tool|].
  - destruct (tools.Run tool (ToolInput action) _) as [[observation [err|]] w'].
    + eexists _, _, [RunCall _ _]. split; reflexivity.
    + eexists _, _, [RunCall _ _]. split; reflexivity.
  - eexists _, _, []. rewrite app_nil_r. split; reflexivity.
Qed.

Lemma foldl_execute_shape (actions : list AgentAction) :
  forall st : loop_state W,
    exists new w' runs,
      foldl (execute unicode_print e cfg) st actions = (st.1.1 ++ new, w', st.2 ++ runs)
      /\ List.map Action new = actions
      /\ plan_calls runs = 0%nat.
Proof.
  induction actions as [|action actions IH]; intros st.
  - destruct st as [[steps w] tr]. exists [], w, []. cbn [foldl fst snd].
    rewrite !app_nil_r. auto.
  - cbn [foldl].
    destruct (execute_shape st action) as (obs & w1 & runs1 & -> & Hp1).
    destruct (IH (st.1.1 ++ [{| Action := action; Observation := obs |}], w1, st.2 ++ runs1))
      as (new & w' & runs & -> & Hnew & Hp).
    cbn [fst snd].
    exists ({| Action := action; Observation := obs |} :: new), w', (runs1 ++ runs).
    rewrite <- !app_assoc. split; [reflexivity|]. split.
    + cbn [List.map Action]. now rewrite Hnew.
    + rewrite plan_calls_app. lia.
Qed.

(** With a Planner that never finishes and a context that is not cancelled,
    the loop uses up the passes it has left, one Planner call each. *)
Lemma loop_never_finishes (ctx : Context W) (input : gomap) :
  (forall w, ctx w = None) ->
  never_finishes e input ->
  forall (left : nat) (st : loop_state W),
    out (loop unicode_print e ctx cfg input left st)
    = Return None (Some (iteration_limit_error e))
    /\ plan_calls (calls (loop unicode_print e ctx cfg input left st))
       = (plan_calls st.2 + left)%nat.
Proof.
  intros Hctx Hplan. induction left as [|left IH]; intros [[steps w] tr].
  - cbn [loop out calls snd]. split; [reflexivity|lia].
  - cbn [loop]. rewrite Hctx.
    pose proof (Hplan steps w) as Hp.
    destruct (Plan (agent e) steps input w) as [[[output|] [err|]] w1].
    + rewrite Hp. destruct (IH (steps ++ [parsing_error_step err], w1, tr ++ [PlanCall steps]))
        as [Ho Hc].
      split; [exact Ho|]. rewrite Hc. cbn [snd]. rewrite plan_calls_app. simpl. lia.
    + rewrite Hp.
      destruct (foldl_execute_shape (Actions output) (steps, w1, tr ++ [PlanCall steps]))
        as (new & w' & runs & -> & _ & Hruns).
      destruct (IH ((steps, w1, tr ++ [PlanCall steps]).1.1 ++ new, w',
                    (steps, w1, tr ++ [PlanCall steps]).2 ++ runs)) as [Ho Hc].
      split; [exact Ho|]. rewrite Hc. cbn [fst snd].
      rewrite !plan_calls_app, Hruns. simpl. lia.
    + rewrite Hp. destruct (IH (steps ++ [parsing_error_step err], w1, tr ++ [PlanCall steps]))
        as [Ho Hc].
      split; [exact Ho|]. rewrite Hc. cbn [snd]. rewrite plan_calls_app. simpl. lia.
    + contradiction.
Qed.

(** The calls already made stay in the record. *)
Lemma loop_calls_extend (ctx : Context W) (input : gomap) :
  forall (left : nat) (st : loop_state W),
    exists more, calls (loop unicode_print e ctx cfg input left st) = st.2 ++ more.
Proof.
  induction left as [|left IH]; intros [[steps w] tr]; cbn [loop snd].
  - exists []. now rewrite app_nil_r.
  - destruct (ctx w); [exists []; now rewrite app_nil_r|].
    destruct (Plan (agent e) steps input w) as [[[output|] [err|]] w1].
    + destruct (handleParsingErrors e).
      * destruct (IH (steps ++ [parsing_error_step err], w1, tr ++ [PlanCall steps]))
          as [more ->]. cbn [snd]. rewrite <- app_assoc. eauto.
      * cbn [calls]. eauto.
    + destruct (Finish output) as [fin|].
      * unfold finish. destruct (returnIntermediateSteps e), (ReturnValues fin);
          cbn [calls]; eauto.
      * destruct (foldl_execute_shape (Actions output) (steps, w1, tr ++ [PlanCall steps]))
          as (new & w' & runs & -> & _ & _).
        destruct (IH ((steps, w1, tr ++ [PlanCall steps]).1.1 ++ new, w',
                      (steps, w1, tr ++ [PlanCall steps]).2 ++ runs)) as [more ->].
        cbn [fst snd]. rewrite <- !app_assoc. eauto.
    + destruct (handleParsingErrors e).
      * destruct (IH (steps ++ [parsing_error_step err], w1, tr ++ [PlanCall steps]))
          as [more ->]. cbn [snd]. rewrite <- app_assoc. eauto.
      * cbn [calls]. eauto.
    + cbn [calls]. eauto.
Qed.

(** A pass that starts with the context not cancelled calls the Planner
    with the step log as it stands. *)
Lemma loop_calls_the_planner (ctx : Context W) (input : gomap) (left : nat)
    (steps : list AgentStep) (w : W) (tr : list call) :
  ctx w = None ->
  exists more,
    calls (loop unicode_print e ctx cfg input (S left) (steps, w, tr))
    = tr ++ PlanCall steps :: more.
Proof.
  intros Hctx. cbn [loop]. rewrite Hctx.
  destruct (Plan (agent e) steps input w) as [[[output|] [err|]] w1].
  - destruct (handleParsingErrors e).
    + destruct (loop_calls_extend ctx input left
                  (steps ++ [parsing_error_step err], w1, tr ++ [PlanCall steps]))
        as [more ->]. cbn [snd]. rewrite <- app_assoc. eauto.
    + cbn [calls]. eauto.
  - destruct (Finish output) as [fin|].
    + unfold finish. destruct (returnIntermediateSteps e), (ReturnValues fin);
        cbn [calls]; eauto.
    + destruct (loop_calls_extend ctx input left
                  (foldl (execute unicode_print e cfg) (steps, w1, tr ++ [PlanCall steps])
                     (Actions output))) as [more ->].
      destruct (foldl_execute_shape (Actions output) (steps, w1, tr ++ [PlanCall steps]))
        as (new & w' & runs & -> & _ & _).
      cbn [fst snd]. rewrite <- !app_assoc. eauto.
  - destruct (handleParsingErrors e).
    + destruct (loop_calls_extend ctx input left
                  (steps ++ [parsing_error_step err], w1, tr ++ [PlanCall steps]))
        as [more ->]. cbn [snd]. rewrite <- app_assoc. eauto.
    + cbn [calls]. eauto.
  - cbn [calls]. eauto.
Qed.

(** *** The counting Planner *)

Lemma notify_beside_counter (ev : CallbackEvent) (w : W) (n : nat) :
  notify (beside_counter_config cfg) ev (w, n) = (notify cfg ev w, n).
Proof.
  unfold notify. cbn [beside_counter_config Callbacks].
  revert w. induction (Callbacks cfg) as [|h l IH]; intros w; [reflexivity|].
  cbn [List.map foldl]. unfold beside_counter_handler at 1. cbn [fst snd]. apply IH.
Qed.

Lemma not_found_observation_beside_counter (tool : string) :
  not_found_observation unicode_print (counting_executor e) tool
  = not_found_observation unicode_print e tool.
Proof.
  unfold not_found_observation, availableToolNames. cbn [counting_executor tools].
  now rewrite List.map_map.
Qed.

Lemma execute_beside_counter (steps : list AgentStep) (w : W) (n : nat) (tr : list call)
    (action : AgentAction) :
  execute unicode_print (counting_executor e) (beside_counter_config cfg)
          (steps, (w, n), tr) action
  = ((execute unicode_print e cfg (steps, w, tr) action).1.1,
     ((execute unicode_print e cfg (steps, w, tr) action).1.2, n),
     (execute unicode_print e cfg (steps, w, tr) action).2).
Proof.
  unfold execute. rewrite notify_beside_counter.
  cbn [counting_executor toolMap beside_counter_config RunID].
  rewrite lookup_fmap. destruct (toolMap e !! Tool action) as [tool|]; cbn [fmap option_fmap option_map].
  - rewrite notify_beside_counter. cbn [beside_counter_tool tools.Run tools.Name fst snd].
    destruct (tools.Run tool (ToolInput action) _) as [[observation [err|]] w'];
      rewrite notify_beside_counter; reflexivity.
  - change (not_found_observation unicode_print _ (Tool action))
      with (not_found_observation unicode_print (counting_executor e) (Tool action)) at 1.
    rewrite not_found_observation_beside_counter. reflexivity.
Qed.

Lemma foldl_execute_beside_counter (actions : list AgentAction) :
  forall (steps : list AgentStep) (w : W) (n : nat) (tr : list call),
    foldl (execute unicode_print (counting_executor e) (beside_counter_config cfg))
          (steps, (w, n), tr) actions
    = ((foldl (execute unicode_print e cfg) (steps, w, tr) actions).1.1,
       ((foldl (execute unicode_print e cfg) (steps, w, tr) actions).1.2, n),
       (foldl (execute unicode_print e cfg) (steps, w, tr) actions).2).
Proof.
  induction actions as [|action actions IH]; intros steps w n tr; [reflexivity|].
  cbn [foldl]. rewrite execute_beside_counter.
  destruct (execute unicode_print e cfg (steps, w, tr) action) as [[steps1 w1] tr1].
  cbn [fst snd]. apply IH.
Qed.

Lemma finish_beside_counter (fin : AgentFinish) (steps : list AgentStep) (w : W) (n : nat)
    (tr : list call) :
  finish (counting_executor e) (beside_counter_config cfg) fin (steps, (w, n), tr)
  = {| out := out (finish e cfg fin (steps, w, tr));
       world := (world (finish e cfg fin (steps, w, tr)), n);
       calls := tr |}
  /\ calls (finish e cfg fin (steps, w, tr)) = tr.
Proof.
  unfold finish. cbn [counting_executor returnIntermediateSteps beside_counter_config
                       Callbacks RunID].
  assert (forall result (l : list (CallbackHandler W)) (w0 : W),
            foldl (fun w1 cb =>
                     cb (OnChainEnd result (RunID cfg))
                        (cb (OnAgentFinish {| fd_Output := result; fd_Log := FinishLog fin |}
                               (RunID cfg)) w1))
                  (w0, n) (List.map beside_counter_handler l)
            = (foldl (fun w1 cb =>
                        cb (OnChainEnd result (RunID cfg))
                           (cb (OnAgentFinish {| fd_Output := result; fd_Log := FinishLog fin |}
                                  (RunID cfg)) w1))
                     w0 l, n)) as Hfold.
  { intros result l. induction l as [|h l IH]; intros w0; [reflexivity|].
    cbn [List.map foldl]. unfold beside_counter_handler at 1 2. cbn [fst snd]. apply IH. }
  destruct (returnIntermediateSteps e); [destruct (ReturnValues fin) as [m|]|];
    cbn [out world calls]; rewrite ?Hfold; auto.
Qed.

(** The run of the executor with the counting Planner is the run of the
    executor with the counter beside it: the counter ends at the number of
    Planner calls of the record. *)
Lemma loop_beside_counter (ctx : Context W) (input : gomap) :
  forall (left : nat) (steps : list AgentStep) (w : W) (n : nat) (tr : list call),
    exists k,
      loop unicode_print (counting_executor e) (beside_counter_context ctx)
           (beside_counter_config cfg) input left (steps, (w, n), tr)
      = {| out := out (loop unicode_print e ctx cfg input left (steps, w, tr));
           world := (world (loop unicode_print e ctx cfg input left (steps, w, tr)), k);
           calls := calls (loop unicode_print e ctx cfg input left (steps, w, tr)) |}
      /\ (k + plan_calls tr
          = n + plan_calls (calls (loop unicode_print e ctx cfg input left (steps, w, tr))))%nat.
Proof.
  induction left as [|left IH]; intros steps w n tr.
  - cbn [loop]. rewrite notify_beside_counter. cbn [beside_counter_config RunID out world calls].
    exists n. split; [reflexivity|lia].
  - cbn [loop]. unfold beside_counter_context at 1. cbn [fst].
    destruct (ctx w) as [cerr|]; [exists n; cbn [out world calls]; split; [reflexivity|lia]|].
    cbn [counting_executor agent counting_planner Plan fst snd handleParsingErrors].
    destruct (Plan (agent e) steps input w) as [[output err] w1].
    destruct err as [err|].
    + destruct (handleParsingErrors e).
      * destruct (IH (steps ++ [parsing_error_step err]) w1 (S n) (tr ++ [PlanCall steps]))
          as (k & Hk & Hcount).
        exists k. split; [exact Hk|]. rewrite plan_calls_app in Hcount.
        cbn [plan_calls] in Hcount. lia.
      * rewrite notify_beside_counter. cbn [beside_counter_config RunID out world calls].
        exists (S n). split; [reflexivity|]. rewrite plan_calls_app. cbn [plan_calls]. lia.
    + destruct output as [output|].
      * destruct (Finish output) as [fin|].
        -- destruct (finish_beside_counter fin steps w1 (S n) (tr ++ [PlanCall steps]))
             as [Hf Hc].
           exists (S n). split.
           ++ etransitivity; [exact Hf|]. now rewrite Hc.
           ++ rewrite Hc, plan_calls_app. cbn [plan_calls]. lia.
        -- rewrite foldl_execute_beside_counter.
           destruct (foldl (execute unicode_print e cfg) (steps, w1, tr ++ [PlanCall steps])
                           (Actions output)) as [[steps' w'] tr'] eqn:Hfold.
           cbn [fst snd].
           destruct (IH steps' w' (S n) tr') as (k & Hk & Hcount).
           exists k. split; [exact Hk|].
           destruct (foldl_execute_shape (Actions output) (steps, w1, tr ++ [PlanCall steps]))
             as (new & w2 & runs & Hshape & _ & Hruns).
           rewrite Hfold in Hshape. injection Hshape as _ _ ->.
           cbn [snd] in Hcount. rewrite !plan_calls_app, Hruns in Hcount.
           cbn [plan_calls] in Hcount. lia.
      * cbn [out world calls]. exists (S n). split; [reflexivity|].
        rewrite plan_calls_app. cbn [plan_calls]. lia.
Qed.

End Executor.

(** [Invoke] with the counting Planner: the result and the world of the
    run, and the counter at the number of Planner calls of the record. *)
Lemma Invoke_beside_counter
    (unicode_print : N -> bool) {W : Type} (e : AgentExecutor W) (ctx : Context W)
    (input : gomap) (cfg : RunnableConfig W) (w : W) :
  Invoke unicode_print (counting_executor e) (beside_counter_context ctx) input
         (beside_counter_config cfg) (w, 0%nat)
  = (out (Invoke_run unicode_print e ctx input cfg w),
     (world (Invoke_run unicode_print e ctx input cfg w),
      plan_calls (calls (Invoke_run unicode_print e ctx input cfg w)))).
Proof.
  unfold Invoke, Invoke_run. rewrite notify_beside_counter.
  cbn [beside_counter_config RunID].
  change (GetName (counting_executor e)) with (GetName e).
  change (maxIterations (counting_executor e)) with (maxIterations e).
  destruct (loop_beside_counter unicode_print e cfg ctx input (Z.to_nat (maxIterations e)) []
              (notify cfg (OnChainStart input (RunID cfg) EmptyString
                             (Some {[ "name" := AString (GetName e) ]})) w) 0%nat [])
    as (k & -> & Hk).
  cbn [out world plan_calls] in *. repeat f_equal. lia.
Qed.

(** C3, as stated, fails: a Planner that fails at every call never returns
    a Finish; with a maximum of 3 iterations, and failures of the Planner
    not taken as steps (as [NewAgentExecutor] sets it), it is called once
    and [Invoke] returns a planning error, not the iteration-limit error. *)
Lemma failing_Planner_is_called_once : ~ Planner_without_Finish_is_called_M_times.
Proof.
  intros H.
  destruct (H (fun _ => true) Samples.idle [] 3%nat None (DefaultConfig "run-1")) as [w Hrun].
  - intros steps w. exact I.
  - vm_compute in Hrun. discriminate.
Qed.

(** C3, amended.  Let the context never be cancelled.  With a Planner that
    never returns a Finish and never fails, or whose failures the executor
    takes as steps, [Invoke] returns the nil map with the iteration-limit
    error after exactly as many Planner calls as the maximum of iterations
    allows (3 for a maximum of 3, none for a maximum of 0 or less): the
    Planner's own counter of its calls ends at that number, as does the
    number of Planner calls in the record of the run.  When failures of the
    Planner are not taken as steps and the first call of the Planner fails,
    [Invoke] returns the nil map with the planning error that wraps the
    Planner's error, after the error hooks, and the Planner has been called
    once.  The iteration-limit error wraps no other error, and it is not a
    planning error, nor has it the text of one. *)
Theorem Invoke_stops_at_the_iteration_limit
    (unicode_print : N -> bool) {W : Type} (e : AgentExecutor W) (ctx : Context W)
    (input : gomap) (cfg : RunnableConfig W) (w : W) :
  (forall w0, ctx w0 = None) ->
  (never_finishes e input ->
   out (Invoke_run unicode_print e ctx input cfg w)
   = Return None (Some (iteration_limit_error e))
   /\ (Invoke unicode_print e ctx input cfg w).1
      = Return None (Some (iteration_limit_error e))
   /\ plan_calls (calls (Invoke_run unicode_print e ctx input cfg w))
      = Z.to_nat (maxIterations e)
   /\ Invoke unicode_print (counting_executor e) (beside_counter_context ctx) input
             (beside_counter_config cfg) (w, 0%nat)
      = (Return None (Some (iteration_limit_error e)),
         ((Invoke unicode_print e ctx input cfg w).2, Z.to_nat (maxIterations e))))
  /\ (handleParsingErrors e = false ->
      0 < maxIterations e ->
      forall output perr w1,
        Plan (agent e) [] input
             (notify cfg (OnChainStart input (RunID cfg) EmptyString
                            (Some {[ "name" := AString (GetName e) ]})) w)
        = ((output, Some perr), w1) ->
        Invoke unicode_print (counting_executor e) (beside_counter_context ctx) input
               (beside_counter_config cfg) (w, 0%nat)
        = (Return None (Some (planning_error perr)),
           (notify cfg (OnChainError perr (RunID cfg)) w1, 1%nat))
        /\ Unwrap (planning_error perr) = Some perr
        /\ Error (planning_error perr) = "agent planning error: " +:+ Error perr)
  /\ Unwrap (iteration_limit_error e) = None
  /\ Error (iteration_limit_error e)
     = "agent exceeded maximum iterations (" +:+ fmt_d (maxIterations e) +:+ ")"
  /\ (forall err, iteration_limit_error e <> planning_error err
                  /\ Error (iteration_limit_error e) <> Error (planning_error err)).
Proof.
  intros Hctx. split; [|split; [|split; [|split]]].
  - intros Hplan.
    destruct (loop_never_finishes unicode_print e cfg ctx input Hctx Hplan
                (Z.to_nat (maxIterations e))
                ([], notify cfg (OnChainStart input (RunID cfg) EmptyString
                                   (Some {[ "name" := AString (GetName e) ]})) w, []))
      as [Ho Hc].
    split; [exact Ho|]. split; [exact Ho|]. split; [exact Hc|].
    rewrite Invoke_beside_counter. unfold Invoke, Invoke_run. cbn [snd].
    rewrite Ho, Hc. reflexivity.
  - intros Hh Hmax output perr w1 Hp.
    split; [|split; reflexivity].
    rewrite Invoke_beside_counter. unfold Invoke_run.
    destruct (Z.to_nat (maxIterations e)) as [|left] eqn:Hleft; [lia|].
    cbn [loop]. rewrite Hctx, Hp, Hh. reflexivity.
  - reflexivity.
  - reflexivity.
  - intros err. split; [discriminate|].
    unfold iteration_limit_error, planning_error. cbn [Error].
    rewrite !GoSpec.append_cons. discriminate.
Qed.

(** [Samples.three_rounds]: a maximum of 3 iterations and a Planner that
    always asks for the calculator: its counter ends at 3 (the world of the
    sample counts the Planner calls as well).  And a Planner that always
    fails, under the same maximum: one call, a planning error. *)
Lemma Invoke_stops_at_the_iteration_limit_witness :
  (out (Invoke_run (fun _ => true) Samples.three_rounds Samples.background
          Samples.question_input Samples.quiet 0%nat)
   = Return None (Some (errorString "agent exceeded maximum iterations (3)"))
   /\ plan_calls (calls (Invoke_run (fun _ => true) Samples.three_rounds Samples.background
                           Samples.question_input Samples.quiet 0%nat)) = 3%nat
   /\ Invoke (fun _ => true) (counting_executor Samples.three_rounds)
             (beside_counter_context Samples.background) Samples.question_input
             (beside_counter_config Samples.quiet) (0%nat, 0%nat)
      = (Return None (Some (errorString "agent exceeded maximum iterations (3)")),
         (3%nat, 3%nat)))
  /\ Invoke (fun _ => true)
        (counting_executor (NewAgentExecutor Samples.idle [] [WithMaxIterations 3]))
        (beside_counter_context (fun _ => None)) Samples.question_input
        (beside_counter_config (DefaultConfig "run-1")) (tt, 0%nat)
     = (Return None
          (Some (wrapError "agent planning error: idle" (errorString "idle"))),
        (tt, 1%nat)).
Proof.
  split.
  - destruct (Invoke_stops_at_the_iteration_limit (fun _ => true) Samples.three_rounds
                Samples.background Samples.question_input Samples.quiet 0%nat)
      as (Hlimit & _).
    + reflexivity.
    + destruct Hlimit as (Hout & _ & Hcalls & Hcounted).
      * intros steps w. reflexivity.
      * split; [exact Hout|]. split; [exact Hcalls|exact Hcounted].
  - destruct (Invoke_stops_at_the_iteration_limit (fun _ => true)
                (NewAgentExecutor Samples.idle [] [WithMaxIterations 3])
                (fun _ => None) Samples.question_input (DefaultConfig "run-1") tt)
      as (_ & Hfails & _).
    + reflexivity.
    + destruct (Hfails eq_refl eq_refl None (errorString "idle") tt eq_refl) as [Hrun _].
      exact Hrun.
Defined.

(** The same run, evaluated: three Planner calls, three runs of the
    calculator, three steps' worth of Planner calls counted by the world. *)
Example three_rounds_run :
  let r := Invoke_run (fun _ => true) Samples.three_rounds Samples.background
             Samples.question_input Samples.quiet 0%nat in
  world r = 3%nat /\ plan_calls (calls r) = 3%nat /\ run_calls (calls r) = 3%nat.
Proof. vm_compute. auto. Qed.

(** C6, as stated, fails: asked for the tool "search" followed by a line
    feed, the executor writes the name as [%q] prints it, with the line feed
    as a backslash and an n; the observation does not contain the name. *)
Lemma observation_quotes_the_requested_name : ~ observation_contains_requested_name.
Proof.
  intros H.
  destruct (H (fun _ => true) Samples.one_tool (DefaultConfig "run-1")
              (Samples.use Samples.search_and_newline "weather") [] [])
    as (observation & Hlog & Hin).
  - reflexivity.
  - vm_compute in Hlog. injection Hlog as <-. vm_compute in Hin. discriminate.
Qed.

(** C6, amended.  An action that names a tool that is not registered adds to
    the step log one step, with an observation that holds the requested name
    as [%q] prints it (the name itself when it is plain) and the name of
    every tool of the executor; no tool is run.  A registered tool whose
    [Run] returns an error adds one step whose observation holds the text of
    the error.  Neither ends the loop: after the actions of a pass the loop
    goes into its next pass with the steps added, and when a pass is left
    and the context is not cancelled, that pass calls the Planner with the
    log that has the new steps. *)
Theorem tool_trouble_becomes_an_observation
    (unicode_print : N -> bool) {W : Type} (e : AgentExecutor W) (cfg : RunnableConfig W)
    (action : AgentAction) (steps : list AgentStep) (w : W) (tr : list call) :
  (toolMap e !! Tool action = None ->
   (execute unicode_print e cfg (steps, w, tr) action).1.1
   = steps ++ [{| Action := action;
                  Observation := not_found_observation unicode_print e (Tool action) |}]
   /\ (execute unicode_print e cfg (steps, w, tr) action).2 = tr
   /\ Contains (not_found_observation unicode_print e (Tool action))
         (fmt_q unicode_print (Tool action)) = true
   /\ (plain (Tool action) = true ->
         Contains (not_found_observation unicode_print e (Tool action)) (Tool action) = true)
   /\ (forall t, t ∈ tools e ->
         Contains (not_found_observation unicode_print e (Tool action)) (tools.Name t) = true))
  /\
  (forall tool discarded err w',
     toolMap e !! Tool action = Some tool ->
     tools.Run tool (ToolInput action)
       (notify cfg (OnToolStart (Tool action) (ToolInput action) (RunID cfg) EmptyString)
          (notify cfg (OnAgentAction {| ad_Tool := Tool action;
                                        ad_ToolInput := ToolInput action;
                                        ad_Log := Log action |} (RunID cfg)) w))
     = ((discarded, Some err), w') ->
     execute unicode_print e cfg (steps, w, tr) action
     = (steps ++ [{| Action := action;
                     Observation := tool_error_observation (Tool action) err |}],
        notify cfg (OnToolError err (RunID cfg)) w',
        tr ++ [RunCall (tools.Name tool) (ToolInput action)])
     /\ Contains (tool_error_observation (Tool action) err) (Error err) = true)
  /\
  (forall (ctx : Context W) (input : gomap) (left : nat) (output : AgentOutput) (w' : W),
     ctx w = None ->
     Plan (agent e) steps input w = ((Some output, None), w') ->
     Finish output = None ->
     let st' := foldl (execute unicode_print e cfg) (steps, w', tr ++ [PlanCall steps])
                  (Actions output) in
     loop unicode_print e ctx cfg input (S left) (steps, w, tr)
     = loop unicode_print e ctx cfg input left st'
     /\ List.map Action st'.1.1 = List.map Action steps ++ Actions output
     /\ (forall left', left = S left' -> ctx st'.1.2 = None ->
           exists more,
             calls (loop unicode_print e ctx cfg input left st')
             = st'.2 ++ PlanCall st'.1.1 :: more)).
Proof.
  split; [|split].
  - intros Hnone. unfold execute. rewrite Hnone. cbn [fst snd].
    split; [reflexivity|]. split; [reflexivity|].
    unfold not_found_observation. split; [|split].
    + apply GoSpec.Contains_app_r, GoSpec.Contains_app_l, GoSpec.Contains_refl.
    + intros Hp. rewrite (QuoteSpec.fmt_q_plain _ _ Hp).
      apply GoSpec.Contains_app_r, GoSpec.Contains_app_l.
      cbn [Contains]. apply orb_true_iff. right.
      apply GoSpec.Contains_app_l, GoSpec.Contains_refl.
    + intros t Ht. do 3 apply GoSpec.Contains_app_r.
      apply GoSpec.Contains_Join. apply list_elem_of_fmap. eauto.
  - intros tool discarded err w' Htool Hrun. unfold execute. rewrite Htool, Hrun.
    split; [reflexivity|]. unfold tool_error_observation.
    do 3 apply GoSpec.Contains_app_r. apply GoSpec.Contains_refl.
  - intros ctx input left output w' Hctx Hplan Hfin st'. split; [|split].
    + cbn [loop]. now rewrite Hctx, Hplan, Hfin.
    + subst st'.
      destruct (foldl_execute_shape unicode_print e cfg (Actions output)
                  (steps, w', tr ++ [PlanCall steps])) as (new & w2 & runs & -> & Hnew & _).
      cbn [fst snd]. now rewrite map_app, Hnew.
    + intros left' -> Hctx'. destruct st' as [[steps' w2] tr'] eqn:Hst. cbn [fst snd] in *.
      apply loop_calls_the_planner. exact Hctx'.
Qed.

(** [Samples.asks_badly] asks for "search", which is not registered, and for
    "broken", whose [Run] fails; both become steps, and the second pass
    calls the Planner with them. *)
Lemma tool_trouble_becomes_an_observation_witness :
  (execute (fun _ => true) (Samples.two_tools Samples.asks_badly) Samples.quiet
     ([], 1%nat, [PlanCall []]) (Samples.use "search" "weather")).1.1
  = [{| Action := Samples.use "search" "weather";
        Observation := "Tool " +:+ fmt_q (fun _ => true) "search"
                       +:+ " not found. Available tools: calculator, broken" |}]
  /\
  execute (fun _ => true) (Samples.two_tools Samples.asks_badly) Samples.quiet
     ([], 1%nat, [PlanCall []]) (Samples.use "broken" "x")
  = ([{| Action := Samples.use "broken" "x";
         Observation := "Error executing tool broken: out of order" |}],
     1%nat, [PlanCall []; RunCall "broken" "x"])
  /\
  (exists more,
     calls (loop (fun _ => true) (Samples.two_tools Samples.asks_badly) Samples.background
              Samples.quiet Samples.question_input 2 ([], 0%nat, []))
     = [PlanCall []; RunCall "broken" "x";
        PlanCall [{| Action := Samples.use "search" "weather";
                     Observation := "Tool " +:+ fmt_q (fun _ => true) "search"
                                    +:+ " not found. Available tools: calculator, broken" |};
                  {| Action := Samples.use "broken" "x";
                     Observation := "Error executing tool broken: out of order" |}]]
       ++ more).
Proof.
  split; [|split].
  - exact (proj1 (proj1 (tool_trouble_becomes_an_observation (fun _ => true)
                           (Samples.two_tools Samples.asks_badly) Samples.quiet
                           (Samples.use "search" "weather") [] 1%nat [PlanCall []])
                   eq_refl)).
  - exact (proj1 (proj1 (proj2 (tool_trouble_becomes_an_observation (fun _ => true)
                           (Samples.two_tools Samples.asks_badly) Samples.quiet
                           (Samples.use "broken" "x") [] 1%nat [PlanCall []]))
                   Samples.broken_tool EmptyString (errorString "out of order") 1%nat
                   eq_refl eq_refl)).
  - destruct (proj2 (proj2 (tool_trouble_becomes_an_observation (fun _ => true)
                              (Samples.two_tools Samples.asks_badly) Samples.quiet
                              (Samples.use "search" "weather") [] 0%nat []))
                Samples.background Samples.question_input 1%nat
                {| Actions := [Samples.use "search" "weather"; Samples.use "broken" "x"];
                   Finish := None |} 1%nat eq_refl eq_refl eq_refl)
      as (Hloop & _ & Hnext).
    destruct (Hnext 0%nat eq_refl eq_refl) as [more Hmore].
    exists more. rewrite Hloop. exact Hmore.
Defined.

(** C10: when [Plan] returns an output with a Finish and with Actions, the
    pass ends as it ends for the Finish alone, whatever the Actions are: no
    tool is run (the calls end with this Planner call), and [Invoke] returns
    the return values of the Finish: as they are when intermediate steps
    are not asked for, and otherwise (for a map that is not nil) with the
    step log as it was before this pass under "intermediate_steps". *)
Theorem finish_wins_over_actions
    (unicode_print : N -> bool) {W : Type} (e : AgentExecutor W) (ctx : Context W)
    (cfg : RunnableConfig W) (input : gomap) (left : nat)
    (steps : list AgentStep) (w : W) (tr : list call)
    (actions : list AgentAction) (fin : AgentFinish) (w' : W) :
  ctx w = None ->
  Plan (agent e) steps input w
  = ((Some {| Actions := actions; Finish := Some fin |}, None), w') ->
  let r := loop unicode_print e ctx cfg input (S left) (steps, w, tr) in
  r = finish e cfg fin (steps, w', tr ++ [PlanCall steps])
  /\ calls r = tr ++ [PlanCall steps]
  /\ run_calls (calls r) = run_calls tr
  /\ (returnIntermediateSteps e = false -> out r = Return (ReturnValues fin) None)
  /\ (forall m, returnIntermediateSteps e = true -> ReturnValues fin = Some m ->
        out r = Return (Some (<["intermediate_steps" := ASteps steps]> m)) None).
Proof.
  intros Hctx Hplan r. subst r. cbn [loop]. rewrite Hctx, Hplan. cbn [Finish].
  split; [reflexivity|].
  assert (Hcalls : calls (finish e cfg fin (steps, w', tr ++ [PlanCall steps]))
                   = tr ++ [PlanCall steps]).
  { unfold finish. destruct (returnIntermediateSteps e), (ReturnValues fin); reflexivity. }
  split; [exact Hcalls|]. split.
  - rewrite Hcalls, run_calls_app. simpl. lia.
  - unfold finish. split.
    + intros ->. reflexivity.
    + intros m -> ->. reflexivity.
Qed.

(** [Samples.finishes_and_acts] returns the answer and an action for the
    calculator: the answer is returned after one Planner call and no run of
    the calculator. *)
Lemma finish_wins_over_actions_witness :
  out (Invoke_run (fun _ => true) (Samples.two_tools Samples.finishes_and_acts)
         Samples.background Samples.question_input Samples.quiet 0%nat)
  = Return (Some {[ "output" := AString "The answer is 42" ]}) None
  /\ calls (Invoke_run (fun _ => true) (Samples.two_tools Samples.finishes_and_acts)
              Samples.background Samples.question_input Samples.quiet 0%nat)
     = [PlanCall []].
Proof.
  destruct (finish_wins_over_actions (fun _ => true)
              (Samples.two_tools Samples.finishes_and_acts) Samples.background
              Samples.quiet Samples.question_input 14 [] 0%nat []
              [Samples.use "calculator" "6*7"] Samples.the_answer 1%nat eq_refl eq_refl)
    as (_ & Hcalls & _ & Hout & _).
  split; [exact (Hout eq_refl)|exact Hcalls].
Defined.

End AgentSpec.

(* ===================================================================== *)
(** * Further properties                                                   *)
(* ===================================================================== *)

(** ** Collect and Close *)

Module CollectSpec.
Import Go core collect Statements2.

Section Stream.

Context {T : Type} (zero : T).

Lemma Collect_loop_spec (c : chan T) :
  forall (fuel : nat) (results : list T),
    (length c < fuel)%nat ->
    Collect_loop zero fuel (NewStreamIterator c) results
    = Some ((results ++ leading_values c, first_error c),
            NewStreamIterator (after_error c)).
Proof.
  induction c as [|chunk rest IH]; intros fuel results Hfuel.
  - destruct fuel as [|fuel]; [simpl in Hfuel; lia|].
    simpl. now rewrite app_nil_r.
  - destruct fuel as [|fuel]; [simpl in Hfuel; lia|].
    destruct chunk as [v [e|]].
    + simpl. now rewrite app_nil_r.
    + cbn [Collect_loop]. unfold Next at 1. cbn.
      change {| ch := rest; closed := false |} with (NewStreamIterator rest).
      rewrite IH by (simpl in Hfuel; lia). now rewrite <- app_assoc.
Qed.

(** X1: with calls enough for the chunks in the channel, [Collect] returns
    the values that come before the first error chunk, in order, together
    with the error of that chunk (nil when there is none), and leaves in
    the channel what the producer sent after the error chunk. *)
Theorem Collect_gathers_until_first_error (c : chan T) (fuel : nat) :
  (length c < fuel)%nat ->
  Collect zero fuel (NewStreamIterator c)
  = Some ((leading_values c, first_error c), NewStreamIterator (after_error c)).
Proof. intros Hfuel. unfold Collect. now rewrite Collect_loop_spec. Qed.

Lemma Next_n_closed (c : chan T) (n : nat) :
  Next_n zero n {| ch := c; closed := true |} = repeat (zero, false, None) n.
Proof. induction n as [|n IH]; [reflexivity|]. simpl. now rewrite IH. Qed.

(** X2: [Close] is final and idempotent: after it every call of [Next]
    reports exhaustion whatever the channel still held, [Collect] returns
    nothing, and a second [Close] changes nothing. *)
Theorem Close_is_final (s : StreamIterator T) (n fuel : nat) :
  Next_n zero n (Close s) = repeat (zero, false, None) n
  /\ Collect zero (S fuel) (Close s) = Some (([], None), Close s)
  /\ Close (Close s) = Close s.
Proof.
  unfold Close. destruct s as [c [|]]; cbn [closed].
  - split; [apply Next_n_closed|]. split; reflexivity.
  - cbn [closed]. split; [apply Next_n_closed|]. split; reflexivity.
Qed.

End Stream.

(** [Samples2.broken_channel]: the two values, the error, one chunk left. *)
Lemma Collect_gathers_until_first_error_witness :
  Collect 0 5 (NewStreamIterator Samples2.broken_channel)
  = Some (([1; 2], Some (errorString "boom")), NewStreamIterator [value_chunk 4]).
Proof.
  apply (Collect_gathers_until_first_error 0 Samples2.broken_channel 5).
  simpl. lia.
Defined.

End CollectSpec.

(** ** Stream and Batch of the composition primitives *)

Module BatchSpec.
Import Go Value core runnable batch Statements Statements2.

Section Loop.

Context {W A B : Type}.
Variable invoke : A -> W -> outcome B * W.
Variable wrap : nat -> error -> error.

(** The loop ends in one of three ways; when it ends well the slice has
    the length it was made with. *)
Lemma Batch_loop_shape (inputs : list A) :
  forall (i : nat) (results : list B) (w : W),
    (exists rs w', Batch_loop invoke wrap i inputs results w = (Return (Some rs) None, w')
                   /\ length rs = length results)
    \/ (exists e w', Batch_loop invoke wrap i inputs results w = (Return None (Some e), w'))
    \/ (exists msg w', Batch_loop invoke wrap i inputs results w = (Panic msg, w')).
Proof.
  induction inputs as [|x inputs IH]; intros i results w; cbn [Batch_loop].
  - left. eauto.
  - destruct (invoke x w) as [[v [e|]|msg] w1].
    + right. left. eauto.
    + destruct (IH (S i) (<[i := v]> results) w1)
        as [(rs & w' & -> & Hlen)|[(e & w' & ->)|(msg & w' & ->)]].
      * left. exists rs, w'. split; [reflexivity|]. now rewrite Hlen, length_insert.
      * right. left. eauto.
      * right. right. eauto.
    + right. right. eauto.
Qed.

(** The loop over [inputs ++ more] is the loop over [inputs] and then, if
    that ended well, the loop over [more]. *)
Lemma Batch_loop_app (inputs more : list A) :
  forall (i : nat) (results : list B) (w : W),
    Batch_loop invoke wrap i (inputs ++ more) results w
    = match Batch_loop invoke wrap i inputs results w with
      | (Return (Some rs) None, w1) =>
          Batch_loop invoke wrap (i + length inputs) more rs w1
      | other => other
      end.
Proof.
  induction inputs as [|x inputs IH]; intros i results w.
  - cbn [app Batch_loop length]. now rewrite Nat.add_0_r.
  - cbn [app Batch_loop length].
    destruct (invoke x w) as [[v [e|]|msg] w1]; [reflexivity| |reflexivity].
    rewrite IH. now replace (S i + length inputs)%nat with (i + S (length inputs))%nat by lia.
Qed.

(** Room at the end of the slice is left alone. *)
Lemma Batch_loop_room (inputs : list A) (extra : list B) :
  forall (i : nat) (results : list B) (w : W),
    (i + length inputs <= length results)%nat ->
    Batch_loop invoke wrap i inputs (results ++ extra) w
    = match Batch_loop invoke wrap i inputs results w with
      | (Return (Some rs) o, w1) => (Return (Some (rs ++ extra)) o, w1)
      | other => other
      end.
Proof.
  induction inputs as [|x inputs IH]; intros i results w Hlen; cbn [Batch_loop].
  - reflexivity.
  - cbn [length] in Hlen.
    destruct (invoke x w) as [[v [e|]|msg] w1]; [reflexivity| |reflexivity].
    rewrite <- IH by (rewrite length_insert; lia).
    f_equal. apply insert_app_l. lia.
Qed.

(** One more input at the end of a batch. *)
Lemma Batch_loop_snoc (z : B) (inputs : list A) (x : A) (w : W) :
  Batch_loop invoke wrap 0 (inputs ++ [x]) (replicate (length (inputs ++ [x])) z) w
  = match Batch_loop invoke wrap 0 inputs (replicate (length inputs) z) w with
    | (Return (Some rs) None, w1) =>
      match invoke x w1 with
      | (Return v None, w2) => (Return (Some (rs ++ [v])) None, w2)
      | (Return _ (Some e), w2) => (Return None (Some (wrap (length inputs) e)), w2)
      | (Panic msg, w2) => (Panic msg, w2)
      end
    | other => other
    end.
Proof.
  rewrite length_app. cbn [length]. rewrite replicate_add. cbn [replicate].
  rewrite Batch_loop_app.
  rewrite (Batch_loop_room inputs [z] 0 (replicate (length inputs) z) w)
    by (rewrite length_replicate; lia).
  destruct (Batch_loop_shape inputs 0 (replicate (length inputs) z) w)
    as [(rs & w1 & -> & Hlen)|[(e & w1 & ->)|(msg & w1 & ->)]];
    [|reflexivity|reflexivity].
  rewrite length_replicate in Hlen. cbn [Batch_loop Nat.add].
  destruct (invoke x w1) as [[v [e|]|msg] w2]; [reflexivity| |reflexivity].
  do 3 f_equal.
  rewrite insert_app_r_alt by lia. rewrite Hlen, Nat.sub_diag. reflexivity.
Qed.

End Loop.

(** X3: [Sequence.Batch] invokes the sequence on the inputs in order.  A
    batch of no inputs returns an empty slice.  When the batch over
    [inputs] ends well, with one output per input, the batch over [inputs]
    and one more input [x] invokes the sequence on [x] in the world the
    others left and appends its output, or, if that invocation fails,
    returns nil and its error wrapped with the index of [x].  When the batch
    over [inputs] fails, so does the longer batch, in the same way and the
    same world: [x] is not invoked. *)
Theorem Sequence_Batch_one_more
    {W : Type} {I O : gotype} (s : Sequence.Sequence W I O)
    (inputs : list (den I)) (x : den I) (w : W) :
  sequence_more.Batch s [] w = (Return (Some []) None, w)
  /\
  (forall rs w1,
     sequence_more.Batch s inputs w = (Return (Some rs) None, w1) ->
     length rs = length inputs
     /\ (forall v w2, Sequence.Invoke s x w1 = (Return v None, w2) ->
          sequence_more.Batch s (inputs ++ [x]) w = (Return (Some (rs ++ [v])) None, w2))
     /\ (forall d e w2, Sequence.Invoke s x w1 = (Return d (Some e), w2) ->
          sequence_more.Batch s (inputs ++ [x]) w
          = (Return None (Some (batch_error (length inputs) e)), w2)))
  /\
  (forall e w1,
     sequence_more.Batch s inputs w = (Return None (Some e), w1) ->
     sequence_more.Batch s (inputs ++ [x]) w = (Return None (Some e), w1)).
Proof.
  unfold sequence_more.Batch. split; [reflexivity|].
  rewrite (Batch_loop_snoc (Sequence.Invoke s) batch_error (zero O) inputs x w).
  split.
  - intros rs w1 Hb.
    destruct (Batch_loop_shape (Sequence.Invoke s) batch_error inputs 0
                (replicate (length inputs) (zero O)) w)
      as [(rs' & w' & Hb' & Hlen)|[(e & w' & Hb')|(msg & w' & Hb')]];
      rewrite Hb' in Hb; try discriminate.
    injection Hb as -> ->. rewrite Hb'. rewrite length_replicate in Hlen.
    split; [exact Hlen|]. split.
    + intros v w2 ->. reflexivity.
    + intros d e w2 ->. reflexivity.
  - intros e w1 ->. reflexivity.
Qed.

(** [Samples2.picky] on 3 and 5, then on one input more: 7 is taken, 0 is
    refused with index 2. *)
Lemma Sequence_Batch_one_more_witness :
  sequence_more.Batch Samples2.picky [3; 5; 7] []
  = (Return (Some [3; 5; 7]) None, ["took"; "took"; "took"])
  /\
  sequence_more.Batch Samples2.picky [3; 5; 0] []
  = (Return None
       (Some (wrapError "batch item 2: step 0 (picky): zero"
                (wrapError "step 0 (picky): zero" (errorString "zero")))),
     ["took"; "took"; "refused"])
  /\
  sequence_more.Batch Samples2.picky ([0; 5] ++ [7]) []
  = sequence_more.Batch Samples2.picky [0; 5] [].
Proof.
  split; [|split].
  - exact (proj1 (proj2 (proj1 (proj2
             (Sequence_Batch_one_more Samples2.picky [3; 5] 7 []))
             [3; 5] ["took"; "took"] eq_refl))
             7 ["took"; "took"; "took"] eq_refl).
  - exact (proj2 (proj2 (proj1 (proj2
             (Sequence_Batch_one_more Samples2.picky [3; 5] 0 []))
             [3; 5] ["took"; "took"] eq_refl))
             0 (wrapError "step 0 (picky): zero" (errorString "zero"))
             ["took"; "took"; "refused"] eq_refl).
  - exact (proj2 (proj2 (Sequence_Batch_one_more Samples2.picky [0; 5] 7 []))
             (wrapError "batch item 0: step 0 (picky): zero"
                (wrapError "step 0 (picky): zero" (errorString "zero")))
             ["refused"] eq_refl).
Defined.

(** X4: [Branch.Batch] dispatches every input on its own: the batch over
    [inputs] and one more input [x] is the batch over [inputs] followed by
    [Invoke] on [x], whose conditions are evaluated afresh in the world the
    others left; its output is appended, or its error returned with the
    index of [x]; a batch that failed earlier fails in the same way and
    does not come to [x]. *)
Theorem Branch_Batch_one_more
    {W : Type} {I O : gotype} (b : Branch.Branch W I O)
    (inputs : list (den I)) (x : den I) (w : W) :
  branch_more.Batch b [] w = (Return (Some []) None, w)
  /\
  (forall rs w1,
     branch_more.Batch b inputs w = (Return (Some rs) None, w1) ->
     length rs = length inputs
     /\ (forall v w2, Branch.Invoke b x w1 = ((v, None), w2) ->
          branch_more.Batch b (inputs ++ [x]) w = (Return (Some (rs ++ [v])) None, w2))
     /\ (forall d e w2, Branch.Invoke b x w1 = ((d, Some e), w2) ->
          branch_more.Batch b (inputs ++ [x]) w
          = (Return None (Some (batch_error (length inputs) e)), w2)))
  /\
  (forall e w1,
     branch_more.Batch b inputs w = (Return None (Some e), w1) ->
     branch_more.Batch b (inputs ++ [x]) w = (Return None (Some e), w1)).
Proof.
  unfold branch_more.Batch. split; [reflexivity|].
  set (inv := fun input w0 => let '((v, err), w') := Branch.Invoke b input w0 in
                              (Return v err, w')).
  rewrite (Batch_loop_snoc inv batch_error (zero O) inputs x w).
  split.
  - intros rs w1 Hb.
    destruct (Batch_loop_shape inv batch_error inputs 0
                (replicate (length inputs) (zero O)) w)
      as [(rs' & w' & Hb' & Hlen)|[(e & w' & Hb')|(msg & w' & Hb')]];
      rewrite Hb' in Hb; try discriminate.
    injection Hb as -> ->. rewrite Hb'. rewrite length_replicate in Hlen.
    split; [exact Hlen|]. split.
    + intros v w2 Hx. unfold inv. now rewrite Hx.
    + intros d e w2 Hx. unfold inv. now rewrite Hx.
  - intros e w1 ->. reflexivity.
Qed.

(** [Samples.overlapping_branch] on 5 and then on 7, and on 5 and then on
    -1, which no condition takes. *)
Lemma Branch_Batch_one_more_witness :
  branch_more.Batch Samples.overlapping_branch [5; 7] []
  = (Return (Some ["positive"; "positive"]) None,
     ["is it above 100"; "is it above 0"; "is it above 100"; "is it above 0"])
  /\
  branch_more.Batch Samples.overlapping_branch [5; -1] []
  = (Return None
       (Some (wrapError
                "batch item 1: no branch condition matched and no default branch provided"
                Branch.no_branch_error)),
     ["is it above 100"; "is it above 0";
      "is it above 100"; "is it above 0"; "is it 0 or more"]).
Proof.
  split.
  - exact (proj1 (proj2 (proj1 (proj2
             (Branch_Batch_one_more Samples.overlapping_branch [5] 7 []))
             ["positive"] ["is it above 100"; "is it above 0"] eq_refl))
             "positive"
             ["is it above 100"; "is it above 0"; "is it above 100"; "is it above 0"]
             eq_refl).
  - exact (proj2 (proj2 (proj1 (proj2
             (Branch_Batch_one_more Samples.overlapping_branch [5] (-1) []))
             ["positive"] ["is it above 100"; "is it above 0"] eq_refl))
             EmptyString Branch.no_branch_error
             ["is it above 100"; "is it above 0";
              "is it above 100"; "is it above 0"; "is it 0 or more"]
             eq_refl).
Defined.

(** X5: [Sequence.Stream] is [Invoke] in one chunk.  When [Invoke] returns
    a value, [Stream] returns an iterator whose first [Next] gives that
    value and whose every later [Next] reports exhaustion, so that
    [Collect] gives the one value; when [Invoke] returns an error or
    panics, [Stream] returns no iterator and the same error, or panics. *)
Theorem Stream_is_Invoke_in_one_chunk
    {W : Type} {I O : gotype} (s : Sequence.Sequence W I O) (input : den I) (w : W) :
  match Sequence.Invoke s input w with
  | (Return v None, w') =>
      exists it,
        sequence_more.Stream s input w = (Return (Some it) None, w')
        /\ (forall n, Next_n (zero O) (S n) it
                      = (v, true, None) :: repeat (zero O, false, None) n)
        /\ (forall fuel, collect.Collect (zero O) (S (S fuel)) it
                         = Some (([v], None), NewStreamIterator []))
  | (Return _ (Some e), w') => sequence_more.Stream s input w = (Return None (Some e), w')
  | (Panic msg, w') => sequence_more.Stream s input w = (Panic msg, w')
  end.
Proof.
  unfold sequence_more.Stream.
  destruct (Sequence.Invoke s input w) as [[v [e|]|msg] w']; [reflexivity| |reflexivity].
  exists (NewStreamIterator [value_chunk v]). split; [reflexivity|]. split.
  - intros n. cbn [Next_n].
    change (Next (zero O) (NewStreamIterator [value_chunk v]))
      with ((v, true, @None error), NewStreamIterator (@nil (StreamChunk (den O)))).
    cbn iota beta. f_equal.
    induction n as [|n IH]; [reflexivity|]. cbn [Next_n repeat].
    change (Next (zero O) (NewStreamIterator []))
      with ((zero O, false, @None error), NewStreamIterator (@nil (StreamChunk (den O)))).
    cbn iota beta. now rewrite IH.
  - intros fuel. reflexivity.
Qed.

End BatchSpec.

(** ** Branch, the typed builders, Parallel *)

Module RunnableSpec2.
Import Go Value core runnable Statements Statements2.

(** X6: when no condition of a Branch holds and it has a default unit,
    [Invoke] runs the default, in the world the conditions left; all the
    conditions were evaluated, once each. *)
Theorem Invoke_falls_back_to_default
    {W : Type} {I O : gotype} (b : Branch.Branch W I O) (d : Runnable W I O)
    (input : den I) (w w1 : W) :
  rejects (Branch.conditions b) input w = Some w1 ->
  Branch.defaultBranch b = Some d ->
  Branch.Invoke b input w = Invoke d input w1
  /\ Branch.Invoke (counting_branch b) input (w, 0%nat)
     = Invoke (lift_unit d) input (w1, length (Branch.conditions b)).
Proof.
  intros Hall Hd. unfold Branch.Invoke. split.
  - rewrite <- (app_nil_r (Branch.conditions b)).
    rewrite (BranchSpec.dispatch_rejects_app _ [] _ input w w1 Hall).
    cbn [Branch.dispatch]. now rewrite Hd.
  - cbn [counting_branch Branch.conditions Branch.defaultBranch].
    rewrite <- (app_nil_r (List.map counting_condition (Branch.conditions b))).
    rewrite (BranchSpec.dispatch_rejects_app _ [] _ input _ _
               (BranchSpec.rejects_counting (Branch.conditions b) input w 0%nat w1 Hall)).
    cbn [Branch.dispatch]. now rewrite Hd.
Qed.

(** [Samples2.with_default] on -1: both conditions are evaluated, the
    default answers. *)
Lemma Invoke_falls_back_to_default_witness :
  Branch.Invoke Samples2.with_default (-1) []
  = (("non-negative", None), ["is it above 100"; "is it above 0"]).
Proof.
  exact (proj1 (Invoke_falls_back_to_default Samples2.with_default Samples.non_negative
                  (-1) [] ["is it above 100"; "is it above 0"] eq_refl eq_refl)).
Defined.

(** X7: a nil interface value makes a step of the typed builders panic.
    With an input type that is an interface type, [Invoke] on the nil value
    panics before the first unit is invoked; and when the first unit of
    [Pipe2] returns the nil value of an interface type (and no error), the
    second unit is not invoked: [Invoke] panics in the world the first unit
    left. *)
Theorem typed_step_panics_on_nil {W : Type} :
  (forall (B C : gotype) (first : Runnable W TAny B) (second : Runnable W B C) (w : W),
     exists msg,
       Sequence.Invoke (Sequence.Pipe2 first second) ANil w = (Panic msg, w))
  /\
  (forall (A C : gotype) (first : Runnable W A TAny) (second : Runnable W TAny C)
          (x : den A) (w w' : W),
     toAny A x <> ANil ->
     Invoke first x w = ((ANil, None), w') ->
     exists msg,
       Sequence.Invoke (Sequence.Pipe2 first second) x w = (Panic msg, w')).
Proof.
  split.
  - intros B C first second w. eexists. reflexivity.
  - intros A C first second x w w' Hx Hfirst. eexists.
    unfold Sequence.Invoke. cbn [Sequence.Pipe2 Sequence.steps Sequence.run].
    cbn [Sequence.typed_step Sequence.invoke].
    rewrite (ValueSpec.fromAny_toAny A x Hx), Hfirst. reflexivity.
Qed.

(** [Samples2.forget] returns nil to [Samples2.describe]. *)
Lemma typed_step_panics_on_nil_witness :
  exists msg,
    Sequence.Invoke (Sequence.Pipe2 Samples2.forget Samples2.describe) 3 tt
    = (Panic msg, tt).
Proof.
  apply (proj2 (@typed_step_panics_on_nil unit) TInt TString
           Samples2.forget Samples2.describe 3 tt tt).
  - discriminate.
  - reflexivity.
Defined.

(** X8: what [Parallel.Invoke] returns does not depend on the order in
    which the branches finish: for a Parallel as its constructors build it
    and any two orders of the goroutines, the result is the same (the order
    of the range over the errors being the same). *)
Theorem Invoke_whatever_the_schedule
    (unicode_print : N -> bool) {I : gotype} (sched sched' order : Parallel.shuffle)
    (p : Parallel.Parallel I) (input : den I) :
  Parallel.is_shuffle sched -> Parallel.is_shuffle sched' -> built p ->
  Parallel.Invoke unicode_print sched order p input
  = Parallel.Invoke unicode_print sched' order p input.
Proof.
  intros Hs Hs' Hb.
  destruct (ParallelSpec.maps_after_wait sched p input Hs Hb) as (rs & es & Hf & Hr & He).
  destruct (ParallelSpec.maps_after_wait sched' p input Hs' Hb)
    as (rs' & es' & Hf' & Hr' & He').
  unfold Parallel.Invoke. rewrite Hf, Hf'.
  assert (rs = rs') as <- by (apply map_eq; intros k; now rewrite Hr, Hr').
  assert (es = es') as <- by (apply map_eq; intros k; now rewrite He, He').
  reflexivity.
Qed.

(** The entries of [Samples.one_failing], finishing in the order of the
    keys and in the reverse order. *)
Lemma Invoke_whatever_the_schedule_witness :
  Parallel.Invoke (fun _ => true) Samples.in_order Samples.in_order
    (Parallel.NewParallelAny Samples.in_order Samples.one_failing) 21
  = Parallel.Invoke (fun _ => true) Samples.reversed Samples.in_order
      (Parallel.NewParallelAny Samples.in_order Samples.one_failing) 21.
Proof.
  exact (Invoke_whatever_the_schedule (fun _ => true) Samples.in_order Samples.reversed
           Samples.in_order (Parallel.NewParallelAny Samples.in_order Samples.one_failing) 21
           ParallelSpec.in_order_is_shuffle ParallelSpec.reversed_is_shuffle
           (ParallelSpec.NewParallelAny_built _ _ ParallelSpec.in_order_is_shuffle)).
Defined.

(** X20: [Pipe4] composes its four units: when each unit, run on what the
    unit before returned and in the world that unit left, returns a value
    and no error, and none of the five values is the nil interface value,
    [Invoke] on the sequence returns the value of the fourth unit, no error,
    in the world the fourth unit left. *)
Theorem Pipe4_composes
    {W : Type} {A B C D E : gotype}
    (first : Runnable W A B) (second : Runnable W B C)
    (third : Runnable W C D) (fourth : Runnable W D E)
    (a : den A) (b : den B) (c : den C) (d : den D) (r : den E) (w w1 w2 w3 w4 : W) :
  Invoke first a w = ((b, None), w1) ->
  Invoke second b w1 = ((c, None), w2) ->
  Invoke third c w2 = ((d, None), w3) ->
  Invoke fourth d w3 = ((r, None), w4) ->
  toAny A a <> ANil -> toAny B b <> ANil -> toAny C c <> ANil ->
  toAny D d <> ANil -> toAny E r <> ANil ->
  Sequence.Invoke (Sequence.Pipe4 first second third fourth) a w = (Return r None, w4).
Proof.
  intros H1 H2 H3 H4 Ha Hb Hc Hd He. unfold Sequence.Invoke.
  cbn [Sequence.Pipe4 Sequence.steps Sequence.run Sequence.typed_step Sequence.invoke].
  rewrite (ValueSpec.fromAny_toAny A a Ha), H1.
  cbn [Sequence.run Sequence.typed_step Sequence.invoke].
  rewrite (ValueSpec.fromAny_toAny B b Hb), H2.
  cbn [Sequence.run Sequence.typed_step Sequence.invoke].
  rewrite (ValueSpec.fromAny_toAny C c Hc), H3.
  cbn [Sequence.run Sequence.typed_step Sequence.invoke].
  rewrite (ValueSpec.fromAny_toAny D d Hd), H4.
  cbn [Sequence.run].
  now rewrite (ValueSpec.fromAny_toAny E r He).
Qed.

(** ((3 + 1) * 2 + 1) as a string. *)
Lemma Pipe4_composes_witness :
  Sequence.Invoke
    (Sequence.Pipe4 Samples.add1 Samples.double Samples.add1 Samples.toString) 3 tt
  = (Return "9" None, tt).
Proof.
  apply (Pipe4_composes Samples.add1 Samples.double Samples.add1 Samples.toString
           3 4 8 9 "9" tt tt tt tt tt); try reflexivity; discriminate.
Defined.



End RunnableSpec2.

(** ** Tool calls *)

Module ToolCallSpec.
Import Go toolcalls.

Section WithWorld.

Variable unicode_print : N -> bool.
Context {W : Type}.

Lemma ExecuteToolCall_skips (toolCall : ToolCall) (before rest : list (tools.Tool W)) (w : W) :
  Forall (fun u => tools.Name u <> Name toolCall) before ->
  ExecuteToolCall unicode_print toolCall (before ++ rest) w
  = ExecuteToolCall unicode_print toolCall rest w.
Proof.
  induction 1 as [|u before Hu _ IH]; [reflexivity|].
  cbn [app ExecuteToolCall]. now rewrite decide_False.
Qed.

Lemma ExecuteToolCalls_loop_spec (availableTools : list (tools.Tool W)) (toolCalls : list ToolCall) :
  forall (results : list ToolMessage) (w : W),
    exists new w',
      ExecuteToolCalls_loop unicode_print toolCalls availableTools results w
      = (results ++ new, w')
      /\ List.map ToolCallID new = List.map ID toolCalls
      /\ (forall i tc,
            toolCalls !! i = Some tc ->
            Forall (fun u => tools.Name u <> Name tc) availableTools ->
            new !! i = Some (NewToolMessage
                               ("Error: tool " +:+ fmt_q unicode_print (Name tc) +:+ " not found")
                               (ID tc))).
Proof.
  induction toolCalls as [|tc rest IH]; intros results w.
  - exists [], w. cbn. rewrite app_nil_r. repeat split. intros i tc Hi. discriminate.
  - cbn [ExecuteToolCalls_loop].
    destruct (ExecuteToolCall unicode_print tc availableTools w) as [[output err] w1] eqn:Hcall.
    destruct (IH (results ++
                   [NewToolMessage (match err with
                                    | Some e => "Error: " +:+ Error e
                                    | None => output
                                    end) (ID tc)]) w1)
      as (new & w' & -> & Hids & Hnot).
    eexists (_ :: new), w'. rewrite <- app_assoc. split; [reflexivity|]. split.
    + cbn. now rewrite Hids.
    + intros [|i] tc' Hi Habsent.
      * cbn in Hi. injection Hi as <-. cbn [lookup list_lookup]. f_equal.
        rewrite <- (app_nil_r availableTools) in Hcall.
        rewrite (ExecuteToolCall_skips tc availableTools [] w Habsent) in Hcall.
        cbn in Hcall. injection Hcall as <- <- <-. reflexivity.
      * cbn in Hi. cbn [lookup list_lookup]. now apply Hnot.
Qed.

Lemma ExecuteToolCalls_loop_snoc (availableTools : list (tools.Tool W))
    (toolCalls : list ToolCall) (tc : ToolCall) :
  forall (results : list ToolMessage) (w : W),
    ExecuteToolCalls_loop unicode_print (toolCalls ++ [tc]) availableTools results w
    = (let '(earlier, w1) :=
         ExecuteToolCalls_loop unicode_print toolCalls availableTools results w in
       let '((output, err), w2) := ExecuteToolCall unicode_print tc availableTools w1 in
       (earlier ++ [NewToolMessage (match err with
                                    | Some e => "Error: " +:+ Error e
                                    | None => output
                                    end) (ID tc)], w2)).
Proof.
  induction toolCalls as [|tc0 rest IH]; intros results w.
  - cbn [app ExecuteToolCalls_loop].
    now destruct (ExecuteToolCall unicode_print tc availableTools w) as [[output err] w2].
  - cbn [app ExecuteToolCalls_loop].
    destruct (ExecuteToolCall unicode_print tc0 availableTools w) as [[output0 err0] w0].
    apply IH.
Qed.

End WithWorld.

(** X9: [ExecuteToolCall] runs the first of the available tools that has
    the name of the call, on the arguments of the call, and no other tool;
    when no tool has that name it runs nothing and returns the empty string
    with the error [tool "<name>" not found]. *)
Theorem ExecuteToolCall_runs_the_first_match
    (unicode_print : N -> bool) {W : Type} (toolCall : ToolCall)
    (before after : list (tools.Tool W)) (t : tools.Tool W) (w : W) :
  Forall (fun u => tools.Name u <> Name toolCall) before ->
  (tools.Name t = Name toolCall ->
   ExecuteToolCall unicode_print toolCall (before ++ t :: after) w
   = tools.Run t (Args toolCall) w)
  /\ ExecuteToolCall unicode_print toolCall before w
     = ((EmptyString,
         Some (errorString ("tool " +:+ fmt_q unicode_print (Name toolCall) +:+ " not found"))),
        w).
Proof.
  intros Hbefore. split.
  - intros Ht. rewrite (ExecuteToolCall_skips unicode_print toolCall before _ w Hbefore).
    cbn [ExecuteToolCall]. now rewrite decide_True.
  - rewrite <- (app_nil_r before).
    now rewrite (ExecuteToolCall_skips unicode_print toolCall before [] w Hbefore).
Qed.

(** Two tools with the name of the call after one with another name: the
    first of the two runs; and the one with another name alone. *)
Lemma ExecuteToolCall_runs_the_first_match_witness :
  ExecuteToolCall (fun _ => true) Samples2.ask_calculator
    [Samples.broken_tool; Samples2.abacus; Samples.calculator] 0%nat
  = (("forty-two", None), 1%nat)
  /\ ExecuteToolCall (fun _ => true) Samples2.ask_calculator [Samples.broken_tool] 0%nat
     = ((EmptyString,
         Some (errorString ("tool " +:+ fmt_q (fun _ => true) "calculator" +:+ " not found"))),
        0%nat).
Proof.
  destruct (ExecuteToolCall_runs_the_first_match (fun _ => true) Samples2.ask_calculator
              [Samples.broken_tool] [Samples.calculator] Samples2.abacus 0%nat) as [Hrun Hnone].
  - repeat constructor. discriminate.
  - split; [exact (Hrun eq_refl)|exact Hnone].
Defined.

(** X10: [ExecuteToolCalls] never returns an error and answers every call,
    in order.  It returns one message for each call, with the ID of its
    call.  The calls are executed one after the other, each in the state the
    calls before it left: the message of a call is the output that the [Run]
    of the first available tool of its name returns on the arguments of the
    call, or [Error: ] and the text of the error when that [Run] fails, and
    the state afterwards is the one that [Run] left; the message of a call
    that names no available tool is [Error: tool "<name>" not found], and no
    tool is run for it.  A call that fails does not stop the calls after
    it. *)
Theorem ExecuteToolCalls_answers_every_call
    (unicode_print : N -> bool) {W : Type} (toolCalls : list ToolCall)
    (availableTools : list (tools.Tool W)) (w : W) :
  ExecuteToolCalls unicode_print [] availableTools w = (([], None), w)
  /\ exists results w',
      ExecuteToolCalls unicode_print toolCalls availableTools w = ((results, None), w')
      /\ List.map ToolCallID results = List.map ID toolCalls
      /\ (forall i tc,
            toolCalls !! i = Some tc ->
            Forall (fun u => tools.Name u <> Name tc) availableTools ->
            results !! i = Some (NewToolMessage
                                   ("Error: tool " +:+ fmt_q unicode_print (Name tc)
                                    +:+ " not found")
                                   (ID tc)))
      /\ (forall tc before t after,
            availableTools = before ++ t :: after ->
            Forall (fun u => tools.Name u <> Name tc) before ->
            tools.Name t = Name tc ->
            ExecuteToolCalls unicode_print (toolCalls ++ [tc]) availableTools w
            = ((results ++
                [NewToolMessage
                   (match (tools.Run t (Args tc) w').1.2 with
                    | Some e => "Error: " +:+ Error e
                    | None => (tools.Run t (Args tc) w').1.1
                    end) (ID tc)],
                None),
               (tools.Run t (Args tc) w').2))
      /\ (forall tc,
            Forall (fun u => tools.Name u <> Name tc) availableTools ->
            ExecuteToolCalls unicode_print (toolCalls ++ [tc]) availableTools w
            = ((results ++
                [NewToolMessage
                   ("Error: tool " +:+ fmt_q unicode_print (Name tc) +:+ " not found")
                   (ID tc)],
                None),
               w')).
Proof.
  split; [reflexivity|]. unfold ExecuteToolCalls.
  destruct (ExecuteToolCalls_loop_spec unicode_print availableTools toolCalls [] w)
    as (new & w' & Hloop & Hids & Hnot).
  exists new, w'. rewrite Hloop. cbn [app].
  split; [reflexivity|]. split; [exact Hids|]. split; [exact Hnot|]. split.
  - intros tc before t after -> Hbefore Ht.
    rewrite ExecuteToolCalls_loop_snoc, Hloop. cbn [app].
    rewrite (ExecuteToolCall_skips unicode_print tc before _ w' Hbefore).
    cbn [ExecuteToolCall]. rewrite decide_True by exact Ht.
    now destruct (tools.Run t (Args tc) w') as [[output err] w2].
  - intros tc Habsent.
    rewrite ExecuteToolCalls_loop_snoc, Hloop. cbn [app].
    rewrite <- (app_nil_r availableTools).
    rewrite (ExecuteToolCall_skips unicode_print tc availableTools [] w' Habsent).
    reflexivity.
Qed.

(** A call for a tool that is not there, then a call for the calculator,
    with two tools of that name after one of another name: the first call
    is answered with the error, the second by the first of the two tools,
    which is run (it adds one to the state). *)
Lemma ExecuteToolCalls_answers_every_call_witness :
  ExecuteToolCalls (fun _ => true) [Samples2.ask_search; Samples2.ask_calculator]
    [Samples.broken_tool; Samples2.abacus; Samples.calculator] 0%nat
  = (([NewToolMessage ("Error: tool " +:+ fmt_q (fun _ => true) "search" +:+ " not found")
         "call-0";
       NewToolMessage "forty-two" "call-1"], None), 1%nat).
Proof.
  destruct (ExecuteToolCalls_answers_every_call (fun _ => true) [Samples2.ask_search]
              [Samples.broken_tool; Samples2.abacus; Samples.calculator] 0%nat)
    as [_ (results & w' & Hrun & Hids & Hnot & Hstep & Habsent)].
  clear Hids Hnot Habsent. vm_compute in Hrun. injection Hrun as <- <-.
  assert (Forall (fun u : tools.Tool nat => tools.Name u <> Name Samples2.ask_calculator)
                 [Samples.broken_tool]) as Hbefore
    by (repeat constructor; discriminate).
  exact (Hstep Samples2.ask_calculator [Samples.broken_tool] Samples2.abacus
           [Samples.calculator] eq_refl Hbefore eq_refl).
Defined.

End ToolCallSpec.

(** ** The callback manager *)

Module ManagerSpec.
Import Go Value core callbacks.

Lemma foldl_WithInheritableHandlers {W : Type} (added : list (list (CallbackHandler W))) :
  forall m : Manager W,
    handlers (foldl WithInheritableHandlers m added) = handlers m
    /\ inheritableHandlers (foldl WithInheritableHandlers m added)
       = inheritableHandlers m ++ concat added.
Proof.
  induction added as [|hs added IH]; intros m; cbn [foldl concat].
  - now rewrite app_nil_r.
  - destruct (IH (WithInheritableHandlers m hs)) as [-> ->].
    cbn [WithInheritableHandlers handlers inheritableHandlers].
    now rewrite <- app_assoc.
Qed.

(** X11: a child manager gets the inheritable handlers of its parent, all
    that were added and in the order they were added, and none of the
    parent's own handlers; an event sent to the child goes to these
    handlers in that order.  The child has no inheritable handlers itself:
    an event sent to a child of the child reaches no handler. *)
Theorem GetChild_inherits_one_generation
    {W : Type} (own : list (CallbackHandler W)) (added : list (list (CallbackHandler W)))
    (tag tag' : string) (ev : CallbackEvent) (w : W) :
  let m := foldl WithInheritableHandlers (NewManager own) added in
  AllHandlers m = own
  /\ AllHandlers (GetChild m tag) = concat added
  /\ dispatch (GetChild m tag) ev w = foldl (fun w h => h ev w) w (concat added)
  /\ AllHandlers (GetChild (GetChild m tag) tag') = []
  /\ dispatch (GetChild (GetChild m tag) tag') ev w = w.
Proof.
  intros m. subst m.
  destruct (foldl_WithInheritableHandlers added (NewManager own)) as [Hown Hinh].
  unfold AllHandlers, dispatch. cbn [GetChild handlers inheritableHandlers app foldl].
  rewrite Hown, Hinh. cbn [NewManager handlers inheritableHandlers app]. auto.
Qed.

End ManagerSpec.

(** ** The options of package core *)

Module OptionsSpec.
Import Go Value core runnable options Statements2.

(** Writing the entries of a list without repeated keys into a map, one
    after the other. *)
Lemma foldl_insert_union {A : Type} (l : list (string * A)) :
  forall base : gmap string A,
    NoDup l.*1 ->
    foldl (fun acc kv => <[kv.1 := kv.2]> acc) base l = list_to_map l ∪ base.
Proof.
  induction l as [|[k v] l IH]; intros base Hnd.
  - cbn. now rewrite (left_id_L ∅ (∪)).
  - cbn [foldl fst snd]. rewrite fmap_cons in Hnd. cbn [fst] in Hnd.
    apply NoDup_cons in Hnd as [Hk Hnd].
    rewrite (IH _ Hnd). rewrite list_to_map_cons.
    apply map_eq. intros i.
    rewrite !lookup_union. destruct (decide (i = k)) as [->|Hne].
    + rewrite !lookup_insert_eq.
      rewrite (not_elem_of_list_to_map_1 l k Hk). now destruct (base !! k).
    + now rewrite !lookup_insert_ne by congruence.
Qed.

Lemma merge_into_union (order : Parallel.shuffle) (old m : gomap) :
  Parallel.is_shuffle order ->
  merge_into order old m = Some (default ∅ m ∪ default ∅ old).
Proof.
  intros Horder. unfold merge_into, Parallel.map_range. f_equal.
  assert (order _ (map_to_list (default ∅ m)) ≡ₚ map_to_list (default ∅ m)) as Hperm
    by apply Horder.
  assert (NoDup (order _ (map_to_list (default ∅ m))).*1) as Hnd
    by (rewrite Hperm; apply NoDup_fst_map_to_list).
  rewrite (foldl_insert_union _ _ Hnd). f_equal.
  rewrite (list_to_map_proper _ _ Hnd Hperm). apply list_to_map_to_list.
Qed.

(** X12: [WithMetadata] and [WithConfigurable] merge: whatever the order of
    the range over the map given, the field becomes a map (never nil) that
    has every entry of the map given and, under the other keys, the entries
    the field had before; a key that is in both gets the value given. *)
Theorem WithMetadata_merges
    {W : Type} (order : Parallel.shuffle) (given : gomap) (c : RunnableConfig W) :
  Parallel.is_shuffle order ->
  (exists m,
     Metadata (WithMetadata order given c) = Some m
     /\ forall k, m !! k = match default ∅ given !! k with
                           | Some v => Some v
                           | None => default ∅ (Metadata c) !! k
                           end)
  /\ (exists m,
        Configurable (WithConfigurable order given c) = Some m
        /\ forall k, m !! k = match default ∅ given !! k with
                              | Some v => Some v
                              | None => default ∅ (Configurable c) !! k
                              end).
Proof.
  intros Horder. cbn [WithMetadata WithConfigurable Metadata Configurable].
  rewrite !(merge_into_union order _ given Horder).
  split; eexists; (split; [reflexivity|]); intros k; rewrite lookup_union.
  - now destruct (default ∅ given !! k), (default ∅ (Metadata c) !! k).
  - now destruct (default ∅ given !! k), (default ∅ (Configurable c) !! k).
Qed.

(** New metadata over old ones, ranged over in reverse: [trace] gets the
    new value, [user] stays, [depth] comes in. *)
Lemma WithMetadata_merges_witness :
  exists m,
    Metadata (WithMetadata Samples.reversed (Some Samples2.new_metadata)
                (WithMetadata Samples.in_order (Some Samples2.old_metadata)
                   (DefaultConfig (W := unit) "run-1"))) = Some m
    /\ m !! "trace" = Some (ABool true)
    /\ m !! "user" = Some (AString "ada")
    /\ m !! "depth" = Some (AInt 2).
Proof.
  destruct (WithMetadata_merges Samples.reversed (Some Samples2.new_metadata)
              (WithMetadata Samples.in_order (Some Samples2.old_metadata)
                 (DefaultConfig (W := unit) "run-1"))
              ParallelSpec.reversed_is_shuffle) as [(m & Hm & Hk) _].
  exists m. split; [exact Hm|].
  split; [|split]; rewrite Hk; vm_compute; reflexivity.
Defined.

Section Settings.

Context {W : Type}.
Variable order : Parallel.shuffle.

Lemma last_omap_cons {A B : Type} (f : A -> option B) (x : A) (l : list A) (d : B) :
  default d (last (omap f (x :: l)))
  = default (default d (f x)) (last (omap f l)).
Proof.
  cbn [omap list_omap]. destruct (f x) as [y|]; [|reflexivity].
  rewrite last_cons. now destruct (last (omap f l)).
Qed.

Lemma concat_omap_cons {A B : Type} (f : A -> option (list B)) (x : A) (l : list A)
    (pre : list B) :
  pre ++ concat (omap f (x :: l)) = (pre ++ default [] (f x)) ++ concat (omap f l).
Proof.
  cbn [omap list_omap]. destruct (f x) as [y|]; cbn [concat default].
  - now rewrite app_assoc.
  - now rewrite app_nil_r.
Qed.

Lemma foldl_settings (ss : list (setting W)) :
  forall b : RunnableConfig W,
    let cfg := foldl (fun cfg opt => opt cfg) b (List.map (option_of order) ss) in
    Tags cfg = Tags b ++ concat (omap tags_of ss)
    /\ Callbacks cfg = Callbacks b ++ concat (omap handlers_of ss)
    /\ RunName cfg = default (RunName b) (last (omap run_name_of ss))
    /\ MaxConcurrency cfg = default (MaxConcurrency b) (last (omap max_concurrency_of ss))
    /\ RecursionLimit cfg = default (RecursionLimit b) (last (omap recursion_limit_of ss))
    /\ RunID cfg = default (RunID b) (last (omap run_id_of ss))
    /\ Stop cfg = default (Stop b) (last (omap stop_of ss)).
Proof.
  induction ss as [|s ss IH]; intros b.
  - cbn. now rewrite !app_nil_r.
  - cbn [List.map foldl]. cbv zeta in *.
    destruct (IH (option_of order s b)) as (-> & -> & -> & -> & -> & -> & ->).
    rewrite !last_omap_cons, !concat_omap_cons.
    destruct s; cbn; rewrite ?app_nil_r; auto 10.
Qed.

End Settings.

(** X13: what a list of options comes to.  [WithTags] and [WithCallbacks]
    accumulate: the tags and the handlers of the configuration are those of
    the base followed by all those given, in the order of the options.
    [WithRunName], [WithMaxConcurrency], [WithRecursionLimit], [WithRunID]
    and [WithStop] set: the last one of a kind gives the field, and without
    one the field is that of the base.  [ApplyOptions] is [MergeOptions] on
    the default configuration: no tags, recursion limit 25. *)
Theorem MergeOptions_accumulates_and_sets
    {W : Type} (order : Parallel.shuffle) (uuid : string)
    (base : option (RunnableConfig W)) (ss : list (setting W)) :
  let b := match base with None => DefaultConfig uuid | Some b => b end in
  let cfg := MergeOptions uuid base (List.map (option_of order) ss) in
  Tags cfg = Tags b ++ concat (omap tags_of ss)
  /\ Callbacks cfg = Callbacks b ++ concat (omap handlers_of ss)
  /\ RunName cfg = default (RunName b) (last (omap run_name_of ss))
  /\ MaxConcurrency cfg = default (MaxConcurrency b) (last (omap max_concurrency_of ss))
  /\ RecursionLimit cfg = default (RecursionLimit b) (last (omap recursion_limit_of ss))
  /\ RunID cfg = default (RunID b) (last (omap run_id_of ss))
  /\ Stop cfg = default (Stop b) (last (omap stop_of ss))
  /\ ApplyOptions uuid (List.map (option_of order) ss)
     = MergeOptions uuid None (List.map (option_of order) ss)
  /\ Tags (ApplyOptions uuid (List.map (option_of order) ss)) = concat (omap tags_of ss)
  /\ RecursionLimit (ApplyOptions uuid (List.map (option_of order) ss))
     = default 25 (last (omap recursion_limit_of ss)).
Proof.
  intros b cfg. subst b cfg. unfold MergeOptions, ApplyOptions.
  pose proof (foldl_settings order ss
                (match base with None => DefaultConfig uuid | Some b => b end)) as H.
  pose proof (foldl_settings order ss (DefaultConfig (W := W) uuid)) as H0.
  cbv zeta in H, H0.
  destruct H as (H1 & H2 & H3 & H4 & H5 & H6 & H7).
  destruct H0 as (H1' & _ & _ & _ & H5' & _).
  repeat split; assumption.
Qed.

End OptionsSpec.

(** ** The executor *)

Module ExecutorSpec.
Import Go Value messages agents_types core Statements Statements2.
Import agents.

(** *** The map of the tools *)

Lemma options_keep_the_tools {W : Type} (ss : list executor_setting) :
  forall e : AgentExecutor W,
    toolMap (foldl (fun exec opt => opt exec) e (List.map executor_option ss)) = toolMap e
    /\ tools (foldl (fun exec opt => opt exec) e (List.map executor_option ss)) = tools e.
Proof.
  induction ss as [|s ss IH]; intros e; [auto|].
  cbn [List.map foldl]. destruct (IH (executor_option s e)) as [-> ->].
  destruct s; auto.
Qed.

Lemma foldl_insert_last {W : Type} (ts : list (tools.Tool W)) (nm : string) :
  foldl (fun (m : gmap string (tools.Tool W)) t => <[tools.Name t := t]> m) ∅ ts !! nm
  = last (filter (fun t => tools.Name t = nm) ts).
Proof.
  induction ts as [|t ts IH] using rev_ind; [reflexivity|].
  rewrite foldl_app, filter_app. cbn [foldl].
  destruct (decide (tools.Name t = nm)) as [Heq|Hne].
  - rewrite Heq, lookup_insert_eq.
    rewrite (filter_cons_True _ t [] Heq), filter_nil. now rewrite last_snoc.
  - rewrite lookup_insert_ne by exact Hne.
    rewrite (filter_cons_False _ t [] Hne), filter_nil, app_nil_r. exact IH.
Qed.

(** X14: the executor files its tools under their names, a later tool of
    the list replacing an earlier one of the same name: under a name the
    map has the last tool of that name in the list, and nothing when no
    tool of the list has the name.  The list itself is kept as given, and
    the options of the executor change neither. *)
Theorem NewAgentExecutor_last_tool_wins
    {W : Type} (a : Agent W) (agentTools : list (tools.Tool W))
    (ss : list executor_setting) (nm : string) :
  let e := NewAgentExecutor a agentTools (List.map executor_option ss) in
  tools e = agentTools
  /\ toolMap e !! nm = last (filter (fun t => tools.Name t = nm) agentTools)
  /\ (forall t, toolMap e !! nm = Some t -> tools.Name t = nm /\ t ∈ agentTools)
  /\ (toolMap e !! nm = None <-> nm ∉ List.map tools.Name agentTools).
Proof.
  intros e. subst e. unfold NewAgentExecutor.
  destruct (options_keep_the_tools ss
              {| agent := a; tools := agentTools;
                 toolMap := foldl (fun m t => <[tools.Name t := t]> m) ∅ agentTools;
                 maxIterations := 15;
                 returnIntermediateSteps := false; handleParsingErrors := false;
                 name := EmptyString; callbacks := [] |}) as [-> ->].
  cbn [toolMap tools]. rewrite foldl_insert_last.
  split; [reflexivity|]. split; [reflexivity|]. split.
  - intros t Ht. apply last_Some_elem_of in Ht.
    now apply list_elem_of_filter in Ht.
  - rewrite last_None. split.
    + intros Hnil Hin. apply list_elem_of_fmap in Hin as (t & -> & Hin).
      now apply (filter_nil_not_elem_of _ _ t Hnil).
    + intros Hnot. destruct (filter _ agentTools) as [|t l] eqn:Hf; [reflexivity|].
      exfalso. apply Hnot.
      assert (t ∈ filter (fun t => tools.Name t = nm) agentTools) as Hin
        by (rewrite Hf; left).
      apply list_elem_of_filter in Hin as [<- Hin].
      apply list_elem_of_fmap. eauto.
Qed.

Section Executor.

Variable unicode_print : N -> bool.
Context {W : Type}.
Variable e : AgentExecutor W.
Variable cfg : RunnableConfig W.


Lemma tools_run_app (a b : list call) : tools_run (a ++ b) = tools_run a ++ tools_run b.
Proof.
  induction a as [|[steps|tool input] a IH]; cbn; [reflexivity| |]; now rewrite IH.
Qed.


(** *** The logs the Planner is handed *)




(** *** The tools that are run *)

Variable names : list string.
Hypothesis toolMap_names : forall k t, toolMap e !! k = Some t -> tools.Name t ∈ names.

Lemma execute_runs (st : loop_state W) (action : AgentAction) :
  exists steps' w' runs,
    execute unicode_print e cfg st action = (steps', w', st.2 ++ runs)
    /\ Forall (fun nm => nm ∈ names) (tools_run runs).
Proof.
  destruct st as [[steps w] tr]. unfold execute. cbn [fst snd].
  destruct (toolMap e !! Tool action) as [tool|] eqn:Htool.
  - destruct (tools.Run tool (ToolInput action) _) as [[observation [err|]] w'];
      eexists _, _, [RunCall _ _]; (split; [reflexivity|]);
      cbn; repeat constructor; eapply toolMap_names; exact Htool.
  - eexists _, _, []. rewrite app_nil_r. split; [reflexivity|constructor].
Qed.

Lemma foldl_execute_runs (actions : list AgentAction) :
  forall st : loop_state W,
    exists steps' w' runs,
      foldl (execute unicode_print e cfg) st actions = (steps', w', st.2 ++ runs)
      /\ Forall (fun nm => nm ∈ names) (tools_run runs).
Proof.
  induction actions as [|action actions IH]; intros st.
  - destruct st as [[steps w] tr]. exists steps, w, []. cbn [foldl snd].
    rewrite app_nil_r. split; [reflexivity|constructor].
  - cbn [foldl]. destruct (execute_runs st action) as (steps1 & w1 & runs1 & -> & H1).
    destruct (IH (steps1, w1, st.2 ++ runs1)) as (steps' & w' & runs & -> & H2).
    cbn [snd]. exists steps', w', (runs1 ++ runs). rewrite <- app_assoc.
    split; [reflexivity|]. rewrite tools_run_app. now apply Forall_app.
Qed.

Lemma loop_runs (ctx : Context W) (input : gomap) :
  forall (left : nat) (st : loop_state W),
    exists more,
      calls (loop unicode_print e ctx cfg input left st) = st.2 ++ more
      /\ Forall (fun nm => nm ∈ names) (tools_run more).
Proof.
  induction left as [|left IH]; intros [[steps w] tr]; cbn [loop snd].
  - exists []. rewrite app_nil_r. split; [reflexivity|constructor].
  - destruct (ctx w); [exists []; rewrite app_nil_r; split; [reflexivity|constructor]|].
    assert (forall tr', tr' = tr ++ [PlanCall steps] ->
            exists more, tr' = tr ++ more
                         /\ Forall (fun nm => nm ∈ names) (tools_run more)) as Hleaf.
    { intros tr' ->. exists [PlanCall steps]. split; [reflexivity|constructor]. }
    assert (forall st',
            st'.2 = tr ++ [PlanCall steps] ->
            exists more,
              calls (loop unicode_print e ctx cfg input left st') = tr ++ more
              /\ Forall (fun nm => nm ∈ names) (tools_run more)) as Hretry.
    { intros st' Hst'. destruct (IH st') as (more & -> & Hmore). rewrite Hst'.
      exists (PlanCall steps :: more). rewrite <- app_assoc. split; [reflexivity|exact Hmore]. }
    destruct (Plan (agent e) steps input w) as [[[output|] [err|]] w1].
    + destruct (handleParsingErrors e); [now apply Hretry|]. cbn [calls]. now apply Hleaf.
    + destruct (Finish output) as [fin|].
      * unfold finish. destruct (returnIntermediateSteps e), (ReturnValues fin);
          cbn [calls]; now apply Hleaf.
      * destruct (foldl_execute_runs (Actions output) (steps, w1, tr ++ [PlanCall steps]))
          as (steps' & w' & runs & -> & Hruns).
        cbn [snd].
        destruct (IH (steps', w', (tr ++ [PlanCall steps]) ++ runs))
          as (more & -> & Hmore). cbn [snd].
        exists (PlanCall steps :: runs ++ more). rewrite <- !app_assoc.
        split; [reflexivity|]. cbn [tools_run]. rewrite tools_run_app.
        now apply Forall_app.
    + destruct (handleParsingErrors e); [now apply Hretry|]. cbn [calls]. now apply Hleaf.
    + cbn [calls]. now apply Hleaf.
Qed.

(** *** What [Invoke] returns *)

Lemma loop_outcome (ctx : Context W) (input : gomap) :
  forall (left : nat) (st : loop_state W),
    match out (loop unicode_print e ctx cfg input left st) with
    | Return v (Some err) =>
        v = None
        /\ (err = iteration_limit_error e
            \/ (exists w0, ctx w0 = Some err)
            \/ (handleParsingErrors e = false
                /\ exists steps w0 perr,
                     (Plan (agent e) steps input w0).1.2 = Some perr
                     /\ err = planning_error perr))
    | Return v None =>
        exists steps w0 output fin,
          (Plan (agent e) steps input w0).1 = (Some output, None)
          /\ Finish output = Some fin
          /\ if returnIntermediateSteps e
             then exists m, ReturnValues fin = Some m
                            /\ v = Some (<["intermediate_steps" := ASteps steps]> m)
             else v = ReturnValues fin
    | Panic _ => True
    end.
Proof.
  induction left as [|left IH]; intros [[steps w] tr]; cbn [loop out].
  - auto.
  - destruct (ctx w) as [cerr|] eqn:Hctx; [cbn [out]; eauto|].
    destruct (Plan (agent e) steps input w) as [[[output|] [err|]] w1] eqn:Hplan.
    + destruct (handleParsingErrors e) eqn:Hh; [apply IH|]. cbn [out].
      split; [reflexivity|]. right. right. split; [reflexivity|].
      exists steps, w, err. now rewrite Hplan.
    + destruct (Finish output) as [fin|] eqn:Hfin; [|apply IH].
      unfold finish. destruct (returnIntermediateSteps e) eqn:Hr.
      * destruct (ReturnValues fin) as [m|] eqn:Hm; cbn [out]; [|exact I].
        exists steps, w, output, fin. rewrite Hplan. eauto.
      * cbn [out]. exists steps, w, output, fin. rewrite Hplan. eauto.
    + destruct (handleParsingErrors e) eqn:Hh; [apply IH|]. cbn [out].
      split; [reflexivity|]. right. right. split; [reflexivity|].
      exists steps, w, err. now rewrite Hplan.
    + cbn [out]. exact I.
Qed.

(** *** A Planner that comes to an end *)

Lemma loop_finishes (ctx : Context W) (input : gomap) (n : nat) :
  (forall w0, ctx w0 = None) ->
  returnIntermediateSteps e = false ->
  (forall steps w0,
     exists output w1,
       Plan (agent e) steps input w0 = ((Some output, None), w1)
       /\ if decide (length steps < n)%nat
          then Finish output = None /\ Actions output <> []
          else Finish output <> None) ->
  forall (left : nat) (st : loop_state W),
    (1 <= left)%nat ->
    (n < left + length st.1.1)%nat ->
    exists steps w0 output w1 fin,
      Plan (agent e) steps input w0 = ((Some output, None), w1)
      /\ Finish output = Some fin
      /\ out (loop unicode_print e ctx cfg input left st) = Return (ReturnValues fin) None
      /\ (plan_calls (calls (loop unicode_print e ctx cfg input left st))
          <= plan_calls st.2 + S (n - length st.1.1))%nat.
Proof.
  intros Hctx Hr Hplan.
  induction left as [|left IH]; intros [[steps w] tr] Hleft Hn; [lia|].
  cbn [fst snd] in *. cbn [loop]. rewrite Hctx.
  destruct (Hplan steps w) as (output & w1 & Hp & Hcase). rewrite Hp.
  destruct (decide (length steps < n)%nat) as [Hlt|Hge].
  - destruct Hcase as [-> Hactions].
    destruct (AgentSpec.foldl_execute_shape unicode_print e cfg (Actions output)
                (steps, w1, tr ++ [PlanCall steps]))
      as (new & w' & runs & -> & Hnew & Hruns).
    cbn [fst snd].
    assert (1 <= length new)%nat as Hlen.
    { rewrite <- (length_map Action new), Hnew.
      destruct (Actions output); [congruence|cbn; lia]. }
    destruct (IH (steps ++ new, w', (tr ++ [PlanCall steps]) ++ runs))
      as (steps0 & w0 & output0 & w2 & fin & Hp0 & Hfin & Hout & Hcalls).
    + lia.
    + cbn [fst]. rewrite length_app. lia.
    + exists steps0, w0, output0, w2, fin. repeat split; try assumption.
      cbn [fst snd] in Hcalls. rewrite length_app, !AgentSpec.plan_calls_app, Hruns in Hcalls.
      cbn [plan_calls] in Hcalls. lia.
  - destruct (Finish output) as [fin|] eqn:Hfin; [|congruence].
    exists steps, w, output, w1, fin. unfold finish. rewrite Hr. cbn [out calls].
    repeat split; try assumption. rewrite AgentSpec.plan_calls_app. cbn [plan_calls]. lia.
Qed.

End Executor.

(** X15: what [Invoke] does when no pass of the loop is made.  With a
    maximum of iterations of zero or less it returns the nil map and the
    iteration-limit error, after the error hooks, without a call of the
    Planner or a tool, whatever the context.  With a positive maximum and a
    context that is cancelled when the loop starts, it returns the nil map
    and the error of the context as it is, without a call of the Planner or
    a tool and without calling the error hooks. *)
Theorem Invoke_before_the_first_pass
    (unicode_print : N -> bool) {W : Type} (e : AgentExecutor W) (ctx : Context W)
    (input : gomap) (cfg : RunnableConfig W) (w : W) :
  let started := notify cfg (OnChainStart input (RunID cfg) EmptyString
                               (Some {[ "name" := AString (GetName e) ]})) w in
  (maxIterations e <= 0 ->
   Invoke_run unicode_print e ctx input cfg w
   = {| out := Return None (Some (iteration_limit_error e));
        world := notify cfg (OnChainError (iteration_limit_error e) (RunID cfg)) started;
        calls := [] |})
  /\ (0 < maxIterations e ->
      forall cerr, ctx started = Some cerr ->
      Invoke_run unicode_print e ctx input cfg w
      = {| out := Return None (Some cerr); world := started; calls := [] |}).
Proof.
  intros started. subst started. unfold Invoke_run. split.
  - intros Hmax. replace (Z.to_nat (maxIterations e)) with 0%nat by lia. reflexivity.
  - intros Hmax cerr Hc. destruct (Z.to_nat (maxIterations e)) as [|left] eqn:Hleft; [lia|].
    cbn [loop]. now rewrite Hc.
Qed.

(** A maximum of 0 with a Planner that always acts, and a maximum of 3 with
    a context that is cancelled: the counter of Planner calls stays at 0. *)
Lemma Invoke_before_the_first_pass_witness :
  Invoke_run (fun _ => true)
    (NewAgentExecutor Samples.always_acts [Samples.calculator] [WithMaxIterations 0])
    Samples.background Samples.question_input Samples.quiet 0%nat
  = {| out := Return None (Some (errorString "agent exceeded maximum iterations (0)"));
       world := 0%nat; calls := [] |}
  /\ Invoke_run (fun _ => true) Samples.three_rounds Samples2.cancelled
       Samples.question_input Samples.quiet 0%nat
     = {| out := Return None (Some (errorString "context canceled"));
          world := 0%nat; calls := [] |}.
Proof.
  split.
  - apply (proj1 (Invoke_before_the_first_pass (fun _ => true)
                    (NewAgentExecutor Samples.always_acts [Samples.calculator]
                       [WithMaxIterations 0])
                    Samples.background Samples.question_input Samples.quiet 0%nat)).
    vm_compute. discriminate.
  - apply (proj2 (Invoke_before_the_first_pass (fun _ => true) Samples.three_rounds
                    Samples2.cancelled Samples.question_input Samples.quiet 0%nat)).
    + reflexivity.
    + reflexivity.
Defined.



(** X17: the executor runs no tool but those of its list: every tool run
    in the course of [Invoke] is a tool whose name is the name of a tool of
    the list the executor was made with, whatever names the Planner asks
    for. *)
Theorem Invoke_runs_only_listed_tools
    (unicode_print : N -> bool) {W : Type} (a : Agent W) (agentTools : list (tools.Tool W))
    (ss : list executor_setting) (ctx : Context W)
    (input : gomap) (cfg : RunnableConfig W) (w : W) :
  Forall (fun nm => nm ∈ List.map tools.Name agentTools)
         (tools_run (calls (Invoke_run unicode_print
                              (NewAgentExecutor a agentTools (List.map executor_option ss))
                              ctx input cfg w))).
Proof.
  unfold Invoke_run.
  destruct (loop_runs unicode_print
              (NewAgentExecutor a agentTools (List.map executor_option ss)) cfg
              (List.map tools.Name agentTools)) with
    (ctx := ctx) (input := input)
    (left := Z.to_nat (maxIterations (NewAgentExecutor a agentTools
                                        (List.map executor_option ss))))
    (st := (@nil AgentStep,
            notify cfg (OnChainStart input (RunID cfg) EmptyString
                          (Some {[ "name" := AString (GetName
                             (NewAgentExecutor a agentTools (List.map executor_option ss))) ]})) w,
            @nil call))
    as (more & -> & Hmore).
  - intros k t Hk. unfold NewAgentExecutor in Hk.
    destruct (options_keep_the_tools ss
                {| agent := a; tools := agentTools;
                   toolMap := foldl (fun m t => <[tools.Name t := t]> m) ∅ agentTools;
                   maxIterations := 15;
                   returnIntermediateSteps := false; handleParsingErrors := false;
                   name := EmptyString; callbacks := [] |}) as [Hmap _].
    rewrite Hmap in Hk. cbn [toolMap] in Hk. rewrite foldl_insert_last in Hk.
    apply last_Some_elem_of, list_elem_of_filter in Hk as [_ Hin].
    apply list_elem_of_fmap. eauto.
  - exact Hmore.
Qed.

(** X18: what [Invoke] returns.  An error comes with the nil map and is the
    iteration-limit error, an error of the context, or, when failures of
    the Planner are not taken as steps, the failure of a Planner call
    wrapped as a planning error: never the error of a tool.  A result
    without an error is what a Finish of the Planner says to return: its
    return values, with the step log the Planner was called with under
    [intermediate_steps] when the executor returns the steps. *)
Theorem Invoke_returns_a_finish_or_its_own_error
    (unicode_print : N -> bool) {W : Type} (e : AgentExecutor W) (ctx : Context W)
    (input : gomap) (cfg : RunnableConfig W) (w : W) :
  (forall v err,
     (Invoke unicode_print e ctx input cfg w).1 = Return v (Some err) ->
     v = None
     /\ (err = iteration_limit_error e
         \/ (exists w0, ctx w0 = Some err)
         \/ (handleParsingErrors e = false
             /\ exists steps w0 perr,
                  (Plan (agent e) steps input w0).1.2 = Some perr
                  /\ err = planning_error perr)))
  /\ (forall v,
        (Invoke unicode_print e ctx input cfg w).1 = Return v None ->
        exists steps w0 output fin,
          (Plan (agent e) steps input w0).1 = (Some output, None)
          /\ Finish output = Some fin
          /\ if returnIntermediateSteps e
             then exists m, ReturnValues fin = Some m
                            /\ v = Some (<["intermediate_steps" := ASteps steps]> m)
             else v = ReturnValues fin).
Proof.
  unfold Invoke, Invoke_run. cbn [fst].
  pose proof (loop_outcome unicode_print e cfg ctx input (Z.to_nat (maxIterations e))
                ([], notify cfg (OnChainStart input (RunID cfg) EmptyString
                                   (Some {[ "name" := AString (GetName e) ]})) w, []))
    as H.
  split.
  - intros v err Hout. rewrite Hout in H. exact H.
  - intros v Hout. rewrite Hout in H. exact H.
Qed.

(** [Samples.three_rounds] ends with the iteration-limit error; a Planner
    that finishes has its return values returned. *)
Lemma Invoke_returns_a_finish_or_its_own_error_witness :
  (errorString "agent exceeded maximum iterations (3)"
   = iteration_limit_error Samples.three_rounds
   \/ (exists w0, Samples.background w0
                  = Some (errorString "agent exceeded maximum iterations (3)"))
   \/ (handleParsingErrors Samples.three_rounds = false
       /\ exists steps w0 perr,
            (Plan (agent Samples.three_rounds) steps Samples.question_input w0).1.2 = Some perr
            /\ errorString "agent exceeded maximum iterations (3)" = planning_error perr))
  /\ (exists steps w0 output fin,
        (Plan Samples.finishes_and_acts steps Samples.question_input w0).1 = (Some output, None)
        /\ Finish output = Some fin
        /\ Some {[ "output" := AString "The answer is 42" ]} = ReturnValues fin).
Proof.
  split.
  - apply (proj1 (Invoke_returns_a_finish_or_its_own_error (fun _ => true)
                    Samples.three_rounds Samples.background Samples.question_input
                    Samples.quiet 0%nat) None).
    reflexivity.
  - apply (proj2 (Invoke_returns_a_finish_or_its_own_error (fun _ => true)
                    (Samples.two_tools Samples.finishes_and_acts)
                    Samples.background Samples.question_input
                    Samples.quiet 0%nat)).
    reflexivity.
Defined.

(** X19: a Planner that comes to an end is heard.  Let the context never be
    cancelled, the executor not return the steps, and the Planner never fail
    nor return nil; let it ask for at least one action while the log has
    less than [n] steps, and return a Finish once the log has [n] steps or
    more.  Then with a maximum of iterations above [n], [Invoke] returns the
    return values of a Finish of the Planner and no error, after [n + 1]
    Planner calls at most. *)
Theorem Invoke_returns_the_finish
    (unicode_print : N -> bool) {W : Type} (e : AgentExecutor W) (ctx : Context W)
    (input : gomap) (cfg : RunnableConfig W) (w : W) (n : nat) :
  (forall w0, ctx w0 = None) ->
  returnIntermediateSteps e = false ->
  (forall steps w0,
     exists output w1,
       Plan (agent e) steps input w0 = ((Some output, None), w1)
       /\ if decide (length steps < n)%nat
          then Finish output = None /\ Actions output <> []
          else Finish output <> None) ->
  Z.of_nat n < maxIterations e ->
  exists steps w0 output w1 fin,
    Plan (agent e) steps input w0 = ((Some output, None), w1)
    /\ Finish output = Some fin
    /\ (Invoke unicode_print e ctx input cfg w).1 = Return (ReturnValues fin) None
    /\ (plan_calls (calls (Invoke_run unicode_print e ctx input cfg w)) <= S n)%nat.
Proof.
  intros Hctx Hr Hplan Hmax. unfold Invoke, Invoke_run. cbn [fst].
  destruct (loop_finishes unicode_print e cfg ctx input n Hctx Hr Hplan
              (Z.to_nat (maxIterations e))
              ([], notify cfg (OnChainStart input (RunID cfg) EmptyString
                                 (Some {[ "name" := AString (GetName e) ]})) w, []))
    as (steps & w0 & output & w1 & fin & Hp & Hfin & Hout & Hcalls).
  - lia.
  - cbn [fst length]. lia.
  - exists steps, w0, output, w1, fin. repeat split; try assumption.
    cbn [fst snd length plan_calls] in Hcalls. lia.
Qed.

(** A Planner that finishes once the log has two steps, and a maximum of
    five iterations. *)
Lemma Invoke_returns_the_finish_witness :
  exists steps w0 output w1 fin,
    Plan (Samples2.finishes_after 2) steps Samples.question_input w0
    = ((Some output, None), w1)
    /\ Finish output = Some fin
    /\ (Invoke (fun _ => true)
          (NewAgentExecutor (Samples2.finishes_after 2) [Samples.calculator]
             [WithMaxIterations 5])
          Samples.background Samples.question_input Samples.quiet 0%nat).1
       = Return (ReturnValues fin) None
    /\ (plan_calls (calls (Invoke_run (fun _ => true)
                             (NewAgentExecutor (Samples2.finishes_after 2) [Samples.calculator]
                                [WithMaxIterations 5])
                             Samples.background Samples.question_input Samples.quiet 0%nat))
        <= 3)%nat.
Proof.
  apply (Invoke_returns_the_finish (fun _ => true)
           (NewAgentExecutor (Samples2.finishes_after 2) [Samples.calculator]
              [WithMaxIterations 5])
           Samples.background Samples.question_input Samples.quiet 0%nat 2).
  - reflexivity.
  - reflexivity.
  - intros steps w0. eexists _, _. split; [reflexivity|].
    destruct (decide (length steps < 2)%nat); cbn;
      [split; [reflexivity|discriminate]|discriminate].
  - vm_compute. reflexivity.
Defined.

End ExecutorSpec.
